(** * mcp-rest-api: the request pipeline of [src/index.ts], in Rocq

    A shallow embedding of the header sanitizer, the endpoint validator,
    the admission gate, the authentication resolver, the token provider
    and the response normalizer, with the properties the specification
    states about them.

    Conventions.
    - A JavaScript object used as a record of headers is the association
      list of its own properties, in the order [Object.entries] enumerates
      them; the keys are pairwise distinct. Every such object is made by a
      literal, so [Object.prototype] stands behind it: an assignment under
      the name [__proto__] and the operator [in] are modelled accordingly.
      Names that are array indices, which JavaScript enumerates before the
      others, are not told apart: what is stated about such objects is
      stated through their entries, not through the order of their keys.
    - Header names, environment variables and URLs are [string]s (the
      code only applies ASCII-level operations to them); a response body
      is a [jsstring], a sequence of UTF-16 code units, because the
      truncation loop works on code units.
    - [Date.now()], the transport and the other tasks of the event loop
      are explicit inputs. *)

From Stdlib Require Import ZArith Ascii List Lia.
From Stdlib Require String.
From stdpp Require Import base option list gmap strings pretty.
From Equations Require Import Equations.
Import ListNotations.

Local Open Scope Z_scope.

(** ** JavaScript values *)

(** A JavaScript string: UTF-16 code units, each in [0, 65535]. *)
Definition jsstring := list Z.

(** The values a header map or a parsed response body can hold. *)
#[warnings="-register-all"]
Inductive jsval : Type :=
| JNull
| JBool (b : bool)
| JNum (n : Z)
| JStr (s : jsstring)
| JArr (items : list jsval)
| JObj (fields : list (string * jsval)).

(** [Record<string, unknown>]. *)
Definition object := list (string * jsval).

Definition code_unit (a : ascii) : Z := Z.of_N (N_of_ascii a).

(** An ASCII literal as a JavaScript string. *)
Definition of_ascii (s : string) : jsstring :=
  map code_unit (String.list_ascii_of_string s).

Definition Object_keys (o : object) : list string := map fst o.

Fixpoint obj_get (k : string) (o : object) : option jsval :=
  match o with
  | [] => None
  | (k', v) :: o' => if String.eqb k' k then Some v else obj_get k o'
  end.

(** [CreateDataProperty(o, k, v)], the write of an object literal and of
    a spread: an existing property keeps its place, a new one is added at
    the end. *)
Fixpoint obj_define (k : string) (v : jsval) (o : object) : object :=
  match o with
  | [] => [(k, v)]
  | (k', v') :: o' =>
      if String.eqb k' k then (k, v) :: o' else (k', v') :: obj_define k v o'
  end.

(** [o[k] = v] on an object made by a literal. Under the name [__proto__]
    the assignment reaches the setter of [Object.prototype], which adds no
    own property: it ignores a primitive, and takes an object or [null] as
    the new prototype, which no reader of these objects ([Object.entries],
    [Object.keys], spread, [JSON.stringify]) looks at. Under every other
    name it creates or overwrites an own property. Where the code assigns
    twice under one name (to [config.headers], to the custom headers) the
    values are strings, so the setter is still in place at every
    assignment. *)
Definition obj_set (k : string) (v : jsval) (o : object) : object :=
  if String.eqb k "__proto__" then o else obj_define k v o.

(** [Object.prototype.hasOwnProperty.call(o, k)]. *)
Definition obj_has {A} (k : string) (o : list (string * A)) : bool :=
  existsb (String.eqb k) (map fst o).

(** The property names of [Object.prototype]. *)
Definition Object_prototype_names : list string :=
  [ "constructor"; "__defineGetter__"; "__defineSetter__"; "hasOwnProperty";
    "__lookupGetter__"; "__lookupSetter__"; "isPrototypeOf";
    "propertyIsEnumerable"; "toString"; "valueOf"; "__proto__";
    "toLocaleString" ].

(** [k in o] on an object made by a literal: the own properties and those
    of [Object.prototype]. *)
Definition obj_in {A} (k : string) (o : list (string * A)) : bool :=
  obj_has k o || existsb (String.eqb k) Object_prototype_names.

(** [Object.assign(target, source)]: one assignment per own property of
    [source]. *)
Definition Object_assign (target source : object) : object :=
  fold_left (fun t kv => obj_set (fst kv) (snd kv) t) source target.

(** [{ ...a, ...b }]: the own properties of [a], then those of [b], each
    defined on a fresh object. *)
Definition Object_spread (a b : object) : object :=
  fold_left (fun t kv => obj_define (fst kv) (snd kv) t) (a ++ b) [].

(** [Array.prototype.join]. *)
Fixpoint join (sep : string) (l : list string) : string :=
  match l with
  | [] => EmptyString
  | [x] => x
  | x :: rest => x +:+ sep +:+ join sep rest
  end.

(** [String.prototype.toLowerCase] on ASCII text. *)
Definition lower_ascii (c : ascii) : ascii :=
  let n := N_of_ascii c in
  if (65 <=? n)%N && (n <=? 90)%N then ascii_of_N (n + 32) else c.

Fixpoint toLowerCase (s : string) : string :=
  match s with
  | EmptyString => EmptyString
  | String c s' => String (lower_ascii c) (toLowerCase s')
  end.

(** JavaScript truthiness of an environment variable. *)
Definition truthy (v : option string) : bool :=
  match v with
  | Some s => negb (String.eqb s EmptyString)
  | None => false
  end.

(** ** Process configuration *)

Record Env := {
  REST_BASE_URL : option string;
  AUTH_BASIC_USERNAME : option string;
  AUTH_BASIC_PASSWORD : option string;
  AUTH_BEARER : option string;
  AUTH_APIKEY_HEADER_NAME : option string;
  AUTH_APIKEY_VALUE : option string;
  AUTH_TOKEN_MODULE : option string;
  NODE_ENV : option string;
  ALLOW_PRIVATE_NETWORKS : option string;
  (** what [getCustomHeaders()] returns (memoized from [HEADER_*]) *)
  customHeaders : list (string * string);
  RESPONSE_SIZE_LIMIT : Z
}.

Module CONFIG.
Definition SAFE_HEADERS : list string :=
  [ "accept"; "accept-language"; "content-type"; "user-agent";
    "cache-control"; "if-match"; "if-none-match"; "if-modified-since";
    "if-unmodified-since" ].
Definition SENSITIVE_HEADERS : list string :=
  [ "authorization"; "cookie"; "set-cookie"; "x-api-key"; "x-auth-token";
    "proxy-authorization"; "www-authenticate" ].
Definition MAX_CONCURRENT_REQUESTS : Z := 10.
Definition MAX_URL_LENGTH : Z := 2048.
Definition MAX_HEADER_VALUE_LENGTH : Z := 8192.
Definition MAX_CUSTOM_HEADERS : Z := 50.
Definition RATE_LIMIT_WINDOW : Z := 60000.
Definition MAX_REQUESTS_PER_WINDOW : Z := 100.
End CONFIG.

(** [Set.prototype.has] on a set of strings. *)
Definition set_has (s : list string) (k : string) : bool :=
  existsb (String.eqb k) s.
Arguments set_has : simpl never.

(** ** Header sanitizer ([sanitizeHeaders], src/index.ts) *)

Definition REDACTED : jsval := JStr (of_ascii "[REDACTED]").

(** [lowerKey === 'authorization' ||
     (AUTH.APIKEY_HEADER_NAME && lowerKey === AUTH.APIKEY_HEADER_NAME.toLowerCase())] *)
Definition isAuthHeader (env : Env) (lowerKey : string) : bool :=
  String.eqb lowerKey "authorization"
  || (truthy (AUTH_APIKEY_HEADER_NAME env)
      && match AUTH_APIKEY_HEADER_NAME env with
         | Some n => String.eqb lowerKey (toLowerCase n)
         | None => false
         end).

(** One iteration of the [for (const [key, value] of Object.entries(headers))]
    loop, as a transformer of [sanitized]. *)
Definition sanitizeEntry (env : Env) (isFromOptionalParams : bool)
    (sanitized : object) (kv : string * jsval) : object :=
  let '(key, value) := kv in
  let lowerKey := toLowerCase key in
  if set_has CONFIG.SENSITIVE_HEADERS lowerKey then
    obj_set key REDACTED sanitized
  else if isFromOptionalParams then
    obj_set key value sanitized
  else if isAuthHeader env lowerKey then
    obj_set key REDACTED sanitized
  else if obj_in key (customHeaders env) then
    obj_set key
      (if set_has CONFIG.SAFE_HEADERS lowerKey then value else REDACTED)
      sanitized
  else sanitized.

(** The body of [sanitizeHeaders] between the cache lookup and the cache
    update. *)
Definition sanitizeLoop (env : Env) (headers : object)
    (isFromOptionalParams : bool) : object :=
  fold_left (sanitizeEntry env isFromOptionalParams) headers [].

(** [sanitizedHeadersCache]. *)
Abbreviation Cache := (gmap string object).

Definition cacheKey (headers : object) (isFromOptionalParams : bool) : string :=
  if isFromOptionalParams
  then "optional_" +:+ join "," (Object_keys headers)
  else join "," (Object_keys headers).

(** [sanitizeHeaders(headers, isFromOptionalParams)], with the module-level
    cache threaded through. *)
Definition sanitizeHeaders (env : Env) (headers : object)
    (isFromOptionalParams : bool) (cache : Cache) : object * Cache :=
  let key := cacheKey headers isFromOptionalParams in
  match (if isFromOptionalParams then None else cache !! key) with
  | Some hit => (hit, cache)
  | None =>
      let sanitized := sanitizeLoop env headers isFromOptionalParams in
      if negb isFromOptionalParams && (Z.of_nat (size cache) <? 100)
      then (sanitized, <[key := sanitized]> cache)
      else (sanitized, cache)
  end.

(** The sanitization rules in the specification's words (section 4.1), with
    no cache: the reference [sanitizeHeaders] is compared with. *)
Definition redacted_by_rule (env : Env) (isCallerSupplied : bool)
    (name : string) : bool :=
  let lower := toLowerCase name in
  if isCallerSupplied then set_has CONFIG.SENSITIVE_HEADERS lower
  else isAuthHeader env lower
       || set_has CONFIG.SENSITIVE_HEADERS lower
       || (obj_has name (customHeaders env)
           && negb (set_has CONFIG.SAFE_HEADERS lower)).

Definition kept_by_rule (env : Env) (isCallerSupplied : bool)
    (name : string) : bool :=
  isCallerSupplied
  || redacted_by_rule env false name
  || obj_has name (customHeaders env).

Definition sanitize_reference (env : Env) (headers : object)
    (isCallerSupplied : bool) : object :=
  map (fun kv => (fst kv,
                  if redacted_by_rule env isCallerSupplied (fst kv)
                  then REDACTED else snd kv))
      (List.filter (fun kv => kept_by_rule env isCallerSupplied (fst kv))
                   headers).

(** What one header contributes under the rules: zero or one entry. *)
Definition entry_reference (env : Env) (f : bool) (kv : string * jsval) : object :=
  if kept_by_rule env f (fst kv)
  then [(fst kv, if redacted_by_rule env f (fst kv) then REDACTED else snd kv)]
  else [].


(** ** Errors *)

Inductive ErrorCode := InvalidParams | InvalidRequest | MethodNotFound.

Record McpError := { code : ErrorCode; message : string }.

(** The result of a call that may throw an [McpError]. *)
Inductive outcome (A : Type) : Type :=
| Return (a : A)
| Throw (e : McpError).
Arguments Return {A} a.
Arguments Throw {A} e.

#[global] Instance outcome_ret : MRet outcome := @Return.

#[global] Instance outcome_bind : MBind outcome := λ A B k m,
  match m with
  | Return a => k a
  | Throw e => Throw e
  end.

(** The double quote character, for messages that quote their input. *)
Definition dq : string := String (ascii_of_N 34) EmptyString.

(** ** Endpoint and host validator ([isValidEndpointArgs], src/index.ts) *)

Fixpoint string_forallb (p : ascii → bool) (s : string) : bool :=
  match s with
  | EmptyString => true
  | String c s' => p c && string_forallb p s'
  end.

Fixpoint string_filter (p : ascii → bool) (s : string) : string :=
  match s with
  | EmptyString => EmptyString
  | String c s' => if p c then String c (string_filter p s') else string_filter p s'
  end.

Definition in_range (lo hi : N) (c : ascii) : bool :=
  let n := N_of_ascii c in ((lo <=? n) && (n <=? hi))%N.

(** [/^[a-zA-Z0-9_-]+$/.test(s)] *)
Definition header_name_chars (s : string) : bool :=
  negb (String.eqb s EmptyString)
  && string_forallb (λ c, in_range 97 122 c || in_range 65 90 c
                          || in_range 48 57 c || in_range 95 95 c
                          || in_range 45 45 c) s.

(** The class [[\x00-\x08\x0B\x0C\x0E-\x1F\x7F]]. *)
Definition is_control (c : ascii) : bool :=
  in_range 0 8 c || in_range 11 12 c || in_range 14 31 c || in_range 127 127 c.

Definition validateAndSanitizeInput (input : string) (maxLength : Z)
    (allowedChars : option (string → bool)) : outcome string :=
  if Z.of_nat (String.length input) >? maxLength then
    Throw {| code := InvalidParams;
             message := "Input exceeds maximum length of " +:+ pretty maxLength
                        +:+ " characters" |}
  else if (match allowedChars with
           | Some test => negb (test input)
           | None => false
           end) then
    Throw {| code := InvalidParams; message := "Input contains invalid characters" |}
  else Return (string_filter (λ c, negb (is_control c)) input).

(** [CONFIG.URL_PATTERN.test(s)], the pattern being [/^(https?:\/\/|www\.)/i]. *)
Definition isFullUrl (s : string) : bool :=
  let l := toLowerCase s in
  String.prefix "http://" l || String.prefix "https://" l || String.prefix "www." l.

Record EndpointArgs := {
  method : string;
  endpoint : string;
  body : option jsval;
  headers : option object;
  host : option string
}.

(** What the validator reads of a parsed [URL]. [URL_set_pathname] is what
    reading [url.pathname] gives after assigning to it. *)
Record URL := {
  protocol : string;
  hostname : string;
  origin : string;
  pathname : string
}.

Fixpoint drop_leading_slashes (s : string) : string :=
  match s with
  | String "/" s' => drop_leading_slashes s'
  | _ => s
  end.

(** [s.replace(/\/+$/, '')] *)
Definition drop_trailing_slashes (s : string) : string :=
  String.rev (drop_leading_slashes (String.rev s)).

(** [s.replace(/^\/+|\/+$/g, '')] *)
Definition trim_slashes (s : string) : string :=
  drop_trailing_slashes (drop_leading_slashes s).

Definition ends_with_slash (s : string) : bool :=
  match String.rev s with
  | String "/" _ => true
  | _ => false
  end.

Definition is_private_host (hostname : string) : bool :=
  String.eqb hostname "localhost"
  || String.eqb hostname "127.0.0.1"
  || String.prefix "10." hostname
  || String.prefix "192.168." hostname
  || String.prefix "172." hostname.

Definition is_string (v : jsval) : bool :=
  match v with JStr _ => true | _ => false end.

Section Validator.
(** The WHATWG URL parser of the runtime: [new URL(s)], [None] when it
    throws, and the normalization its [pathname] setter applies. *)
Context (URL_parse : string → option URL) (URL_set_pathname : string → string).

(** The [try { ... } catch (e) { throw new McpError(...) }] block that
    normalizes [host]; every failure inside it, the private-network one
    included, leaves through the [catch]. *)
Definition normalizeHost (env : Env) (hostInput : string) : option string :=
  match URL_parse hostInput with
  | None => None
  | Some url =>
      if negb (String.eqb (protocol url) "http:" || String.eqb (protocol url) "https:")
      then None
      else if is_private_host (toLowerCase (hostname url))
              && negb (bool_decide (NODE_ENV env = Some "development"))
              && negb (bool_decide (ALLOW_PRIVATE_NETWORKS env = Some "true"))
      then None
      else if ends_with_slash (pathname url)
              && negb (String.eqb (pathname url) "/")
      then Some (origin url
                 +:+ URL_set_pathname (drop_trailing_slashes (pathname url)))
      else Some (origin url +:+ pathname url)
  end.

(** The loop over [Object.entries(headers)]: the first offending header
    throws. The length of a value is its number of code units. *)
Fixpoint validateHeaderEntries (hs : object) : outcome unit :=
  match hs with
  | [] => Return ()
  | (key, value) :: rest =>
      match value with
      | JStr s =>
          validateAndSanitizeInput key 256 (Some header_name_chars) ;;
          if Z.of_nat (length s) >? CONFIG.MAX_HEADER_VALUE_LENGTH then
            Throw {| code := InvalidParams;
                     message := "Input exceeds maximum length of "
                                +:+ pretty CONFIG.MAX_HEADER_VALUE_LENGTH
                                +:+ " characters" |}
          else validateHeaderEntries rest
      | _ => Throw {| code := InvalidParams;
                      message := "Header keys and values must be strings" |}
      end
  end.

Definition template (v : option string) : string :=
  match v with Some s => s | None => "undefined" end.

(** [isValidEndpointArgs(args)]: [Return (false, _)] and [Return (true, _)]
    are its two boolean results, the second component being [args] as the
    call leaves it ([endpoint] and [host] are overwritten in place). *)
Definition isValidEndpointArgs (env : Env) (args : EndpointArgs)
    : outcome (bool * EndpointArgs) :=
  if negb (set_has ["GET"; "POST"; "PUT"; "DELETE"; "PATCH"] (method args))
  then Return (false, args)
  else
    endpoint' ← validateAndSanitizeInput (endpoint args) CONFIG.MAX_URL_LENGTH None;
    let args1 := {| method := method args; endpoint := endpoint';
                    body := body args; headers := headers args;
                    host := host args |} in
    match headers args with
        | None => Return ()
        | Some hs =>
            let headerCount := Z.of_nat (length (Object_keys hs)) in
            if headerCount >? CONFIG.MAX_CUSTOM_HEADERS then
              Throw {| code := InvalidParams;
                       message := "Too many headers. Maximum allowed: "
                                  +:+ pretty CONFIG.MAX_CUSTOM_HEADERS
                                  +:+ ", received: " +:+ pretty headerCount |}
            else validateHeaderEntries hs
    end ;;
    let isFull := isFullUrl endpoint' in
    if negb (truthy (REST_BASE_URL env)) && negb isFull then
      Throw {| code := InvalidParams;
               message := "REST_BASE_URL is not configured. Either set REST_BASE_URL environment variable or provide a full URL in the endpoint parameter (e.g. " +:+ dq +:+ "https://api.example.com/users" +:+ dq +:+ ")." |}
    else if truthy (REST_BASE_URL env) && isFull then
      Throw {| code := InvalidParams;
               message := "REST_BASE_URL is configured. Do not include full URLs in the endpoint parameter. Instead of " +:+ dq
                 +:+ endpoint' +:+ dq +:+ ", use just the path (e.g. " +:+ dq +:+ "/api/users" +:+ dq +:+ "). Your path will be resolved to: "
                 +:+ template (REST_BASE_URL env) +:+ trim_slashes endpoint'
                 +:+ ". To test a different base URL, use the 'host' parameter or update the REST_BASE_URL environment variable." |}
    else
      match host args with
      | None => Return (true, args1)
      | Some h =>
          hostInput ← validateAndSanitizeInput h CONFIG.MAX_URL_LENGTH None;
          match normalizeHost env hostInput with
          | Some h' =>
              Return (true, {| method := method args; endpoint := endpoint';
                               body := body args; headers := headers args;
                               host := Some h' |})
          | None =>
              Throw {| code := InvalidParams;
                       message := "Invalid host format. The 'host' argument must be a valid URL starting with http:// or https://, e.g. " +:+ dq +:+ "https://example.com" +:+ dq +:+ " or " +:+ dq +:+ "http://localhost:3001/api/v1" +:+ dq +:+ ". Received: " +:+ dq
                                  +:+ h +:+ dq |}
          end
      end.

End Validator.

(** The URL the handler requests, computed after validation:
    [host || process.env.REST_BASE_URL] followed by the normalized
    endpoint, unless the endpoint is a full URL. *)
Definition resolveUrl (env : Env) (args : EndpointArgs) : string :=
  if isFullUrl (endpoint args) then endpoint args
  else
    let normalizedEndpoint := "/" +:+ trim_slashes (endpoint args) in
    let baseUrl := if truthy (host args) then host args else REST_BASE_URL env in
    template baseUrl +:+ normalizedEndpoint.

(** ** Byte length of a JavaScript string ([Buffer.byteLength(s, 'utf8')]) *)

Definition is_high_surrogate (c : Z) : bool := (0xD800 <=? c) && (c <=? 0xDBFF).
Definition is_low_surrogate (c : Z) : bool := (0xDC00 <=? c) && (c <=? 0xDFFF).
Definition is_surrogate (c : Z) : bool := is_high_surrogate c || is_low_surrogate c.

(** The UTF-8 bytes of one scalar value. *)
Definition utf8_scalar (cp : Z) : list Z :=
  if cp <? 0x80 then [cp]
  else if cp <? 0x800 then
    [Z.lor 0xC0 (Z.shiftr cp 6); Z.lor 0x80 (Z.land cp 0x3F)]
  else if cp <? 0x10000 then
    [Z.lor 0xE0 (Z.shiftr cp 12);
     Z.lor 0x80 (Z.land (Z.shiftr cp 6) 0x3F);
     Z.lor 0x80 (Z.land cp 0x3F)]
  else
    [Z.lor 0xF0 (Z.shiftr cp 18);
     Z.lor 0x80 (Z.land (Z.shiftr cp 12) 0x3F);
     Z.lor 0x80 (Z.land (Z.shiftr cp 6) 0x3F);
     Z.lor 0x80 (Z.land cp 0x3F)].

(** The bytes Node writes for a string: a surrogate pair is one scalar
    value of four bytes, an unpaired surrogate becomes U+FFFD. *)
Fixpoint utf8_encode (s : jsstring) : list Z :=
  match s with
  | [] => []
  | c :: rest =>
      if is_high_surrogate c then
        match rest with
        | d :: rest' =>
            if is_low_surrogate d
            then utf8_scalar (0x10000 + (c - 0xD800) * 0x400 + (d - 0xDC00))
                 ++ utf8_encode rest'
            else utf8_scalar 0xFFFD ++ utf8_encode rest
        | [] => utf8_scalar 0xFFFD
        end
      else if is_low_surrogate c then utf8_scalar 0xFFFD ++ utf8_encode rest
      else utf8_scalar c ++ utf8_encode rest
  end.

Definition Buffer_byteLength (s : jsstring) : Z :=
  Z.of_nat (length (utf8_encode s)).

(** ** Response normalizer (the size check of the handler, src/index.ts) *)

(** [s.slice(0, -1)] *)
Definition slice_drop_last (s : jsstring) : jsstring := removelast s.

(** The loop
    [while (currentSize > RESPONSE_SIZE_LIMIT && truncated.length > 0)]:
    it returns [truncated] and [currentSize] as the loop leaves them. *)
Equations trimToLimit (limit : Z) (truncated : jsstring) (currentSize : Z)
    : jsstring * Z by wf (length truncated) lt :=
  trimToLimit limit truncated currentSize with (currentSize >? limit), truncated => {
    | true, c :: t :=
        trimToLimit limit (slice_drop_last (c :: t))
                    (Buffer_byteLength (slice_drop_last (c :: t)));
    | true, [] := ([], currentSize);
    | false, _ := (truncated, currentSize) }.
Next Obligation.
  unfold slice_drop_last. clear. revert c.
  induction t as [|d t IH]; intros c; [simpl; lia|].
  change (removelast (c :: d :: t)) with (c :: removelast (d :: t)).
  specialize (IH d). simpl in *. lia.
Qed.

Record Truncated := {
  originalSize : Z;
  returnedSize : Z;
  truncationPoint : Z;
  sizeLimit : Z
}.

Record ValidationResult := {
  isError : bool;
  messages : list string;
  truncated : option Truncated
}.

Section Normalizer.
(** [JSON.stringify] of the runtime, on parsed response data. *)
Context (JSON_stringify : jsval → jsstring).

(** [bodyStr]: a string body is measured as it is, any other body through
    its JSON text. *)
Definition bodyStr (data : jsval) : jsstring :=
  match data with
  | JStr s => s
  | _ => JSON_stringify data
  end.

(** The size check: the body of the envelope and the validation record
    after it. *)
Definition checkBodySize (limit : Z) (data : jsval) (v : ValidationResult)
    : jsval * ValidationResult :=
  let bodySize := Buffer_byteLength (bodyStr data) in
  if bodySize >? limit then
    let '(truncated, currentSize) := trimToLimit limit (bodyStr data) bodySize in
    (JStr truncated,
     {| isError := isError v;
        messages := messages v ++
          ["Response truncated: " +:+ pretty currentSize +:+ " of "
           +:+ pretty bodySize +:+ " bytes returned due to size limit ("
           +:+ pretty limit +:+ " bytes)"];
        truncated := Some {| originalSize := bodySize;
                             returnedSize := currentSize;
                             truncationPoint := currentSize;
                             sizeLimit := limit |} |})
  else (data, v).

End Normalizer.

(** ** Admission gate ([RequestLimiter], src/index.ts) *)

Record RequestLimiter := {
  activeRequests : Z;
  maxConcurrent : Z;
  requestHistory : gmap string (list Z);
  maxRequestsPerWindow : Z;
  windowMs : Z
}.

(** [new RequestLimiter()] *)
Definition newRequestLimiter : RequestLimiter :=
  {| activeRequests := 0;
     maxConcurrent := CONFIG.MAX_CONCURRENT_REQUESTS;
     requestHistory := ∅;
     maxRequestsPerWindow := CONFIG.MAX_REQUESTS_PER_WINDOW;
     windowMs := CONFIG.RATE_LIMIT_WINDOW |}.

Definition set_activeRequests (n : Z) (l : RequestLimiter) : RequestLimiter :=
  {| activeRequests := n;
     maxConcurrent := maxConcurrent l;
     requestHistory := requestHistory l;
     maxRequestsPerWindow := maxRequestsPerWindow l;
     windowMs := windowMs l |}.

Definition set_requestHistory (h : gmap string (list Z)) (l : RequestLimiter)
    : RequestLimiter :=
  {| activeRequests := activeRequests l;
     maxConcurrent := maxConcurrent l;
     requestHistory := h;
     maxRequestsPerWindow := maxRequestsPerWindow l;
     windowMs := windowMs l |}.

(** [(timestamp) => now - timestamp < this.windowMs] *)
Definition inWindow (now window : Z) (timestamp : Z) : bool :=
  now - timestamp <? window.

Definition checkRateLimit (now : Z) (clientId : string) (l : RequestLimiter) : bool :=
  let requests := default [] (requestHistory l !! clientId) in
  let validRequests := List.filter (inWindow now (windowMs l)) requests in
  Z.of_nat (length validRequests) <? maxRequestsPerWindow l.

Definition recordRequest (now : Z) (clientId : string) (l : RequestLimiter)
    : RequestLimiter :=
  let requests := default [] (requestHistory l !! clientId) ++ [now] in
  set_requestHistory
    (<[clientId := List.filter (inWindow now (windowMs l)) requests]>
       (requestHistory l)) l.

Definition release (l : RequestLimiter) : RequestLimiter :=
  set_activeRequests (Z.max 0 (activeRequests l - 1)) l.

Definition cleanupHistory (now : Z) (l : RequestLimiter) : RequestLimiter :=
  set_requestHistory
    (omap (λ requests,
             let validRequests := List.filter (inWindow now (windowMs l)) requests in
             match validRequests with
             | [] => None
             | _ => Some validRequests
             end) (requestHistory l)) l.

(** What a suspended call cannot control: the clock and the other tasks of
    the event loop. [now_after k] is [Date.now()] once [k] of the 10 ms
    sleeps of this call have elapsed; [others_during k] is what the rest
    of the program does to the limiter during the sleep numbered [k]. *)
Record Schedule := {
  now_after : nat → Z;
  others_during : nat → RequestLimiter → RequestLimiter
}.

(** Nobody else runs and the clock stands still. *)
Definition quiet (now : Z) : Schedule :=
  {| now_after := λ _, now; others_during := λ _ l, l |}.

(** The error of a refused call. The message prints [windowMs / 1000]; the
    window of the limiter the server builds is 60000, and for a window of
    whole seconds the quotient is that number of seconds. *)
Definition rateLimitExceeded (l : RequestLimiter) : McpError :=
  {| code := InvalidRequest;
     message := "Rate limit exceeded. Maximum " +:+ pretty (maxRequestsPerWindow l)
                +:+ " requests per " +:+ pretty (windowMs l / 1000) +:+ " seconds." |}.

Definition serverTooBusy : McpError :=
  {| code := InvalidRequest; message := "Server too busy. Please try again later." |}.

(** The loop [while (this.activeRequests >= this.maxConcurrent)] of
    [acquire]. [attempts] runs from 0 and the loop throws once it exceeds
    100, so the loop is written on [remaining = 101 - attempts]: it sleeps
    at most 101 times. On success it returns the number of sleeps. *)
Fixpoint waitForSlot (sched : Schedule) (remaining : nat) (l : RequestLimiter)
    : outcome nat * RequestLimiter :=
  let attempts := (101 - remaining)%nat in
  if activeRequests l >=? maxConcurrent l then
    match remaining with
    | O => (Throw serverTooBusy, l)
    | S remaining' =>
        waitForSlot sched remaining' (others_during sched attempts l)
    end
  else (Return attempts, l).

(** [acquire(clientId)]: the outcome and the limiter when the call settles. *)
Definition acquire (sched : Schedule) (clientId : string) (l : RequestLimiter)
    : outcome unit * RequestLimiter :=
  if negb (checkRateLimit (now_after sched 0) clientId l) then
    (Throw (rateLimitExceeded l), l)
  else
    match waitForSlot sched 101 l with
    | (Throw e, l') => (Throw e, l')
    | (Return attempts, l') =>
        (Return (),
         recordRequest (now_after sched attempts) clientId
           (set_activeRequests (activeRequests l' + 1) l'))
    end.

(** The limiter as the other tasks alone leave it after [n] sleeps that
    start with sleep number [k]. *)
Fixpoint others_only (sched : Schedule) (k n : nat) (l : RequestLimiter)
    : RequestLimiter :=
  match n with
  | O => l
  | S n' => others_only sched (S k) n' (others_during sched k l)
  end.

(** ** Authentication resolver *)

Definition b64_alphabet : list ascii :=
  String.list_ascii_of_string
    "ABCDEFGHIJKLMNOPQRSTUVWXYZabcdefghijklmnopqrstuvwxyz0123456789+/".

Definition b64_digit (n : N) : ascii :=
  nth (N.to_nat n) b64_alphabet "="%char.

(** [Buffer.prototype.toString('base64')] on a list of bytes. *)
Fixpoint base64_bytes (l : list N) : list ascii :=
  match l with
  | [] => []
  | [a] =>
      [b64_digit (a / 4); b64_digit ((a mod 4) * 16); "="%char; "="%char]
  | [a; b] =>
      [b64_digit (a / 4); b64_digit ((a mod 4) * 16 + b / 16);
       b64_digit ((b mod 16) * 4); "="%char]
  | a :: b :: c :: rest =>
      [b64_digit (a / 4); b64_digit ((a mod 4) * 16 + b / 16);
       b64_digit ((b mod 16) * 4 + c / 64); b64_digit (c mod 64)]
      ++ base64_bytes rest
  end%N.

(** [Buffer.from(s).toString('base64')] *)
Definition base64 (s : string) : string :=
  String.string_of_list_ascii
    (base64_bytes (map N_of_ascii (String.list_ascii_of_string s))).

Definition hasBasicAuth (env : Env) : bool :=
  truthy (AUTH_BASIC_USERNAME env) && truthy (AUTH_BASIC_PASSWORD env).
Definition hasBearerAuth (env : Env) : bool := truthy (AUTH_BEARER env).
Definition hasApiKeyAuth (env : Env) : bool :=
  truthy (AUTH_APIKEY_HEADER_NAME env) && truthy (AUTH_APIKEY_VALUE env).
Definition hasDynamicBearerAuth (env : Env) : bool :=
  truthy (AUTH_TOKEN_MODULE env).

Inductive AuthMethod := none | basic | bearer | apikey | dynamic_bearer.

Definition jstr (s : string) : jsval := JStr (of_ascii s).

(** The header each branch of the chain writes. *)
Definition basicHeader (env : Env) : string * jsval :=
  ("Authorization",
   jstr ("Basic " +:+ base64 (template (AUTH_BASIC_USERNAME env) +:+ ":"
                              +:+ template (AUTH_BASIC_PASSWORD env)))).
Definition bearerHeader (env : Env) : string * jsval :=
  ("Authorization", jstr ("Bearer " +:+ template (AUTH_BEARER env))).
Definition apiKeyHeader (env : Env) : string * jsval :=
  (template (AUTH_APIKEY_HEADER_NAME env),
   jstr (template (AUTH_APIKEY_VALUE env))).
Definition dynamicHeader (token : string) : string * jsval :=
  ("Authorization", jstr ("Bearer " +:+ token)).

(** The chain of src/index.ts, which knows three credential sets; each
    branch assigns to a property of [config.headers]. *)
Module Static.

Definition applyAuth (env : Env) (headers : object) : object :=
  if hasBasicAuth env then
    obj_set (basicHeader env).1 (basicHeader env).2 headers
  else if hasBearerAuth env then
    obj_set (bearerHeader env).1 (bearerHeader env).2 headers
  else if hasApiKeyAuth env then
    obj_set (apiKeyHeader env).1 (apiKeyHeader env).2 headers
  else headers.

Definition authMethod (env : Env) : AuthMethod :=
  if hasBasicAuth env then basic
  else if hasBearerAuth env then bearer
  else if hasApiKeyAuth env then apikey
  else none.

End Static.

(** The chain of the variant with a token provider: [tokenProvider] is set
    by [setupServer] exactly when [AUTH_TOKEN_MODULE] is; [token] is what
    [getToken] returned when the fourth branch runs. Each branch builds
    [{ ...config.headers, name: value }], a literal that defines the
    property, also under a computed name. *)
Module Dynamic.

Definition applyAuth (env : Env) (token : string) (headers : object) : object :=
  if hasBasicAuth env then
    obj_define (basicHeader env).1 (basicHeader env).2 headers
  else if hasBearerAuth env then
    obj_define (bearerHeader env).1 (bearerHeader env).2 headers
  else if hasApiKeyAuth env then
    obj_define (apiKeyHeader env).1 (apiKeyHeader env).2 headers
  else if hasDynamicBearerAuth env then
    obj_define (dynamicHeader token).1 (dynamicHeader token).2 headers
  else headers.

Definition authMethod (env : Env) : AuthMethod :=
  if hasBasicAuth env then basic
  else if hasBearerAuth env then bearer
  else if hasApiKeyAuth env then apikey
  else if hasDynamicBearerAuth env then dynamic_bearer
  else none.

End Dynamic.

(** The resolver in the specification's words (section 4.4): the
    credential sets in their fixed priority, the first configured one
    wins, and the one header of the winning mode. *)
Definition configured (env : Env) (m : AuthMethod) : bool :=
  match m with
  | basic => truthy (AUTH_BASIC_USERNAME env) && truthy (AUTH_BASIC_PASSWORD env)
  | bearer => truthy (AUTH_BEARER env)
  | apikey => truthy (AUTH_APIKEY_HEADER_NAME env) && truthy (AUTH_APIKEY_VALUE env)
  | dynamic_bearer => truthy (AUTH_TOKEN_MODULE env)
  | none => true
  end.

Definition priority : list AuthMethod := [basic; bearer; apikey; dynamic_bearer; none].

Definition selectedMode (env : Env) : AuthMethod :=
  default none (List.find (configured env) priority).

Definition modeHeaders (env : Env) (token : string) (m : AuthMethod)
    : list (string * jsval) :=
  match m with
  | basic => [basicHeader env]
  | bearer => [bearerHeader env]
  | apikey => [apiKeyHeader env]
  | dynamic_bearer => [dynamicHeader token]
  | none => []
  end.

(** ** Tool surface (the [CallToolRequestSchema] handler, src/index.ts) *)

Record RequestInfo := {
  url : string;
  request_method : string;
  request_headers : object;
  request_body : option jsval;
  authMethod : AuthMethod
}.

Record ResponseInfo := {
  statusCode : Z;
  statusText : string;
  timing : string;
  response_headers : object;
  response_body : jsval
}.

Record ResponseObject := {
  request : RequestInfo;
  response : ResponseInfo;
  validation : ValidationResult
}.

Record AxiosRequestConfig := {
  config_method : string;
  config_url : string;
  config_headers : object;
  config_data : option jsval
}.

Record AxiosResponse := {
  status : Z;
  response_statusText : string;
  headers_received : object;
  data : jsval
}.

(** What the [catch] block can receive. *)
Inductive Caught :=
| AxiosError (msg : string) (error_code : option string) (error_status : option Z)
| OtherError (msg : string).

Record SanitizedError := {
  error_message : string;
  error_code_of : option string;
  error_status_of : option Z;
  error_url : string;
  error_method : string;
  error_headers : object;
  error_body : option jsval
}.

(** The three shapes of the text the handler returns; the last two carry
    [isError: true]. *)
Inductive ToolResult :=
| Envelope (r : ResponseObject)
| ErrorEnvelope (e : SanitizedError)
| GenericError (msg : string).

(** The calls the handler makes on the limiter, in order. *)
Inductive LimiterCall := AcquireResolved | AcquireRejected | ReleaseCalled.

Record World := {
  limiter : RequestLimiter;
  sanitizedHeadersCache : Cache;
  limiterCalls : list LimiterCall
}.

(** What is outside the handler: the scheduler, the transport
    ([this.axiosInstance.request], [inl] when it throws), what the other
    tasks do to the limiter while the request is in flight, and the
    formatted duration. *)
Record Outside := {
  sched : Schedule;
  transport : AxiosRequestConfig → Caught + AxiosResponse;
  others_during_request : RequestLimiter → RequestLimiter;
  requestTime : string
}.

(** JavaScript truthiness. *)
Definition js_truthy (v : jsval) : bool :=
  match v with
  | JNull => false
  | JBool b => b
  | JNum n => negb (n =? 0)
  | JStr s => negb (bool_decide (s = []))
  | _ => true
  end.

Definition ENABLE_DETAILED_ERRORS (env : Env) : bool :=
  bool_decide (NODE_ENV env = Some "development").

Definition customHeadersObject (env : Env) : object :=
  map (λ kv, (kv.1, jstr kv.2)) (customHeaders env).

(** The headers of the outgoing request: custom headers, then the headers
    of the call, each copied by [Object.assign], then the assignment of the
    authentication chain. *)
Definition buildConfig (env : Env) (args : EndpointArgs) : AxiosRequestConfig :=
  let h0 := Object_assign [] (customHeadersObject env) in
  let h1 := match headers args with
            | Some hs => Object_assign h0 hs
            | None => h0
            end in
  {| config_method := method args;
     config_url := resolveUrl env args;
     config_headers := Static.applyAuth env h1;
     config_data :=
       if set_has ["POST"; "PUT"; "PATCH"] (method args)
       then match body args with
            | Some b => if js_truthy b then Some b else None
            | None => None
            end
       else None |}.

Section Handler.
Context (URL_parse : string → option URL) (URL_set_pathname : string → string).
Context (JSON_stringify : jsval → jsstring).
(** [error.message] of an [McpError], as the protocol library renders it. *)
Context (McpError_message : McpError → string).
Context (env : Env) (out : Outside).

Definition logCall (c : LimiterCall) (l : RequestLimiter) (w : World) : World :=
  {| limiter := l;
     sanitizedHeadersCache := sanitizedHeadersCache w;
     limiterCalls := limiterCalls w ++ [c] |}.

(** The [request.headers] of both envelopes: the merged headers sanitized
    as configuration, overlaid with the headers of the call sanitized as
    caller-supplied. *)
Definition envelopeHeaders (config : AxiosRequestConfig) (args : EndpointArgs)
    (cache : Cache) : object * Cache :=
  let '(merged, cache1) := sanitizeHeaders env (config_headers config) false cache in
  let '(own, cache2) := sanitizeHeaders env (default [] (headers args)) true cache1 in
  (Object_spread merged own, cache2).

(** The [try] block after [release()]: the envelope. *)
Definition buildEnvelope (config : AxiosRequestConfig) (args : EndpointArgs)
    (resp : AxiosResponse) (cache : Cache) : ResponseObject * Cache :=
  let '(reqHeaders, cache2) := envelopeHeaders config args cache in
  let '(respHeaders, cache3) := sanitizeHeaders env (headers_received resp) false cache2 in
  let failed := status resp >=? 400 in
  let v := {| isError := failed;
              messages := if failed
                          then ["Request failed with status " +:+ pretty (status resp)]
                          else ["Request completed successfully"];
              truncated := None |} in
  let '(body', v') := checkBodySize JSON_stringify (RESPONSE_SIZE_LIMIT env) (data resp) v in
  ({| request := {| url := config_url config;
                    request_method := config_method config;
                    request_headers := reqHeaders;
                    request_body := config_data config;
                    authMethod := Static.authMethod env |};
      response := {| statusCode := status resp;
                     statusText := response_statusText resp;
                     timing := requestTime out;
                     response_headers := respHeaders;
                     response_body := body' |};
      validation := v' |}, cache3).

(** The [catch (error)] block: it releases the limiter first. *)
Definition onError (config : AxiosRequestConfig) (args : EndpointArgs)
    (error : Caught) (w : World) : ToolResult * World :=
  let w1 := logCall ReleaseCalled (release (limiter w)) w in
  match error with
  | AxiosError msg c st =>
      let '(hs, cache') := envelopeHeaders config args (sanitizedHeadersCache w1) in
      (ErrorEnvelope
         {| error_message := if ENABLE_DETAILED_ERRORS env then msg else "Request failed";
            error_code_of := c;
            error_status_of := st;
            error_url := if ENABLE_DETAILED_ERRORS env then config_url config
                         else "[URL REDACTED]";
            error_method := config_method config;
            error_headers := hs;
            error_body := if ENABLE_DETAILED_ERRORS env then config_data config
                          else Some (jstr "[BODY REDACTED]") |},
       {| limiter := limiter w1; sanitizedHeadersCache := cache';
          limiterCalls := limiterCalls w1 |})
  | OtherError msg =>
      (GenericError (if ENABLE_DETAILED_ERRORS env then msg
                     else "An error occurred while processing the request"),
       w1)
  end.

(** The [try { ... } catch (error) { ... }] statement of the handler. *)
Definition tryRequest (config : AxiosRequestConfig) (args : EndpointArgs)
    (w : World) : ToolResult * World :=
  match acquire (sched out) "default" (limiter w) with
  | (Throw e, l1) =>
      onError config args (OtherError (McpError_message e))
              (logCall AcquireRejected l1 w)
  | (Return _, l1) =>
      let w1 := logCall AcquireResolved l1 w in
      let l2 := others_during_request out l1 in
      match transport out config with
      | inl error =>
          onError config args error
                  {| limiter := l2;
                     sanitizedHeadersCache := sanitizedHeadersCache w1;
                     limiterCalls := limiterCalls w1 |}
      | inr resp =>
          let w2 := logCall ReleaseCalled (release l2) w1 in
          let '(r, cache') := buildEnvelope config args resp (sanitizedHeadersCache w2) in
          (Envelope r,
           {| limiter := limiter w2; sanitizedHeadersCache := cache';
              limiterCalls := limiterCalls w2 |})
      end
  end.

(** The handler of [tools/call]. *)
Definition callTool (name : string) (args : EndpointArgs) (w : World)
    : outcome ToolResult * World :=
  if negb (String.eqb name "test_request") then
    (Throw {| code := MethodNotFound; message := "Unknown tool: " +:+ name |}, w)
  else
    match isValidEndpointArgs URL_parse URL_set_pathname env args with
    | Throw e => (Throw e, w)
    | Return (false, _) =>
        (Throw {| code := InvalidParams;
                  message := "Invalid test endpoint arguments" |}, w)
    | Return (true, args') =>
        let '(r, w') := tryRequest (buildConfig env args') args' w in
        (Return r, w')
    end.

End Handler.

(** ** Token provider ([TokenProvider], the variant with dynamic
    authentication) *)

Module TokenProvider.

(** A promise is known by its identity. *)
Definition promise := nat.

Record State := {
  token : option string;
  tokenExpiresAt : option Z;
  inflight : option promise;
  (** whether [tokenFn] has been loaded from the module *)
  tokenFn : bool
}.

Definition set_token (t : option string) (st : State) : State :=
  {| token := t; tokenExpiresAt := tokenExpiresAt st;
     inflight := inflight st; tokenFn := tokenFn st |}.
Definition set_tokenExpiresAt (e : option Z) (st : State) : State :=
  {| token := token st; tokenExpiresAt := e;
     inflight := inflight st; tokenFn := tokenFn st |}.
Definition set_inflight (p : option promise) (st : State) : State :=
  {| token := token st; tokenExpiresAt := tokenExpiresAt st;
     inflight := p; tokenFn := tokenFn st |}.
Definition set_tokenFn (b : bool) (st : State) : State :=
  {| token := token st; tokenExpiresAt := tokenExpiresAt st;
     inflight := inflight st; tokenFn := b |}.

(** [invalidate()] *)
Definition invalidate (st : State) : State :=
  set_tokenExpiresAt None (set_token None st).

(** [!!options && typeof options === 'object' && Object.keys(options).length > 0] *)
Definition hasRequestOptions (options : option object) : bool :=
  match options with
  | Some o => (0 <? length (Object_keys o))%nat
  | None => false
  end.

Definition refreshSkewMs : Z := 60000.

Definition isValid (now : Z) (st : State) : bool :=
  truthy (token st)
  && match tokenExpiresAt st with
     | None => true
     | Some e => now <? e - refreshSkewMs
     end.

(** How far [getToken] gets before it first suspends. *)
Inductive Started :=
| Cached (t : string)
| Joined (p : promise)
| Acquiring (p : promise) (registered_finally : bool) (st : State).

(** [getToken] up to its first [await] or [return]. [fresh] is the promise
    [acquireToken(options)] returns. *)
Definition getToken_start (forceRefresh : bool) (options : option object)
    (now : Z) (fresh : promise) (st : State) : Started :=
  let hasReq := hasRequestOptions options in
  if negb forceRefresh && negb hasReq && isValid now st then
    Cached (template (token st))
  else
    match (if negb forceRefresh && negb hasReq then inflight st else None) with
    | Some p => Joined p
    | None =>
        if negb hasReq
        then Acquiring fresh true (set_inflight (Some fresh) st)
        else Acquiring fresh false st
    end.

(** The [finally] callback of the shared acquisition. *)
Definition clearInflight (st : State) : State := set_inflight None st.

Section Provider.
(** [getJwtExpMs], which reads the [exp] claim through the runtime's base64
    and JSON decoders. *)
Context (getJwtExpMs : string → option Z).

(** [getToken] from the point where [await tokenPromise] has produced
    [t], on the state as it is then. *)
Definition getToken_resume (options : option object) (t : string) (st : State)
    : string * State :=
  let hasReq := hasRequestOptions options in
  let st1 := if negb hasReq then set_token (Some t) st else st in
  let expMs := getJwtExpMs t in
  let st2 := if negb hasReq then set_tokenExpiresAt expMs st1 else st1 in
  (t, st2).

(** The token module: [inl] when it cannot be loaded as a function (the
    message of the error), otherwise the function, which gives [inl] the
    message of the error it throws or [inr] the text [String(token).trim()]. *)
Context (tokenModule : string + (option object → string + string)).

(** [acquireToken(options)], run to completion; [getTokenFn] keeps the
    loaded function in [tokenFn]. *)
Definition acquireToken (env : Env) (options : option object) (st : State)
    : (string + string) * State :=
  if negb (truthy (AUTH_TOKEN_MODULE env)) then
    (inl "Dynamic auth is enabled but AUTH_TOKEN_MODULE is not set", st)
  else
    match tokenModule with
    | inl e => (inl e, st)
    | inr fn =>
        let st' := set_tokenFn true st in
        match fn options with
        | inl e => (inl e, st')
        | inr trimmed =>
            if String.eqb trimmed EmptyString
            then (inl "AUTH_TOKEN_MODULE function returned empty token", st')
            else (inr trimmed, st')
        end
    end.

(** One whole call of [getToken] with no other task in between; [joined]
    is what an acquisition already in flight settles with. *)
Definition getToken (env : Env) (forceRefresh : bool) (options : option object)
    (now : Z) (fresh : promise) (joined : string + string) (st : State)
    : (string + string) * State :=
  match getToken_start forceRefresh options now fresh st with
  | Cached t => (inr t, st)
  | Joined _ => (joined, st)
  | Acquiring _ registered st1 =>
      let '(res, st2) := acquireToken env options st1 in
      let st3 := if registered then clearInflight st2 else st2 in
      match res with
      | inl e => (inl e, st3)
      | inr t => let '(t', st4) := getToken_resume options t st3 in (inr t', st4)
      end
  end.

End Provider.
End TokenProvider.

(** ** The older variant of the server

    The repository also holds an earlier form of the server, without the
    sensitive-header set, the cache and the trimming loop. Its sanitizer and
    its size check are kept here for comparison. *)

Module Variant.

Definition sanitizeEntry (env : Env) (isFromOptionalParams : bool)
    (sanitized : object) (kv : string * jsval) : object :=
  let '(key, value) := kv in
  let lowerKey := toLowerCase key in
  if isFromOptionalParams then
    obj_set key value sanitized
  else if isAuthHeader env lowerKey then
    obj_set key REDACTED sanitized
  else if obj_in key (customHeaders env) then
    obj_set key
      (if set_has CONFIG.SAFE_HEADERS lowerKey then value else REDACTED)
      sanitized
  else sanitized.

Definition sanitizeHeaders (env : Env) (headers : object)
    (isFromOptionalParams : bool) : object :=
  fold_left (sanitizeEntry env isFromOptionalParams) headers [].

(** [s.slice(0, n)] for [n >= 0] *)
Definition slice_prefix (n : Z) (s : jsstring) : jsstring := take (Z.to_nat n) s.

Section Normalizer.
Context (JSON_stringify : jsval → jsstring).

Definition checkBodySize (limit : Z) (data : jsval) (v : ValidationResult)
    : jsval * ValidationResult :=
  let bodySize := Buffer_byteLength (bodyStr JSON_stringify data) in
  if bodySize >? limit then
    (JStr (slice_prefix limit (bodyStr JSON_stringify data)),
     {| isError := isError v;
        messages := messages v ++
          ["Response truncated: " +:+ pretty limit +:+ " of "
           +:+ pretty bodySize +:+ " bytes returned due to size limit ("
           +:+ pretty limit +:+ " bytes)"];
        truncated := Some {| originalSize := bodySize;
                             returnedSize := limit;
                             truncationPoint := limit;
                             sizeLimit := limit |} |})
  else (data, v).

(** The envelope of a call that the transport answered; [startTime] and
    [endTime] are the two readings of the clock around the request. *)
Definition buildEnvelope (env : Env) (startTime endTime : Z)
    (config : AxiosRequestConfig) (args : EndpointArgs) (resp : AxiosResponse)
    : ResponseObject :=
  let failed := status resp >=? 400 in
  let v := {| isError := failed;
              messages := if failed
                          then ["Request failed with status " +:+ pretty (status resp)]
                          else ["Request completed successfully"];
              truncated := None |} in
  let '(body', v') := checkBodySize (RESPONSE_SIZE_LIMIT env) (data resp) v in
  {| request :=
       {| url := config_url config;
          request_method := if String.eqb (config_method config) EmptyString
                            then "GET" else config_method config;
          request_headers :=
            Object_spread (sanitizeHeaders env (config_headers config) false)
                          (sanitizeHeaders env (default [] (headers args)) true);
          request_body := config_data config;
          authMethod := Dynamic.authMethod env |};
     response := {| statusCode := status resp;
                    statusText := response_statusText resp;
                    timing := pretty (endTime - startTime) +:+ "ms";
                    response_headers :=
                      sanitizeHeaders env (headers_received resp) false;
                    response_body := body' |};
     validation := v' |}.

End Normalizer.
End Variant.

(** ** Startup configuration (the top of src/index.ts) *)

Module Startup.

Definition DEFAULT_RESPONSE_SIZE_LIMIT : Z := 10000.
Definition MAX_RESPONSE_SIZE_LIMIT : Z := 52428800.

Section Load.
(** [Number.parseInt(s, 10)]; [None] is [NaN]. *)
Context (parseInt : string → option Z).

(** The module-level computation of [RESPONSE_SIZE_LIMIT] and the two
    checks after it: [inl] is the message of the error that stops the
    process, [inr] the limit the server runs with. *)
Definition loadResponseSizeLimit (REST_RESPONSE_SIZE_LIMIT : option string)
    : string + Z :=
  let limit :=
    if truthy REST_RESPONSE_SIZE_LIMIT
    then parseInt (template REST_RESPONSE_SIZE_LIMIT)
    else Some DEFAULT_RESPONSE_SIZE_LIMIT in
  match limit with
  | None =>
      inl ("REST_RESPONSE_SIZE_LIMIT must be a positive number. Received: "
           +:+ template REST_RESPONSE_SIZE_LIMIT)
  | Some n =>
      if n <=? 0 then
        inl ("REST_RESPONSE_SIZE_LIMIT must be a positive number. Received: "
             +:+ template REST_RESPONSE_SIZE_LIMIT)
      else if n >? MAX_RESPONSE_SIZE_LIMIT then
        inl ("REST_RESPONSE_SIZE_LIMIT cannot exceed "
             +:+ pretty MAX_RESPONSE_SIZE_LIMIT
             +:+ " bytes for security reasons. Received: " +:+ pretty n)
      else inr n
  end.

End Load.

(** [normalizeBaseUrl] *)
Definition normalizeBaseUrl (url : option string) : string :=
  if truthy url then drop_trailing_slashes (template url) else EmptyString.

End Startup.

(** ** Custom header source ([getCustomHeaders], src/index.ts) *)

(** [o[k] = v] on a [Record<string, string>]. *)
Fixpoint record_set (k v : string) (o : list (string * string))
    : list (string * string) :=
  match o with
  | [] => [(k, v)]
  | (k', v') :: o' =>
      if String.eqb k' k then (k, v) :: o' else (k', v') :: record_set k v o'
  end.

(** [headers[k] = v] on the object literal of [getCustomHeaders]: the name
    [__proto__] reaches the setter of [Object.prototype], which ignores a
    string and adds no property. *)
Definition record_assign (k v : string) (o : list (string * string))
    : list (string * string) :=
  if String.eqb k "__proto__" then o else record_set k v o.

(** [CONFIG.HEADER_PREFIX.test(key)], the pattern being [/^header_/i]. *)
Definition hasHeaderPrefix (key : string) : bool :=
  String.prefix "header_" (toLowerCase key).

Fixpoint string_drop (n : nat) (s : string) : string :=
  match n, s with
  | S n', String _ s' => string_drop n' s'
  | _, _ => s
  end.

(** [key.replace(CONFIG.HEADER_PREFIX, '')] *)
Definition stripHeaderPrefix (key : string) : string :=
  if hasHeaderPrefix key then string_drop 7 key else key.

(** The loop over [Object.entries(process.env)], with [headers] and
    [headerCount] as the loop carries them. An entry that fails validation
    is skipped with a warning; the loop stops at the first prefixed entry
    met once the count has reached the maximum. *)
Fixpoint collectCustomHeaders (entries : list (string * string))
    (headers : list (string * string)) (headerCount : Z)
    : list (string * string) :=
  match entries with
  | [] => headers
  | (key, value) :: rest =>
      if hasHeaderPrefix key then
        if headerCount >=? CONFIG.MAX_CUSTOM_HEADERS then headers
        else
          let headerName := stripHeaderPrefix key in
          match validateAndSanitizeInput headerName 256 (Some header_name_chars),
                validateAndSanitizeInput value CONFIG.MAX_HEADER_VALUE_LENGTH None
          with
          | Return _, Return _ =>
              collectCustomHeaders rest (record_assign headerName value headers)
                                   (headerCount + 1)
          | _, _ => collectCustomHeaders rest headers headerCount
          end
      else collectCustomHeaders rest headers headerCount
  end.

(** [getCustomHeaders()], with [customHeadersCache] threaded through;
    [processEnv] is [Object.entries(process.env)]. *)
Definition getCustomHeaders (processEnv : list (string * string))
    (customHeadersCache : option (list (string * string)))
    : list (string * string) * option (list (string * string)) :=
  match customHeadersCache with
  | Some cached => (cached, customHeadersCache)
  | None =>
      let headers := collectCustomHeaders processEnv [] 0 in
      (headers, Some headers)
  end.

(** ** Performance monitor ([PerformanceMonitor.recordMetric], src/index.ts) *)

Module PerformanceMonitor.
Section Metrics.
(** A measurement; the monitor only stores it. *)
Context {V : Type}.

Definition recordMetric (ENABLE_PERFORMANCE_MONITORING : bool) (name : string)
    (value : V) (metrics : gmap string (list V)) : gmap string (list V) :=
  if negb ENABLE_PERFORMANCE_MONITORING then metrics
  else
    let values := default [] (metrics !! name) ++ [value] in
    <[name := if (100 <? length values)%nat then tail values else values]> metrics.

End Metrics.
End PerformanceMonitor.

(** ** Reading the expiry of a token ([getJwtExpMs], the variant with
    dynamic authentication) *)

Module Jwt.

Fixpoint string_map (f : ascii → ascii) (s : string) : string :=
  match s with
  | EmptyString => EmptyString
  | String c s' => String (f c) (string_map f s')
  end.

Fixpoint string_repeat (c : ascii) (n : nat) : string :=
  match n with
  | O => EmptyString
  | S n' => String c (string_repeat c n')
  end.

(** [input.replace(/-/g, '+').replace(/_/g, '/')] followed by the padding:
    the text handed to the base64 decoder. *)
Definition base64Text (input : string) : string :=
  let normalized :=
    string_map (λ c, if Ascii.eqb c "_" then "/"%char else c)
      (string_map (λ c, if Ascii.eqb c "-" then "+"%char else c) input) in
  let pad := if (String.length normalized mod 4 =? 0)%nat then EmptyString
             else string_repeat "="%char (4 - String.length normalized mod 4) in
  normalized +:+ pad.

(** [token.split('.')], with the part being read carried along. *)
Fixpoint split_dots (current : string) (s : string) : list string :=
  match s with
  | EmptyString => [String.rev current]
  | String c s' =>
      if Ascii.eqb c "." then String.rev current :: split_dots EmptyString s'
      else split_dots (String c current) s'
  end.

Definition split_on_dot (token : string) : list string :=
  split_dots EmptyString token.

Section Decode.
(** [Buffer.from(text, 'base64').toString('utf8')] and [JSON.parse]
    ([None] when it throws) of the runtime. *)
Context (base64_decode_utf8 : string → string) (JSON_parse : string → option jsval).

Definition decodeBase64UrlToString (input : string) : string :=
  base64_decode_utf8 (base64Text input).

(** [payload?.exp] when it is a finite number. *)
Definition exp_of (payload : jsval) : option Z :=
  match payload with
  | JObj fields =>
      match obj_get "exp" fields with
      | Some (JNum n) => Some n
      | _ => None
      end
  | _ => None
  end.

Definition getJwtExpMs (token : string) : option Z :=
  match split_on_dot token with
  | _ :: payloadPart :: _ =>
      match JSON_parse (decodeBase64UrlToString payloadPart) with
      | Some payload =>
          match exp_of payload with
          | Some e => Some (e * 1000)
          | None => None
          end
      | None => None
      end
  | _ => None
  end.

End Decode.
End Jwt.

(** ** Sample configurations *)

Definition noConfig : Env :=
  {| REST_BASE_URL := None;
     AUTH_BASIC_USERNAME := None; AUTH_BASIC_PASSWORD := None;
     AUTH_BEARER := None;
     AUTH_APIKEY_HEADER_NAME := None; AUTH_APIKEY_VALUE := None;
     AUTH_TOKEN_MODULE := None;
     NODE_ENV := None; ALLOW_PRIVATE_NETWORKS := None;
     customHeaders := [];
     RESPONSE_SIZE_LIMIT := 10000 |}.

(** [HEADER_Accept=application/json] and nothing else. *)
Definition acceptConfig : Env :=
  {| REST_BASE_URL := Some "http://localhost:3000";
     AUTH_BASIC_USERNAME := None; AUTH_BASIC_PASSWORD := None;
     AUTH_BEARER := None;
     AUTH_APIKEY_HEADER_NAME := None; AUTH_APIKEY_VALUE := None;
     AUTH_TOKEN_MODULE := None;
     NODE_ENV := None; ALLOW_PRIVATE_NETWORKS := None;
     customHeaders := [("Accept", "application/json")];
     RESPONSE_SIZE_LIMIT := 10000 |}.

(** [AUTH_BASIC_USERNAME=admin], [AUTH_BASIC_PASSWORD=secret]. *)
Definition basicConfig : Env :=
  {| REST_BASE_URL := Some "http://localhost:3000";
     AUTH_BASIC_USERNAME := Some "admin"; AUTH_BASIC_PASSWORD := Some "secret";
     AUTH_BEARER := None;
     AUTH_APIKEY_HEADER_NAME := None; AUTH_APIKEY_VALUE := None;
     AUTH_TOKEN_MODULE := None;
     NODE_ENV := None; ALLOW_PRIVATE_NETWORKS := None;
     customHeaders := [];
     RESPONSE_SIZE_LIMIT := 10000 |}.

(** A base origin and a size limit, nothing else. *)
Definition limitedConfig (limit : Z) : Env :=
  {| REST_BASE_URL := Some "http://localhost:3000";
     AUTH_BASIC_USERNAME := None; AUTH_BASIC_PASSWORD := None;
     AUTH_BEARER := None;
     AUTH_APIKEY_HEADER_NAME := None; AUTH_APIKEY_VALUE := None;
     AUTH_TOKEN_MODULE := None;
     NODE_ENV := None; ALLOW_PRIVATE_NETWORKS := None;
     customHeaders := [];
     RESPONSE_SIZE_LIMIT := limit |}.

(** [AUTH_TOKEN_MODULE=./token.mjs]. *)
Definition moduleConfig : Env :=
  {| REST_BASE_URL := Some "http://localhost:3000";
     AUTH_BASIC_USERNAME := None; AUTH_BASIC_PASSWORD := None;
     AUTH_BEARER := None;
     AUTH_APIKEY_HEADER_NAME := None; AUTH_APIKEY_VALUE := None;
     AUTH_TOKEN_MODULE := Some "./token.mjs";
     NODE_ENV := None; ALLOW_PRIVATE_NETWORKS := None;
     customHeaders := [];
     RESPONSE_SIZE_LIMIT := 10000 |}.

Definition getUsers : EndpointArgs :=
  {| method := "GET"; endpoint := "/users"; body := None; headers := None;
     host := None |}.

Definition okResponse (body : jsval) : AxiosResponse :=
  {| status := 200; response_statusText := "OK"; headers_received := [];
     data := body |}.

(** Ten calls in flight, recorded in the last second. *)
Definition fullLimiter : RequestLimiter :=
  {| activeRequests := 10;
     maxConcurrent := CONFIG.MAX_CONCURRENT_REQUESTS;
     requestHistory := {[ "default" := replicate 10 1000 ]};
     maxRequestsPerWindow := CONFIG.MAX_REQUESTS_PER_WINDOW;
     windowMs := CONFIG.RATE_LIMIT_WINDOW |}.

(** A hundred requests recorded in the last second, three still in flight. *)
Definition saturatedLimiter : RequestLimiter :=
  {| activeRequests := 3;
     maxConcurrent := CONFIG.MAX_CONCURRENT_REQUESTS;
     requestHistory := {[ "default" := replicate 100 1000 ]};
     maxRequestsPerWindow := CONFIG.MAX_REQUESTS_PER_WINDOW;
     windowMs := CONFIG.RATE_LIMIT_WINDOW |}.

Definition idleWorld (l : RequestLimiter) : World :=
  {| limiter := l; sanitizedHeadersCache := ∅; limiterCalls := [] |}.

Definition quietOutside (answer : Caught + AxiosResponse) : Outside :=
  {| sched := quiet 2000;
     transport := λ _, answer;
     others_during_request := λ l, l;
     requestTime := "1.00ms" |}.

Definition freshValidation : ValidationResult :=
  {| isError := false; messages := ["Request completed successfully"];
     truncated := None |}.

(** A serializer for the examples whose bodies are strings. *)
Definition no_serializer (_ : jsval) : jsstring := [].

(** A JSON serializer for the sample below only. *)
Definition sampleSerializer (v : jsval) : jsstring :=
  match v with
  | JObj [("a", JNum 1)] => [0x7B; 0x22; 0x61; 0x22; 0x3A; 0x31; 0x7D]
  | _ => of_ascii "null"
  end.

Definition cachedState : TokenProvider.State :=
  {| TokenProvider.token := Some "cached";
     TokenProvider.tokenExpiresAt := None;
     TokenProvider.inflight := Some 7%nat;
     TokenProvider.tokenFn := true |}.

(** A module that answers every call with the token [fresh]. *)
Definition sampleModule : string + (option object → string + string) :=
  inr (λ _, inr "fresh").

(** What the URL parser answers for [https://api.example.com/v1/], and
    nothing for any other text. *)
Definition sampleParser (s : string) : option URL :=
  if String.eqb s "https://api.example.com/v1/"
  then Some {| protocol := "https:"; hostname := "api.example.com";
               origin := "https://api.example.com"; pathname := "/v1/" |}
  else None.

(** ** Truncation as the specification words it *)

(** Truncation as the specification words it: the returned body fits in
    the limit, is the original body with whole characters removed from
    the end, so that its bytes are the first bytes of the original, and
    the record reports the sizes. *)
Definition truncation_as_claimed (JSON_stringify : jsval → jsstring)
    (limit : Z) (data : jsval) (v : ValidationResult) : Prop :=
  let size := Buffer_byteLength (bodyStr JSON_stringify data) in
  let result := checkBodySize JSON_stringify limit data v in
  (size ≤ limit → result = (data, v))
  ∧ (size > limit →
     ∃ t, result.1 = JStr t
          ∧ Buffer_byteLength t ≤ limit
          ∧ utf8_encode t `prefix_of` utf8_encode (bodyStr JSON_stringify data)
          ∧ truncated result.2
            = Some {| originalSize := size;
                      returnedSize := Buffer_byteLength t;
                      truncationPoint := Buffer_byteLength t;
                      sizeLimit := limit |}).

(** C5 as the specification words it: under the caller-supplied policy a
    header of the sensitive set maps to the marker and every other header
    passes through with its value. *)
Definition redaction_as_claimed (env : Env) (hs : object) (cache : Cache) : Prop :=
  let result := sanitizeHeaders env hs true cache in
  ∀ key value, (key, value) ∈ hs →
    (toLowerCase key ∈ CONFIG.SENSITIVE_HEADERS →
     obj_get key result.1 = Some REDACTED)
    ∧ (toLowerCase key ∉ CONFIG.SENSITIVE_HEADERS →
       obj_get key result.1 = Some value).

(** [AUTH_APIKEY_HEADER_NAME=__proto__], [AUTH_APIKEY_VALUE=k1]. *)
Definition protoKeyConfig : Env :=
  {| REST_BASE_URL := Some "http://localhost:3000";
     AUTH_BASIC_USERNAME := None; AUTH_BASIC_PASSWORD := None;
     AUTH_BEARER := None;
     AUTH_APIKEY_HEADER_NAME := Some "__proto__"; AUTH_APIKEY_VALUE := Some "k1";
     AUTH_TOKEN_MODULE := None;
     NODE_ENV := None; ALLOW_PRIVATE_NETWORKS := None;
     customHeaders := [];
     RESPONSE_SIZE_LIMIT := 10000 |}.

(** C6 as the specification words it, on the handler of src/index.ts: the
    header of the mode the priority order selects is among the headers of
    the outgoing request, and the envelope reports that mode. *)
Definition auth_as_claimed (JSON_stringify : jsval → jsstring) (env : Env)
    (out : Outside) (args : EndpointArgs) (resp : AxiosResponse) : Prop :=
  let config := buildConfig env args in
  let m := selectedMode env in
  (∀ k v, (k, v) ∈ modeHeaders env EmptyString m →
     obj_get k (config_headers config) = Some v)
  ∧ authMethod (request (buildEnvelope JSON_stringify env out config args resp ∅).1)
    = m.

(** ** More sample data *)

(** The text [users] after a bell character (code 7). *)
Definition bellText : string := String (ascii_of_N 7) "users".

(** One header a call may carry. *)
Definition tracedHeaders : object := [("X-Trace", jstr "t-1")].

(** ** Invariants *)

(** Every header of [o] whose lower-cased name is in the sensitive set
    holds the redaction marker. *)
Definition redacts_sensitive (o : object) : Prop :=
  ∀ k v, (k, v) ∈ o →
    set_has CONFIG.SENSITIVE_HEADERS (toLowerCase k) = true → v = REDACTED.

(** Every object the cache holds redacts the sensitive headers. *)
Definition cache_redacts (cache : Cache) : Prop :=
  ∀ key o, cache !! key = Some o → redacts_sensitive o.

(** The headers a tool result shows. *)
Definition shown_headers (r : ToolResult) : list object :=
  match r with
  | Envelope e => [request_headers (request e); response_headers (response e)]
  | ErrorEnvelope e => [error_headers e]
  | GenericError _ => []
  end.

(** A connection the target refuses. *)
Definition refusedConnection : Caught :=
  AxiosError "connect ECONNREFUSED 127.0.0.1:3000" (Some "ECONNREFUSED") None.

(** Calls that are admitted and complete one after the other at the given
    instants, while nothing else runs: the limiter they leave, or [None]
    as soon as one of them is refused. *)
Fixpoint serveAll (times : list Z) (l : RequestLimiter) : option RequestLimiter :=
  match times with
  | [] => Some l
  | t :: rest =>
      match acquire (quiet t) "default" l with
      | (Return _, l') => serveAll rest (release l')
      | (Throw _, _) => None
      end
  end.

(** The timestamps recorded for a client. *)
Definition recorded (clientId : string) (l : RequestLimiter) : list Z :=
  default [] (requestHistory l !! clientId).

(** A schedule in which one of the other calls finishes during the sleep
    numbered [k] and nothing else happens. *)
Definition releaseDuring (k : nat) (now : Z) : Schedule :=
  {| now_after := λ _, now;
     others_during := λ j l, if Nat.eqb j k then release l else l |}.

(** A limiter built with [new RequestLimiter(10, 2, 60000)]. *)
Definition twoPerMinute : RequestLimiter :=
  {| activeRequests := 0;
     maxConcurrent := 10;
     requestHistory := ∅;
     maxRequestsPerWindow := 2;
     windowMs := 60000 |}.

(** The provider state of a process that has not acquired a token yet. *)
Definition emptyState : TokenProvider.State :=
  {| TokenProvider.token := None;
     TokenProvider.tokenExpiresAt := None;
     TokenProvider.inflight := None;
     TokenProvider.tokenFn := false |}.

(** A payload decoder for the samples: it knows one payload, whose [exp]
    claim is 1700000000. *)
Definition sampleJsonParse (s : string) : option jsval :=
  if String.eqb s "payload" then Some (JObj [("exp", JNum 1700000000)]) else None.

(** What holds of the headers collected so far, at every turn of the loop. *)
Definition collected_ok (processEnv headers : list (string * string)) : Prop :=
  NoDup (map fst headers)
  ∧ ∀ name value, (name, value) ∈ headers →
      header_name_chars name = true
      ∧ Z.of_nat (String.length name) ≤ 256
      ∧ Z.of_nat (String.length value) ≤ CONFIG.MAX_HEADER_VALUE_LENGTH
      ∧ ∃ key, (key, value) ∈ processEnv
               ∧ hasHeaderPrefix key = true
               ∧ name = string_drop 7 key.

Definition starts_with_slash (s : string) : bool :=
  match s with
  | String c _ => Ascii.eqb c "/"
  | EmptyString => false
  end.
(** ** Objects: reading after writing *)

Lemma obj_get_obj_define (k k' : string) (v : jsval) (o : object) :
  obj_get k (obj_define k' v o) = if String.eqb k' k then Some v else obj_get k o.
Proof.
  induction o as [|[k0 v0] o IH]; simpl.
  - done.
  - destruct (String.eqb_spec k0 k') as [->|Hne]; simpl.
    + by destruct (String.eqb k' k).
    + destruct (String.eqb_spec k0 k) as [->|Hne']; [|done].
      by rewrite (proj2 (String.eqb_neq k' k)) by done.
Qed.

(** An assignment is read back under every name but [__proto__], under
    which it leaves the object as it was. *)
Lemma obj_get_obj_set (k k' : string) (v : jsval) (o : object) :
  obj_get k (obj_set k' v o)
  = if String.eqb k' "__proto__" then obj_get k o
    else if String.eqb k' k then Some v else obj_get k o.
Proof.
  unfold obj_set. destruct (String.eqb k' "__proto__"); [done|].
  apply obj_get_obj_define.
Qed.

Lemma obj_get_None (k : string) (o : object) :
  k ∉ Object_keys o → obj_get k o = None.
Proof.
  induction o as [|[k0 v0] o IH]; simpl; [done|].
  intros [Hne Hk]%not_elem_of_cons.
  by rewrite (proj2 (String.eqb_neq k0 k)), IH by done.
Qed.

Lemma obj_get_Object_assign_other (k : string) (target source : object) :
  k ∉ Object_keys source →
  obj_get k (Object_assign target source) = obj_get k target.
Proof.
  unfold Object_assign. revert target.
  induction source as [|[k1 v1] source IH]; intros target Hk; simpl; [done|].
  simpl in Hk. apply not_elem_of_cons in Hk as [Hne Hk].
  rewrite IH by done. rewrite obj_get_obj_set.
  rewrite (proj2 (String.eqb_neq k1 k)) by done.
  by destruct (String.eqb k1 "__proto__").
Qed.

(** No assignment creates a property named [__proto__]. *)
Lemma obj_get_Object_assign_proto (target source : object) :
  obj_get "__proto__" (Object_assign target source) = obj_get "__proto__" target.
Proof.
  unfold Object_assign. revert target.
  induction source as [|[k1 v1] source IH]; intros target; simpl; [done|].
  rewrite IH, obj_get_obj_set.
  by destruct (String.eqb_spec k1 "__proto__").
Qed.

Lemma obj_get_Object_assign_source (k : string) (v : jsval) (target source : object) :
  NoDup (Object_keys source) → (k, v) ∈ source → k ≠ "__proto__" →
  obj_get k (Object_assign target source) = Some v.
Proof.
  revert target.
  induction source as [|[k1 v1] source IH]; intros target Hnd Hin Hk.
  - by apply elem_of_nil in Hin.
  - simpl in Hnd. apply NoDup_cons in Hnd as [Hk1 Hnd].
    change (Object_assign target ((k1, v1) :: source))
      with (Object_assign (obj_set k1 v1 target) source).
    apply elem_of_cons in Hin as [[= -> ->]|Hin].
    + rewrite obj_get_Object_assign_other by done.
      rewrite obj_get_obj_set, String.eqb_refl.
      by rewrite (proj2 (String.eqb_neq k1 "__proto__")) by done.
    + by apply IH.
Qed.

Lemma elem_of_obj_define (k k' : string) (v v' : jsval) (o : object) :
  (k, v) ∈ obj_define k' v' o → (k, v) ∈ o ∨ (k, v) = (k', v').
Proof.
  induction o as [|[k0 v0] o IH]; simpl.
  - intros ->%list_elem_of_singleton. by right.
  - destruct (String.eqb k0 k').
    + intros [->|Hin]%elem_of_cons; [by right|]. left. by apply elem_of_cons; right.
    + intros [->|Hin]%elem_of_cons; [left; apply list_elem_of_here|].
      destruct (IH Hin) as [H|H]; [|by right]. left. by apply elem_of_cons; right.
Qed.

Lemma elem_of_obj_set (k k' : string) (v v' : jsval) (o : object) :
  (k, v) ∈ obj_set k' v' o → (k, v) ∈ o ∨ (k, v) = (k', v').
Proof.
  unfold obj_set. destruct (String.eqb k' "__proto__"); [by left|].
  apply elem_of_obj_define.
Qed.

(** Every property of a spread comes from one of its two sources. *)
Lemma elem_of_Object_spread (k : string) (v : jsval) (a b : object) :
  (k, v) ∈ Object_spread a b → (k, v) ∈ a ∨ (k, v) ∈ b.
Proof.
  unfold Object_spread. rewrite <- elem_of_app.
  assert (H : ∀ l acc, (k, v) ∈ fold_left (λ t kv, obj_define kv.1 kv.2 t) l acc →
                       (k, v) ∈ acc ∨ (k, v) ∈ l).
  { induction l as [|[k1 v1] l IH]; intros acc Hin; simpl in Hin; [by left|].
    destruct (IH _ Hin) as [H|H].
    - apply elem_of_obj_define in H as [H|[= -> ->]]; [by left|].
      right. apply list_elem_of_here.
    - right. by apply elem_of_cons; right. }
  intros Hin. destruct (H _ _ Hin) as [Hnil|Hl]; [|done].
  by apply elem_of_nil in Hnil.
Qed.

(** ** Properties of the sanitizer *)

Section SanitizerFacts.
Context (env : Env).

Lemma obj_has_false_iff {A} k (o : list (string * A)) :
  obj_has k o = false ↔ k ∉ map fst o.
Proof.
  unfold obj_has. induction o as [|[k' v] o IH]; simpl.
  - split; [intros _; apply not_elem_of_nil | done].
  - rewrite orb_false_iff, IH, not_elem_of_cons.
    destruct (String.eqb_spec k k'); intuition congruence.
Qed.

Lemma obj_define_fresh k v o :
  obj_has k o = false → obj_define k v o = o ++ [(k, v)].
Proof.
  unfold obj_has. induction o as [|[k' v'] o IH]; simpl; [done|].
  rewrite orb_false_iff. intros [Hk Ho].
  rewrite String.eqb_sym, Hk. by rewrite IH.
Qed.

(** An assignment to a name the object does not have yet adds what the
    same assignment adds to the empty object. *)
Lemma obj_set_fresh k v o :
  obj_has k o = false → obj_set k v o = o ++ obj_set k v [].
Proof.
  intros Hfresh. unfold obj_set.
  destruct (String.eqb k "__proto__"); [by rewrite app_nil_r|].
  by apply obj_define_fresh.
Qed.

Lemma obj_set_nil_keys k v x :
  x ∈ Object_keys (obj_set k v []) → x = k.
Proof.
  unfold obj_set. destruct (String.eqb k "__proto__"); simpl.
  - by intros ?%elem_of_nil.
  - by intros ?%list_elem_of_singleton.
Qed.

Lemma obj_set_nil_NoDup k v : NoDup (Object_keys (obj_set k v [])).
Proof.
  unfold obj_set. destruct (String.eqb k "__proto__"); simpl;
    [apply NoDup_nil_2 | apply NoDup_singleton].
Qed.

(** What one header contributes to the result of the loop: the entries
    [sanitizeEntry] adds to the empty object. *)
Lemma sanitizeEntry_fresh f acc kv :
  obj_has (fst kv) acc = false →
  sanitizeEntry env f acc kv = acc ++ sanitizeEntry env f [] kv.
Proof.
  intros Hfresh. destruct kv as [k v]. simpl in Hfresh.
  unfold sanitizeEntry.
  repeat case_match; rewrite ?app_nil_r; try done; by apply obj_set_fresh.
Qed.

Lemma sanitizeEntry_keys f kv k :
  k ∈ Object_keys (sanitizeEntry env f [] kv) → k = fst kv.
Proof.
  destruct kv as [k0 v]. unfold sanitizeEntry.
  repeat case_match; try (by intros ?%obj_set_nil_keys).
  by intros ?%elem_of_nil.
Qed.

Lemma sanitizeEntry_NoDup f kv :
  NoDup (Object_keys (sanitizeEntry env f [] kv)).
Proof.
  destruct kv as [k0 v]. unfold sanitizeEntry.
  repeat case_match; try apply obj_set_nil_NoDup. apply NoDup_nil_2.
Qed.

Lemma sanitize_fold f h acc :
  NoDup (Object_keys acc ++ Object_keys h) →
  fold_left (sanitizeEntry env f) h acc
  = acc ++ flat_map (sanitizeEntry env f []) h.
Proof.
  revert acc. induction h as [|kv h IH]; intros acc Hnd; simpl.
  - by rewrite app_nil_r.
  - rewrite app_assoc.
    assert (Hfresh : obj_has (fst kv) acc = false).
    { apply obj_has_false_iff. apply NoDup_app in Hnd as (_ & Hdisj & _).
      intros Hin. apply (Hdisj _ Hin). simpl. left. }
    rewrite (sanitizeEntry_fresh _ _ _ Hfresh). apply IH.
    unfold Object_keys in *. rewrite map_app.
    apply NoDup_app in Hnd as (Hacc & Hdisj & Hh). simpl in Hh.
    apply NoDup_cons in Hh as [Hkv Hh].
    apply NoDup_app. split_and!.
    + apply NoDup_app. split_and!; [done| |].
      * intros k Hk Hk'%sanitizeEntry_keys. subst k.
        apply (Hdisj _ Hk). simpl. left.
      * apply sanitizeEntry_NoDup.
    + intros k Hk Hk'. apply elem_of_app in Hk as [Hk|Hk].
      * apply (Hdisj _ Hk). simpl. by right.
      * apply sanitizeEntry_keys in Hk. by subst k.
    + done.
Qed.

(** The loop, header by header. *)
Lemma sanitizeLoop_entries f h :
  NoDup (Object_keys h) →
  sanitizeLoop env h f = flat_map (sanitizeEntry env f []) h.
Proof. intros Hnd. unfold sanitizeLoop. by rewrite sanitize_fold. Qed.

Lemma obj_in_own {A} k (o : list (string * A)) :
  k ∉ Object_prototype_names → obj_in k o = obj_has k o.
Proof.
  intros Hk. unfold obj_in.
  destruct (existsb (String.eqb k) Object_prototype_names) eqn:E;
    [|by rewrite orb_false_r].
  exfalso. apply Hk. apply existsb_exists in E as (x & Hin & ->%String.eqb_eq).
  by apply list_elem_of_In.
Qed.

Lemma not_prototype_name_proto k :
  k ∉ Object_prototype_names → String.eqb k "__proto__" = false.
Proof.
  intros Hk. destruct (String.eqb_spec k "__proto__") as [->|]; [|done].
  exfalso. apply Hk. unfold Object_prototype_names.
  repeat first [apply list_elem_of_here | apply list_elem_of_further].
Qed.

(** On a header whose name [Object.prototype] does not define, one turn
    of the loop is one application of the rules. *)
Lemma sanitizeEntry_reference f kv :
  fst kv ∉ Object_prototype_names →
  sanitizeEntry env f [] kv = entry_reference env f kv.
Proof.
  intros Hk. destruct kv as [k v]. simpl in Hk.
  unfold sanitizeEntry, entry_reference, kept_by_rule, redacted_by_rule, obj_set.
  rewrite (obj_in_own _ _ Hk), (not_prototype_name_proto _ Hk). simpl.
  destruct (set_has CONFIG.SENSITIVE_HEADERS (toLowerCase k)) eqn:Hs;
    destruct f; simpl; rewrite ?Hs, ?orb_true_r; simpl; try done.
  destruct (isAuthHeader env (toLowerCase k)) eqn:Ha; simpl; [done|].
  destruct (obj_has k (customHeaders env)) eqn:Hc; simpl; [|done].
  by destruct (set_has CONFIG.SAFE_HEADERS (toLowerCase k)).
Qed.

Lemma entry_reference_keys f kv k :
  k ∈ Object_keys (entry_reference env f kv) → k = fst kv.
Proof.
  unfold entry_reference. destruct (kept_by_rule _ _ _); simpl.
  - by intros ?%list_elem_of_singleton.
  - by intros ?%elem_of_nil.
Qed.

Lemma sanitize_reference_cons f kv h :
  sanitize_reference env (kv :: h) f
  = entry_reference env f kv ++ sanitize_reference env h f.
Proof.
  unfold sanitize_reference, entry_reference. simpl.
  by destruct (kept_by_rule env f (fst kv)).
Qed.

(** With no cache in the way, and on header names that [Object.prototype]
    does not define, the loop of the code computes the rules of the
    specification. *)
Lemma sanitizeLoop_reference f h :
  NoDup (Object_keys h) →
  (∀ k, k ∈ Object_keys h → k ∉ Object_prototype_names) →
  sanitizeLoop env h f = sanitize_reference env h f.
Proof.
  intros Hnd Hnames. rewrite sanitizeLoop_entries by done. clear Hnd.
  induction h as [|kv h IH]; [done|].
  simpl. rewrite sanitize_reference_cons, sanitizeEntry_reference.
  - f_equal. apply IH. intros k Hk. apply Hnames. by apply elem_of_cons; right.
  - apply Hnames. apply list_elem_of_here.
Qed.

Lemma set_has_true_iff (s : list string) (k : string) :
  set_has s k = true ↔ k ∈ s.
Proof.
  unfold set_has. rewrite existsb_exists. split.
  - intros (x & Hin & ->%String.eqb_eq). by apply list_elem_of_In.
  - intros Hin. exists k. split; [by apply list_elem_of_In|].
    apply String.eqb_refl.
Qed.

Lemma obj_get_NoDup (o : object) (k : string) (v : jsval) :
  NoDup (Object_keys o) → (k, v) ∈ o → obj_get k o = Some v.
Proof.
  induction o as [|[k' v'] o IH]; simpl; intros Hnd Hin.
  - by apply elem_of_nil in Hin.
  - apply NoDup_cons in Hnd as [Hk' Hnd].
    apply elem_of_cons in Hin as [Heq|Hin].
    + inversion Heq; subst. by rewrite String.eqb_refl.
    + destruct (String.eqb_spec k' k) as [->|Hne]; [|by apply IH].
      exfalso. apply Hk'. apply list_elem_of_fmap. by exists (k, v).
Qed.

(** Caller-supplied headers under the rules: nothing is dropped, only
    values change. *)
Lemma sanitize_reference_caller (h : object) :
  sanitize_reference env h true
  = map (λ kv, (kv.1, if set_has CONFIG.SENSITIVE_HEADERS (toLowerCase kv.1)
                      then REDACTED else kv.2)) h.
Proof.
  unfold sanitize_reference, kept_by_rule, redacted_by_rule. simpl.
  f_equal. induction h as [|kv h IH]; simpl; [done|]. by rewrite IH.
Qed.

(** Caller-supplied headers in the code: a header named [__proto__] is
    not returned, the others are, redacted or as they came. *)
Lemma sanitizeLoop_caller (h : object) :
  NoDup (Object_keys h) →
  sanitizeLoop env h true
  = map (λ kv, (kv.1, if set_has CONFIG.SENSITIVE_HEADERS (toLowerCase kv.1)
                      then REDACTED else kv.2))
        (List.filter (λ kv, negb (String.eqb kv.1 "__proto__")) h).
Proof.
  intros Hnd. rewrite sanitizeLoop_entries by done. clear Hnd.
  induction h as [|[k v] h IH]; [done|].
  cbn [flat_map List.filter]. rewrite IH. cbn [fst snd].
  unfold sanitizeEntry, obj_set.
  destruct (String.eqb k "__proto__"); simpl;
    by destruct (set_has CONFIG.SENSITIVE_HEADERS (toLowerCase k)).
Qed.

(** A cache miss computes the rules and at most records them. *)
Lemma sanitizeHeaders_miss (h : object) (cache : Cache) :
  NoDup (Object_keys h) →
  (∀ k, k ∈ Object_keys h → k ∉ Object_prototype_names) →
  cache !! cacheKey h false = None →
  (sanitizeHeaders env h false cache).1 = sanitize_reference env h false.
Proof.
  intros Hnd Hnames Hmiss. unfold sanitizeHeaders. rewrite Hmiss. simpl.
  rewrite sanitizeLoop_reference by done. by case_match.
Qed.

(** The cache is not consulted for caller-supplied headers. *)
Lemma sanitizeHeaders_caller (h : object) (cache : Cache) :
  sanitizeHeaders env h true cache = (sanitizeLoop env h true, cache).
Proof. done. Qed.

Lemma sanitize_reference_app (f : bool) (h1 h2 : object) :
  sanitize_reference env (h1 ++ h2) f
  = sanitize_reference env h1 f ++ sanitize_reference env h2 f.
Proof. unfold sanitize_reference. by rewrite List.filter_app, map_app. Qed.

Lemma entry_reference_idem (f : bool) (kv : string * jsval) :
  sanitize_reference env (entry_reference env f kv) f
  = entry_reference env f kv.
Proof.
  unfold entry_reference.
  destruct (kept_by_rule env f kv.1) eqn:Hk; [|done].
  unfold sanitize_reference. simpl. rewrite Hk. simpl.
  by destruct (redacted_by_rule env f kv.1).
Qed.

(** The rules themselves are idempotent: a redacted value stays redacted,
    a value that passed passes again. *)
Lemma sanitize_reference_idempotent (f : bool) (h : object) :
  sanitize_reference env (sanitize_reference env h f) f
  = sanitize_reference env h f.
Proof.
  induction h as [|kv h IH]; [done|].
  rewrite sanitize_reference_cons, sanitize_reference_app.
  by rewrite entry_reference_idem, IH.
Qed.

Lemma sanitize_reference_keys_NoDup (f : bool) (h : object) :
  NoDup (Object_keys h) → NoDup (Object_keys (sanitize_reference env h f)).
Proof.
  unfold sanitize_reference, Object_keys. rewrite map_map. simpl.
  induction h as [|kv h IH]; simpl; [done|].
  intros [Hk Hnd]%NoDup_cons.
  destruct (kept_by_rule env f kv.1); simpl; [|by apply IH].
  apply NoDup_cons. split; [|by apply IH].
  intros Hin. apply Hk. apply list_elem_of_fmap in Hin as [kv' [-> Hin]].
  apply list_elem_of_In, List.filter_In in Hin as [Hin _].
  apply list_elem_of_fmap. exists kv'. split; [done|].
  by apply list_elem_of_In.
Qed.

(** The entries of the loop's result come from headers of the same name. *)
Lemma sanitizeLoop_keys (f : bool) (h : object) (k : string) :
  k ∈ Object_keys (flat_map (sanitizeEntry env f []) h) → k ∈ Object_keys h.
Proof.
  induction h as [|kv h IH]; simpl; [done|].
  unfold Object_keys in *. rewrite map_app.
  intros [Hk|Hk]%elem_of_app.
  - apply sanitizeEntry_keys in Hk. subst k. apply list_elem_of_here.
  - apply elem_of_cons. right. by apply IH.
Qed.

Lemma sanitizeLoop_keys_NoDup (f : bool) (h : object) :
  NoDup (Object_keys h) →
  NoDup (Object_keys (flat_map (sanitizeEntry env f []) h)).
Proof.
  induction h as [|kv h IH]; simpl; [done|].
  intros [Hk Hnd]%NoDup_cons.
  unfold Object_keys in *. rewrite map_app. apply NoDup_app. split_and!.
  - apply sanitizeEntry_NoDup.
  - intros k Hk1%sanitizeEntry_keys Hk2%sanitizeLoop_keys. by subst k.
  - by apply IH.
Qed.

(** One turn of the loop on what a turn of the loop produced changes
    nothing: a redacted value is redacted again, a value that was shown is
    shown again. *)
Lemma sanitizeEntry_idem (f : bool) (kv : string * jsval) :
  flat_map (sanitizeEntry env f []) (sanitizeEntry env f [] kv)
  = sanitizeEntry env f [] kv.
Proof.
  destruct kv as [k v].
  destruct (String.eqb k "__proto__") eqn:Hp;
    destruct (set_has CONFIG.SENSITIVE_HEADERS (toLowerCase k)) eqn:Hs;
    destruct f;
    destruct (isAuthHeader env (toLowerCase k)) eqn:Ha;
    destruct (obj_in k (customHeaders env)) eqn:Hc;
    destruct (set_has CONFIG.SAFE_HEADERS (toLowerCase k)) eqn:Hsafe;
    unfold sanitizeEntry, obj_set; rewrite ?Hp, ?Hs, ?Ha, ?Hc, ?Hsafe;
    cbn [flat_map obj_define app];
    unfold sanitizeEntry, obj_set; rewrite ?Hp, ?Hs, ?Ha, ?Hc, ?Hsafe;
    reflexivity.
Qed.

Lemma sanitizeLoop_idempotent (f : bool) (h : object) :
  flat_map (sanitizeEntry env f [])
           (flat_map (sanitizeEntry env f []) h)
  = flat_map (sanitizeEntry env f []) h.
Proof.
  induction h as [|kv h IH]; [done|].
  simpl. rewrite flat_map_app. by rewrite sanitizeEntry_idem, IH.
Qed.

(** For caller-supplied headers the code itself is idempotent. *)
Lemma sanitizeHeaders_caller_idempotent (h : object) (c : Cache) :
  NoDup (Object_keys h) →
  let r := sanitizeHeaders env h true c in
  (sanitizeHeaders env r.1 true r.2).1 = r.1.
Proof.
  intros Hnd r. subst r. rewrite !sanitizeHeaders_caller. cbn [fst snd].
  rewrite (sanitizeLoop_entries _ h) by done.
  rewrite sanitizeLoop_entries by (by apply sanitizeLoop_keys_NoDup).
  apply sanitizeLoop_idempotent.
Qed.

End SanitizerFacts.

(** ** The sanitizer: properties *)

(** C5, on the code. A caller-supplied header named [__proto__], a name
    the validator accepts and [JSON.parse] makes an own property, does not
    pass through: the assignment [sanitized[key] = value] reaches the
    setter of [Object.prototype] and adds no property, so of the headers
    [__proto__] and [A], neither of them sensitive, only [A] is
    returned. The comment above the assignment says that headers from
    optional parameters are always included. *)
Theorem C5_proto_header_is_dropped :
  let hs := [("__proto__", jstr "x"); ("A", jstr "1")] in
  let result := (sanitizeHeaders noConfig hs true ∅).1 in
  NoDup (Object_keys hs)
  ∧ (toLowerCase "__proto__" ∉ CONFIG.SENSITIVE_HEADERS)
  ∧ result = [("A", jstr "1")]
  ∧ obj_get "__proto__" result = None
  ∧ ¬ redaction_as_claimed noConfig hs ∅.
Proof.
  split_and!.
  - apply NoDup_cons_2; [|apply NoDup_singleton].
    intros H%list_elem_of_singleton. discriminate H.
  - intros Hs. vm_compute in Hs.
    repeat (apply elem_of_cons in Hs as [Hs|Hs]; [discriminate Hs|]).
    by apply elem_of_nil in Hs.
  - reflexivity.
  - reflexivity.
  - intros H.
    destruct (H "__proto__" (jstr "x")) as [_ Hpass]; [apply list_elem_of_here|].
    vm_compute in Hpass. discriminate Hpass.
    intros Hs. repeat (apply elem_of_cons in Hs as [Hs|Hs]; [discriminate Hs|]).
    by apply elem_of_nil in Hs.
Qed.

(** Apart from that name the policy for caller-supplied headers is the
    one the specification states. For every header mapping sanitized as
    caller-supplied, every header whose lower-cased name is one of
    authorization, cookie, set-cookie, x-api-key, x-auth-token,
    proxy-authorization and www-authenticate maps to the redaction marker,
    and every other header not named [__proto__] passes through with its
    value unchanged; no other header is dropped, none is added, and the
    cache is left alone. *)
Lemma caller_supplied_redaction (env : Env) (hs : object) (cache : Cache) :
  NoDup (Object_keys hs) →
  let result := sanitizeHeaders env hs true cache in
  Object_keys result.1
  = List.filter (λ k, negb (String.eqb k "__proto__")) (Object_keys hs)
  ∧ result.2 = cache
  ∧ obj_get "__proto__" result.1 = None
  ∧ ∀ key value, (key, value) ∈ hs →
      (toLowerCase key ∈ [ "authorization"; "cookie"; "set-cookie"; "x-api-key";
                           "x-auth-token"; "proxy-authorization";
                           "www-authenticate" ]
       → obj_get key result.1 = Some REDACTED)
      ∧ (toLowerCase key ∉ [ "authorization"; "cookie"; "set-cookie"; "x-api-key";
                             "x-auth-token"; "proxy-authorization";
                             "www-authenticate" ]
         → key ≠ "__proto__"
         → obj_get key result.1 = Some value).
Proof.
  intros Hnd result. subst result.
  rewrite sanitizeHeaders_caller. cbn [fst snd].
  rewrite (sanitizeLoop_caller env hs Hnd).
  set (g := λ kv : string * jsval,
              (kv.1, if set_has CONFIG.SENSITIVE_HEADERS (toLowerCase kv.1)
                     then REDACTED else kv.2)).
  set (p := λ kv : string * jsval, negb (String.eqb kv.1 "__proto__")).
  assert (Hkeys : Object_keys (map g (List.filter p hs))
                  = List.filter (λ k, negb (String.eqb k "__proto__"))
                                (Object_keys hs)).
  { clear Hnd. induction hs as [|[k v] hs IH]; [done|].
    cbn [List.filter Object_keys map fst]. unfold p at 1. cbn [fst].
    destruct (negb (String.eqb k "__proto__")); [|exact IH].
    cbn [map Object_keys fst]. f_equal. exact IH. }
  assert (Hnd' : NoDup (Object_keys (map g (List.filter p hs)))).
  { rewrite Hkeys. clear Hkeys. unfold Object_keys in *.
    induction (map fst hs) as [|k ks IH]; [done|].
    apply NoDup_cons in Hnd as [Hk Hnd]. cbn [List.filter].
    destruct (negb (String.eqb k "__proto__")); [|by apply IH].
    apply NoDup_cons. split; [|by apply IH].
    intros Hin. apply Hk.
    apply list_elem_of_In, List.filter_In in Hin as [Hin _].
    by apply list_elem_of_In. }
  assert (Hin' : ∀ key value, (key, value) ∈ hs → key ≠ "__proto__" →
                   g (key, value) ∈ map g (List.filter p hs)).
  { intros key value Hin Hkey. apply list_elem_of_fmap. exists (key, value).
    split; [done|]. apply list_elem_of_In, List.filter_In.
    split; [by apply list_elem_of_In|].
    unfold p. cbn [fst]. by rewrite (proj2 (String.eqb_neq key "__proto__")). }
  split_and!; [done|done| |].
  { apply obj_get_None. rewrite Hkeys. intros Hin.
    apply list_elem_of_In, List.filter_In in Hin as [_ Hin]. discriminate Hin. }
  intros key value Hin.
  pose proof (set_has_true_iff CONFIG.SENSITIVE_HEADERS (toLowerCase key)) as Hset.
  change CONFIG.SENSITIVE_HEADERS with
    [ "authorization"; "cookie"; "set-cookie"; "x-api-key"; "x-auth-token";
      "proxy-authorization"; "www-authenticate" ] in Hset at 2.
  split.
  - intros Hsens.
    assert (Hkey : key ≠ "__proto__").
    { intros ->. vm_compute in Hsens.
      repeat (apply elem_of_cons in Hsens as [Hsens|Hsens]; [discriminate Hsens|]).
      by apply elem_of_nil in Hsens. }
    apply obj_get_NoDup; [done|].
    specialize (Hin' key value Hin Hkey). unfold g at 1 in Hin'. cbn [fst snd] in Hin'.
    apply Hset in Hsens. by rewrite Hsens in Hin'.
  - intros Hsens Hkey.
    apply obj_get_NoDup; [done|].
    specialize (Hin' key value Hin Hkey). unfold g at 1 in Hin'. cbn [fst snd] in Hin'.
    destruct (set_has CONFIG.SENSITIVE_HEADERS (toLowerCase key)) eqn:E; [|done].
    exfalso. apply Hsens, Hset. done.
Qed.

(** The headers [Authorization], [X-Trace], [__proto__] and [COOKIE]. *)
Lemma caller_supplied_redaction_example :
  let hs := [("Authorization", jstr "Bearer abc"); ("X-Trace", jstr "t-1");
             ("__proto__", jstr "x"); ("COOKIE", jstr "sid=1")] in
  (sanitizeHeaders noConfig hs true ∅).1
  = [("Authorization", REDACTED); ("X-Trace", jstr "t-1"); ("COOKIE", REDACTED)]
  ∧ Object_keys (sanitizeHeaders noConfig hs true ∅).1
    = List.filter (λ k, negb (String.eqb k "__proto__")) (Object_keys hs).
Proof.
  split; [reflexivity|].
  apply (caller_supplied_redaction noConfig
           [("Authorization", jstr "Bearer abc"); ("X-Trace", jstr "t-1");
            ("__proto__", jstr "x"); ("COOKIE", jstr "sid=1")] ∅).
  repeat (apply NoDup_cons_2; [vm_compute; intros H; repeat
            (apply elem_of_cons in H as [H|H]; [discriminate|]);
            by apply elem_of_nil in H|]).
  apply NoDup_nil_2.
Qed.

(** The older variant has no sensitive set: a caller-supplied
    [Authorization] header comes back in clear. *)
Lemma Variant_caller_supplied_not_redacted :
  Variant.sanitizeHeaders noConfig [("Authorization", jstr "Bearer abc")] true
  = [("Authorization", jstr "Bearer abc")].
Proof. reflexivity. Qed.

(** C4, on the code. With [HEADER_Accept] configured, a first call whose
    merged headers carry [Accept: text/plain] fills the cache under the
    key [Accept]; a second call whose headers carry
    [Accept: application/json] is answered from the cache with the value
    of the first call, where the rules alone give the value of the
    second. The cache key is built from the header names only. *)
Theorem C4_cache_returns_stale_values :
  let first := [("Accept", jstr "text/plain")] in
  let second := [("Accept", jstr "application/json")] in
  let cache1 := (sanitizeHeaders acceptConfig first false ∅).2 in
  (sanitizeHeaders acceptConfig second false cache1).1
    = [("Accept", jstr "text/plain")]
  ∧ sanitize_reference acceptConfig second false
    = [("Accept", jstr "application/json")]
  ∧ (sanitizeHeaders acceptConfig second false cache1).1
    ≠ sanitize_reference acceptConfig second false.
Proof. vm_compute. split_and!; [reflexivity | reflexivity | discriminate]. Qed.

(** The cache key forgets the values. *)
Lemma cacheKey_names_only (hs1 hs2 : object) (f : bool) :
  Object_keys hs1 = Object_keys hs2 → cacheKey hs1 f = cacheKey hs2 f.
Proof. unfold cacheKey. by intros ->. Qed.

(** A hit returns what was stored, whatever the values now are. *)
Lemma sanitizeHeaders_hit (env : Env) (hs stored : object) (cache : Cache) :
  cache !! cacheKey hs false = Some stored →
  sanitizeHeaders env hs false cache = (stored, cache).
Proof. intros Hhit. unfold sanitizeHeaders. by rewrite Hhit. Qed.

(** C8, on the code. After a call that cached [Accept: text/plain],
    sanitizing [Accept: application/json] together with an unrecognized
    header gives [Accept: application/json]; sanitizing that result again
    hits the cache entry of the first call and gives [Accept: text/plain].
    The rules themselves are idempotent ([sanitize_reference_idempotent]). *)
Theorem C8_cached_result_breaks_idempotence :
  let cache1 := (sanitizeHeaders acceptConfig [("Accept", jstr "text/plain")] false ∅).2 in
  let hs := [("Accept", jstr "application/json"); ("X-Trace", jstr "t-1")] in
  let once := sanitizeHeaders acceptConfig hs false cache1 in
  let twice := sanitizeHeaders acceptConfig once.1 false once.2 in
  once.1 = [("Accept", jstr "application/json")]
  ∧ twice.1 = [("Accept", jstr "text/plain")]
  ∧ twice.1 ≠ once.1.
Proof. vm_compute. split_and!; [reflexivity | reflexivity | discriminate]. Qed.

(** From an empty cache the code is idempotent too: the second call either
    hits the entry the first one just stored or runs the loop on what the
    loop produced. *)
Lemma sanitizeHeaders_idempotent_from_empty (env : Env) (hs : object) (f : bool) :
  NoDup (Object_keys hs) →
  let once := sanitizeHeaders env hs f ∅ in
  (sanitizeHeaders env once.1 f once.2).1 = once.1.
Proof.
  intros Hnd once. destruct f.
  { by apply sanitizeHeaders_caller_idempotent. }
  subst once. unfold sanitizeHeaders at 2 3 4. rewrite lookup_empty.
  cbn [negb andb]. rewrite map_size_empty.
  change (Z.of_nat 0 <? 100) with true. cbn [fst snd].
  rewrite (sanitizeLoop_entries env false hs) by done.
  set (r := flat_map (sanitizeEntry env false []) hs).
  destruct (decide (cacheKey r false = cacheKey hs false)) as [Heq|Hne].
  - rewrite (sanitizeHeaders_hit env r r); [done|].
    rewrite Heq. apply lookup_insert_eq.
  - unfold sanitizeHeaders. rewrite lookup_insert_ne by done.
    rewrite lookup_empty.
    rewrite sanitizeLoop_entries by (by apply sanitizeLoop_keys_NoDup).
    subst r. rewrite sanitizeLoop_idempotent. by case_match.
Qed.

(** ** The validator: properties *)

Section ValidatorFacts.
Context (URL_parse : string → option URL) (URL_set_pathname : string → string).

(** Without a base origin, an endpoint that is not a full URL is never
    accepted: the check runs before [host] is looked at. *)
Lemma isValidEndpointArgs_path_needs_base (env : Env) (args args' : EndpointArgs) :
  truthy (REST_BASE_URL env) = false →
  (∀ e, validateAndSanitizeInput (endpoint args) CONFIG.MAX_URL_LENGTH None = Return e
        → isFullUrl e = false) →
  isValidEndpointArgs URL_parse URL_set_pathname env args ≠ Return (true, args').
Proof.
  intros Hbase Hpath. unfold isValidEndpointArgs.
  destruct (negb (set_has _ (method args))); [discriminate|].
  destruct (validateAndSanitizeInput (endpoint args) CONFIG.MAX_URL_LENGTH None)
    as [e|err] eqn:He; [|discriminate].
  specialize (Hpath e eq_refl). cbn [mbind outcome_bind].
  destruct (match headers args with Some _ => _ | None => _ end);
    [|discriminate].
  rewrite Hbase, Hpath. discriminate.
Qed.

(** With a base origin and no [host], a path is accepted as it is. *)
Lemma isValidEndpointArgs_path_with_base :
  isValidEndpointArgs URL_parse URL_set_pathname acceptConfig
    {| method := "GET"; endpoint := "/users"; body := None; headers := None;
       host := None |}
  = Return (true, {| method := "GET"; endpoint := "/users"; body := None;
                     headers := None; host := None |}).
Proof. reflexivity. Qed.

End ValidatorFacts.

(** C1, on the code. No base origin is configured, the endpoint is the
    path [/users] and the call supplies the host
    [https://api.example.com]: validation throws InvalidParams, whatever
    the URL parser says about the host, although the handler would have
    resolved the call to [https://api.example.com/users]. *)
Theorem C1_host_override_rejected_without_base_url
    (URL_parse : string → option URL) (URL_set_pathname : string → string) :
  let args := {| method := "GET"; endpoint := "/users"; body := None;
                 headers := None; host := Some "https://api.example.com" |} in
  (∃ msg, isValidEndpointArgs URL_parse URL_set_pathname noConfig args
          = Throw {| code := InvalidParams; message := msg |})
  ∧ isFullUrl (endpoint args) = false
  ∧ resolveUrl noConfig args = "https://api.example.com/users".
Proof. split_and!; [eexists|..]; reflexivity. Qed.

(** ** The admission gate: properties *)

Section LimiterFacts.
Context (sched : Schedule).

Lemma waitForSlot_throws (n : nat) (l l' : RequestLimiter) (e : McpError) :
  (n ≤ 101)%nat →
  waitForSlot sched n l = (Throw e, l') →
  e = serverTooBusy ∧ l' = others_only sched (101 - n) n l.
Proof.
  revert l. induction n as [|n IH]; intros l Hn; simpl.
  - destruct (activeRequests l >=? maxConcurrent l); [|discriminate].
    by intros [= <- <-].
  - destruct (activeRequests l >=? maxConcurrent l); [|discriminate].
    intros Hw. apply IH in Hw as [-> ->]; [|lia].
    split; [done|]. by replace (101 - n)%nat with (S (100 - n)) by lia.
Qed.

Lemma waitForSlot_returns (n attempts : nat) (l l' : RequestLimiter) :
  (n ≤ 101)%nat →
  waitForSlot sched n l = (Return attempts, l') →
  activeRequests l' < maxConcurrent l'
  ∧ (101 - n ≤ attempts ≤ 101)%nat
  ∧ l' = others_only sched (101 - n) (attempts - (101 - n)) l.
Proof.
  revert l. induction n as [|n IH]; intros l Hn; simpl.
  - destruct (activeRequests l >=? maxConcurrent l) eqn:Hfull; [discriminate|].
    intros [= <- <-]. split_and!; [lia|lia|lia|]. by rewrite Nat.sub_diag.
  - destruct (activeRequests l >=? maxConcurrent l) eqn:Hfull.
    + intros Hw. apply IH in Hw as (Hfree & Hrange & ->); [|lia].
      split_and!; [done|lia|lia|].
      replace (101 - n)%nat with (S (100 - n)) by lia.
      replace (attempts - (100 - n))%nat with (S (attempts - S (100 - n))) by lia.
      done.
    + intros [= <- <-]. split_and!; [lia|lia|lia|]. by rewrite Nat.sub_diag.
Qed.

Lemma others_only_idle (k n : nat) (l : RequestLimiter) :
  (∀ j x, others_during sched j x = x) → others_only sched k n l = l.
Proof.
  intros Hidle. revert k l. induction n as [|n IH]; intros k l; simpl; [done|].
  by rewrite Hidle, IH.
Qed.

(** A rejected admission, case by case. *)
Lemma acquire_rejected (clientId : string) (l l' : RequestLimiter) (e : McpError) :
  acquire sched clientId l = (Throw e, l') →
  (checkRateLimit (now_after sched 0) clientId l = false
   ∧ e = rateLimitExceeded l ∧ l' = l)
  ∨ (checkRateLimit (now_after sched 0) clientId l = true
     ∧ e = serverTooBusy ∧ l' = others_only sched 0 101 l).
Proof.
  unfold acquire.
  destruct (checkRateLimit (now_after sched 0) clientId l) eqn:Hrate; cbn [negb].
  - destruct (waitForSlot sched 101 l) as [[a|e'] l1] eqn:Hw; [discriminate|].
    intros [= <- <-]. right.
    apply waitForSlot_throws in Hw as [-> ->]; [|lia]. done.
  - intros [= <- <-]. by left.
Qed.

(** An admission that succeeds takes one slot and records one request. *)
Lemma acquire_resolved (clientId : string) (l l' : RequestLimiter) :
  acquire sched clientId l = (Return (), l') →
  ∃ attempts l1,
    l1 = others_only sched 0 attempts l
    ∧ activeRequests l1 < maxConcurrent l1
    ∧ activeRequests l' = activeRequests l1 + 1
    ∧ l' = recordRequest (now_after sched attempts) clientId
             (set_activeRequests (activeRequests l1 + 1) l1).
Proof.
  unfold acquire.
  destruct (checkRateLimit (now_after sched 0) clientId l); cbn [negb];
    [|discriminate].
  destruct (waitForSlot sched 101 l) as [[a|e'] l1] eqn:Hw; [|discriminate].
  intros [= <-]. apply waitForSlot_returns in Hw as (Hfree & Hrange & Hl1); [|lia].
  exists a, l1. rewrite Nat.sub_0_r in Hl1. done.
Qed.

End LimiterFacts.

(** C9. A call of [acquire] that fails, on the rate window or on the
    bounded wait for a slot, writes nothing to the limiter: the limiter it
    leaves is the one it found, changed only by what the other tasks did
    while the call slept; when they do nothing, [activeRequests] and
    [requestHistory] are what they were, so the rejected request is not
    recorded against the window. *)
Theorem C9_failed_acquire_leaves_limiter (sched : Schedule) (clientId : string)
    (l l' : RequestLimiter) (e : McpError) :
  acquire sched clientId l = (Throw e, l') →
  (∃ sleeps, (sleeps ≤ 101)%nat ∧ l' = others_only sched 0 sleeps l)
  ∧ ((∀ k x, others_during sched k x = x) →
     activeRequests l' = activeRequests l
     ∧ requestHistory l' = requestHistory l).
Proof.
  intros [(_ & _ & ->)|(_ & _ & ->)]%acquire_rejected.
  - split; [exists 0%nat; split; [lia|done]|done].
  - split; [exists 101%nat; split; [lia|done]|].
    intros Hidle. by rewrite others_only_idle.
Qed.

(** C9 when all ten slots stay taken: the call gives up as busy and the
    limiter is as it was. *)
Lemma C9_failed_acquire_leaves_limiter_witness :
  acquire (quiet 2000) "default" fullLimiter = (Throw serverTooBusy, fullLimiter)
  ∧ (∃ sleeps, (sleeps ≤ 101)%nat
               ∧ fullLimiter = others_only (quiet 2000) 0 sleeps fullLimiter)
  ∧ ((∀ k x, others_during (quiet 2000) k x = x) →
     activeRequests fullLimiter = activeRequests fullLimiter
     ∧ requestHistory fullLimiter = requestHistory fullLimiter).
Proof.
  split; [vm_compute; reflexivity|].
  apply (C9_failed_acquire_leaves_limiter (quiet 2000) "default"
           fullLimiter fullLimiter serverTooBusy).
  vm_compute. reflexivity.
Defined.

(** The rate window rejects the hundred-and-first request at once. *)
Lemma acquire_rate_limited :
  acquire (quiet 2000) "default" saturatedLimiter
  = (Throw (rateLimitExceeded saturatedLimiter), saturatedLimiter).
Proof. vm_compute. reflexivity. Qed.

(** A free limiter admits the call, takes a slot and records the time. *)
Lemma acquire_admits :
  acquire (quiet 2000) "default" newRequestLimiter
  = (Return (), {| activeRequests := 1;
                   maxConcurrent := 10;
                   requestHistory := {[ "default" := [2000] ]};
                   maxRequestsPerWindow := 100;
                   windowMs := 60000 |}).
Proof. vm_compute. reflexivity. Qed.

(** ** The response normalizer: properties *)

Lemma trimToLimit_step (limit : Z) (tr : jsstring) (cs : Z) :
  trimToLimit limit tr cs
  = if (cs >? limit) && negb (bool_decide (tr = []))
    then trimToLimit limit (slice_drop_last tr)
                     (Buffer_byteLength (slice_drop_last tr))
    else (tr, cs).
Proof.
  funelim (trimToLimit limit tr cs);
    match goal with H : (_ >? _) = _ |- _ => rewrite H end;
    by case_bool_decide.
Qed.

(** The loop stops at the longest prefix, counted in code units, that fits
    in the limit, or at the empty string. *)
Lemma trimToLimit_prefix (limit : Z) (s : jsstring) :
  ∃ k, (k ≤ length s)%nat
       ∧ trimToLimit limit s (Buffer_byteLength s)
         = (take k s, Buffer_byteLength (take k s))
       ∧ (Buffer_byteLength (take k s) ≤ limit ∨ k = 0%nat)
       ∧ ∀ j, (k < j ≤ length s)%nat → limit < Buffer_byteLength (take j s).
Proof.
  induction s as [|x s IH] using rev_ind.
  - exists 0%nat. rewrite trimToLimit_step. simpl.
    rewrite andb_false_r. split_and!; [done|done|by right|].
    intros j Hj. simpl in Hj. lia.
  - rewrite trimToLimit_step.
    case_bool_decide as Hnil; [by destruct s|].
    cbn [negb]. rewrite andb_true_r.
    unfold slice_drop_last. rewrite removelast_last.
    destruct (Buffer_byteLength (s ++ [x]) >? limit) eqn:Hbig.
    + destruct IH as (k & Hk & Heq & Hfit & Hmax).
      exists k. rewrite length_app. simpl.
      rewrite take_app_le by done.
      split_and!; [lia|done|done|].
      intros j Hj. destruct (decide (j ≤ length s)%nat) as [Hle|Hgt].
      * rewrite take_app_le by done. apply Hmax. lia.
      * rewrite take_ge by (rewrite length_app; simpl; lia). lia.
    + exists (length (s ++ [x])). rewrite firstn_all.
      split_and!; [done|done|left; lia|]. intros j Hj. lia.
Qed.

Lemma trimToLimit_longest_prefix (limit : Z) (s : jsstring) :
  0 ≤ limit →
  ∃ k, (k ≤ length s)%nat
       ∧ trimToLimit limit s (Buffer_byteLength s)
         = (take k s, Buffer_byteLength (take k s))
       ∧ Buffer_byteLength (take k s) ≤ limit
       ∧ ∀ j, (k < j ≤ length s)%nat → limit < Buffer_byteLength (take j s).
Proof.
  intros Hlimit.
  destruct (trimToLimit_prefix limit s) as (k & Hk & Heq & [Hfit| ->] & Hmax);
    exists k || exists 0%nat; split_and!; try done.
Qed.

(** A string without surrogates is encoded code unit by code unit. *)
Lemma utf8_encode_bmp (s : jsstring) :
  forallb (λ c, negb (is_surrogate c)) s = true →
  utf8_encode s = flat_map utf8_scalar s.
Proof.
  induction s as [|c s IH]; simpl; [done|].
  rewrite andb_true_iff, negb_true_iff. unfold is_surrogate.
  rewrite orb_false_iff. intros [[-> ->] Hs]. by rewrite IH.
Qed.

Lemma forallb_take {A} (p : A → bool) (k : nat) (l : list A) :
  forallb p l = true → forallb p (take k l) = true.
Proof.
  revert k. induction l as [|x l IH]; intros [|k]; simpl; try done.
  rewrite !andb_true_iff. intros [-> Hl]. split; [done|]. by apply IH.
Qed.

(** Cutting such a string between code units cuts its bytes between
    characters. *)
Lemma utf8_encode_take_bmp (k : nat) (s : jsstring) :
  forallb (λ c, negb (is_surrogate c)) s = true →
  utf8_encode (take k s) `prefix_of` utf8_encode s.
Proof.
  intros Hs. rewrite (utf8_encode_bmp s Hs).
  rewrite (utf8_encode_bmp (take k s)) by (by apply forallb_take).
  exists (flat_map utf8_scalar (drop k s)).
  by rewrite <- flat_map_app, take_drop.
Qed.

(** C2 as the specification words it fails on a body that is one
    character outside the Basic Multilingual Plane (U+1F600, four bytes,
    two code units) under a limit of three bytes: the loop removes the low
    surrogate only, and the lone high surrogate that is left measures
    three bytes, which are not the first three bytes of the original. *)
Lemma C2_surrogate_pair_is_split :
  ¬ truncation_as_claimed no_serializer 3 (JStr [0xD83D; 0xDE00]) freshValidation.
Proof.
  intros [_ Hcut].
  destruct Hcut as (t & Ht & _ & Hprefix & _); [vm_compute; reflexivity|].
  vm_compute in Ht. injection Ht as <-.
  vm_compute in Hprefix. destruct Hprefix as [k Hk]. discriminate Hk.
Qed.

(** What is returned for that body: the high surrogate alone, whose three
    bytes encode U+FFFD. *)
Lemma surrogate_pair_split_result :
  (checkBodySize no_serializer 3 (JStr [0xD83D; 0xDE00]) freshValidation).1
  = JStr [0xD83D]
  ∧ utf8_encode [0xD83D; 0xDE00] = [0xF0; 0x9F; 0x98; 0x80]
  ∧ utf8_encode [0xD83D] = [0xEF; 0xBF; 0xBD].
Proof. vm_compute. split_and!; reflexivity. Qed.

(** C2, amended. Within the limit the body and the validation record are
    returned as they are, so no [truncated] record appears. Over the limit
    the returned body is a prefix of the serialized body in UTF-16 code
    units, the longest one whose byte length fits; the record reports the
    original size, the byte length actually returned (twice) and the
    limit; and when the body holds no surrogate code unit, so that every
    character is one code unit, the returned bytes are the first bytes of
    the original and no character is split. *)
Theorem C2_truncation_by_code_units (JSON_stringify : jsval → jsstring)
    (limit : Z) (data : jsval) (v : ValidationResult) :
  0 ≤ limit →
  let s := bodyStr JSON_stringify data in
  let size := Buffer_byteLength s in
  let result := checkBodySize JSON_stringify limit data v in
  (size ≤ limit → result = (data, v))
  ∧ (size > limit →
     ∃ t, result.1 = JStr t
          ∧ t `prefix_of` s
          ∧ Buffer_byteLength t ≤ limit
          ∧ (∀ p, p `prefix_of` s → (length t < length p)%nat
                  → limit < Buffer_byteLength p)
          ∧ truncated result.2
            = Some {| originalSize := size;
                      returnedSize := Buffer_byteLength t;
                      truncationPoint := Buffer_byteLength t;
                      sizeLimit := limit |}
          ∧ (forallb (λ c, negb (is_surrogate c)) s = true
             → utf8_encode t `prefix_of` utf8_encode s)).
Proof.
  intros Hlimit s size result. subst result. unfold checkBodySize.
  fold s. fold size. split.
  - intros Hfit. rewrite Z.gtb_ltb. by rewrite (proj2 (Z.ltb_ge limit size)).
  - intros Hover.
    rewrite Z.gtb_ltb. rewrite (proj2 (Z.ltb_lt limit size)) by lia.
    destruct (trimToLimit_longest_prefix limit s Hlimit)
      as (k & Hk & Heq & Hfit & Hmax).
    fold size in Heq. rewrite Heq. cbn [fst snd truncated].
    exists (take k s). split_and!; try done.
    + apply prefix_take.
    + intros p [q Hq] Hlen.
      assert (Hp : p = take (length p) s).
      { rewrite Hq. by rewrite take_app_length. }
      pose proof (f_equal length Hq) as Hl. rewrite length_app in Hl.
      rewrite Hp. apply Hmax. rewrite length_take in Hlen. lia.
    + intros Hbmp. by apply utf8_encode_take_bmp.
Qed.

(** C2 on sixteen ASCII bytes under a limit of ten. *)
Lemma C2_truncation_by_code_units_witness :
  let result := checkBodySize no_serializer 10 (JStr (of_ascii "0123456789ABCDEF"))
                              freshValidation in
  result.1 = JStr (of_ascii "0123456789")
  ∧ truncated result.2
    = Some {| originalSize := 16; returnedSize := 10; truncationPoint := 10;
              sizeLimit := 10 |}
  ∧ ∃ t, result.1 = JStr t ∧ Buffer_byteLength t ≤ 10.
Proof.
  split_and!; [vm_compute; reflexivity | vm_compute; reflexivity |].
  destruct (C2_truncation_by_code_units no_serializer 10
              (JStr (of_ascii "0123456789ABCDEF")) freshValidation)
    as [_ Hover]; [lia|].
  destruct Hover as (t & Ht & _ & Hfit & _); [vm_compute; reflexivity|].
  exists t. split; [exact Ht | exact Hfit].
Defined.

(** A three-byte character of the Basic Multilingual Plane is removed
    whole: with [a], U+20AC and a limit of three bytes only [a] is left. *)
Lemma truncation_keeps_bmp_characters_whole :
  (checkBodySize no_serializer 3 (JStr [0x61; 0x20AC]) freshValidation).1
  = JStr [0x61].
Proof. vm_compute. reflexivity. Qed.

(** The older variant cuts at [limit] code units and reports [limit] as
    the returned size: three two-byte characters under a limit of four
    bytes come back whole, six bytes long. *)
Lemma Variant_truncation_ignores_bytes :
  let result := Variant.checkBodySize no_serializer 4 (JStr [0xE9; 0xE9; 0xE9])
                                      freshValidation in
  result.1 = JStr [0xE9; 0xE9; 0xE9]
  ∧ Buffer_byteLength [0xE9; 0xE9; 0xE9] = 6
  ∧ (returnedSize <$> truncated result.2) = Some 4.
Proof. vm_compute. split_and!; reflexivity. Qed.

(** ** The tool surface: properties *)

(** Name the three results [buildEnvelope] is made of. *)
Ltac open_envelope :=
  unfold buildEnvelope;
  match goal with
  | |- context [envelopeHeaders ?e ?c ?a ?k] =>
      destruct (envelopeHeaders e c a k) as [reqHeaders cache2]
  end;
  match goal with
  | |- context [sanitizeHeaders ?e ?h false ?k] =>
      destruct (sanitizeHeaders e h false k) as [respHeaders cache3]
  end;
  match goal with
  | |- context [checkBodySize ?f ?l ?d ?v] =>
      destruct (checkBodySize f l d v) as [body' v']
  end.

Section HandlerFacts.
Context (JSON_stringify : jsval → jsstring).
Context (McpError_message : McpError → string).
Context (env : Env) (out : Outside).

(** The body and the validation record of the envelope are those of the
    size check. *)
Lemma buildEnvelope_size_check (config : AxiosRequestConfig) (args : EndpointArgs)
    (resp : AxiosResponse) (cache : Cache) :
  let r := (buildEnvelope JSON_stringify env out config args resp cache).1 in
  (response_body (response r), validation r)
  = checkBodySize JSON_stringify (RESPONSE_SIZE_LIMIT env) (data resp)
      {| isError := status resp >=? 400;
         messages := if status resp >=? 400
                     then ["Request failed with status " +:+ pretty (status resp)]
                     else ["Request completed successfully"];
         truncated := None |}.
Proof. by open_envelope. Qed.

(** The envelope reports the mode whose header the request carries. *)
Lemma buildEnvelope_authMethod (config : AxiosRequestConfig) (args : EndpointArgs)
    (resp : AxiosResponse) (cache : Cache) :
  authMethod (request (buildEnvelope JSON_stringify env out config args resp cache).1)
  = Static.authMethod env.
Proof. by open_envelope. Qed.

Lemma onError_world (config : AxiosRequestConfig) (args : EndpointArgs)
    (error : Caught) (w : World) :
  let w' := (onError env config args error w).2 in
  limiter w' = release (limiter w)
  ∧ limiterCalls w' = limiterCalls w ++ [ReleaseCalled].
Proof.
  unfold onError. destruct error as [msg c st|msg]; simpl; [|done].
  by destruct (envelopeHeaders _ _ _ _).
Qed.

(** When admission succeeds the limiter is released once, whether the
    transport answers or throws. *)
Lemma tryRequest_admitted (config : AxiosRequestConfig) (args : EndpointArgs)
    (w : World) (l1 : RequestLimiter) :
  acquire (sched out) "default" (limiter w) = (Return (), l1) →
  let w' := (tryRequest JSON_stringify McpError_message env out config args w).2 in
  limiterCalls w' = limiterCalls w ++ [AcquireResolved; ReleaseCalled]
  ∧ limiter w' = release (others_during_request out l1).
Proof.
  intros Hacq. unfold tryRequest. rewrite Hacq.
  destruct (transport out config) as [error|resp].
  - destruct (onError_world config args error
                {| limiter := others_during_request out l1;
                   sanitizedHeadersCache :=
                     sanitizedHeadersCache (logCall AcquireResolved l1 w);
                   limiterCalls := limiterCalls (logCall AcquireResolved l1 w) |})
      as [Hl Hc].
    simpl in *. rewrite Hl, Hc. by rewrite <- app_assoc.
  - destruct (buildEnvelope _ _ _ _ _ _ _) as [r cache']. simpl.
    by rewrite <- app_assoc.
Qed.

(** When admission fails the [catch] block releases the limiter all the
    same. *)
Lemma tryRequest_rejected (config : AxiosRequestConfig) (args : EndpointArgs)
    (w : World) (l1 : RequestLimiter) (e : McpError) :
  acquire (sched out) "default" (limiter w) = (Throw e, l1) →
  let w' := (tryRequest JSON_stringify McpError_message env out config args w).2 in
  limiterCalls w' = limiterCalls w ++ [AcquireRejected; ReleaseCalled]
  ∧ limiter w' = release l1.
Proof.
  intros Hacq. unfold tryRequest. rewrite Hacq. simpl.
  by rewrite <- app_assoc.
Qed.

End HandlerFacts.

(** C10. In the envelope, a body over the size limit is replaced by a
    string that is a prefix of the body text, which for a body that is not
    a string is its JSON serialization; a body within the limit is the
    value the transport returned, of the type it had. *)
Theorem C10_truncated_body_is_string_prefix (JSON_stringify : jsval → jsstring)
    (env : Env) (out : Outside) (config : AxiosRequestConfig)
    (args : EndpointArgs) (resp : AxiosResponse) (cache : Cache) :
  let envelope := (buildEnvelope JSON_stringify env out config args resp cache).1 in
  let text := match data resp with
              | JStr s => s
              | other => JSON_stringify other
              end in
  if Buffer_byteLength text >? RESPONSE_SIZE_LIMIT env
  then ∃ t, response_body (response envelope) = JStr t ∧ t `prefix_of` text
  else response_body (response envelope) = data resp.
Proof.
  intros envelope text.
  pose proof (buildEnvelope_size_check JSON_stringify env out config args resp cache)
    as Hcheck.
  cbv zeta in Hcheck. fold envelope in Hcheck.
  unfold checkBodySize in Hcheck.
  assert (Htext : bodyStr JSON_stringify (data resp) = text)
    by (subst text; by destruct (data resp)).
  rewrite Htext in Hcheck.
  destruct (Buffer_byteLength text >? RESPONSE_SIZE_LIMIT env).
  - destruct (trimToLimit_prefix (RESPONSE_SIZE_LIMIT env) text)
      as (k & _ & Heq & _).
    rewrite Heq in Hcheck. injection Hcheck as Hbody _.
    exists (take k text). split; [done|apply prefix_take].
  - by injection Hcheck as Hbody _.
Qed.

(** The object with the one field [a] equal to 1, seven bytes as JSON,
    comes back under a limit of three bytes as the three-character string
    that opens its JSON text, and untouched under a limit of seven. *)
Lemma truncated_object_becomes_string :
  let resp := okResponse (JObj [("a", JNum 1)]) in
  let envelope limit :=
    (buildEnvelope sampleSerializer (limitedConfig limit) (quietOutside (inr resp))
                   (buildConfig (limitedConfig limit) getUsers) getUsers resp ∅).1 in
  response_body (response (envelope 3)) = JStr [0x7B; 0x22; 0x61]
  ∧ response_body (response (envelope 7)) = JObj [("a", JNum 1)].
Proof. vm_compute. split; reflexivity. Qed.

(** C3, on the code. Ten calls are in flight and none finishes during the
    bounded wait, so the admission of an eleventh call fails as busy; the
    handler's [catch] block then calls [release()] for it, and the count
    of active requests drops to nine while ten are still in flight. *)
Theorem C3_release_called_after_failed_acquire
    (URL_parse : string → option URL) (URL_set_pathname : string → string)
    (JSON_stringify : jsval → jsstring) (McpError_message : McpError → string)
    (answer : Caught + AxiosResponse) :
  let result :=
    callTool URL_parse URL_set_pathname JSON_stringify McpError_message
             acceptConfig (quietOutside answer) "test_request" getUsers
             (idleWorld fullLimiter) in
  acquire (quiet 2000) "default" fullLimiter = (Throw serverTooBusy, fullLimiter)
  ∧ result.1 = Return (GenericError "An error occurred while processing the request")
  ∧ limiterCalls result.2 = [AcquireRejected; ReleaseCalled]
  ∧ activeRequests fullLimiter = 10
  ∧ activeRequests (limiter result.2) = 9.
Proof. vm_compute. split_and!; reflexivity. Qed.

(** On the paths where admission succeeded there is one release for the
    one admission. *)
Lemma release_once_when_admitted (answer : Caught + AxiosResponse) :
  let result :=
    tryRequest sampleSerializer message acceptConfig (quietOutside answer)
               (buildConfig acceptConfig getUsers) getUsers
               (idleWorld newRequestLimiter) in
  limiterCalls result.2 = [AcquireResolved; ReleaseCalled]
  ∧ activeRequests (limiter result.2) = 0.
Proof.
  intros result.
  assert (Hacq : acquire (quiet 2000) "default" newRequestLimiter
                 = (Return (), recordRequest 2000 "default"
                                 (set_activeRequests 1 newRequestLimiter)))
    by (vm_compute; reflexivity).
  destruct (tryRequest_admitted sampleSerializer message acceptConfig
              (quietOutside answer) (buildConfig acceptConfig getUsers) getUsers
              (idleWorld newRequestLimiter) _ Hacq) as [Hc Hl].
  fold result in Hc, Hl. split; [done|]. by rewrite Hl.
Qed.

(** The stale cache entry of C4 seen from outside: after a call that
    overrides the configured [Accept] header, the envelope of a call that
    does not override it still shows the overriding value, although the
    request went out with the configured one. *)
Lemma stale_header_in_envelope
    (URL_parse : string → option URL) (URL_set_pathname : string → string) :
  let call args w :=
    callTool URL_parse URL_set_pathname sampleSerializer message acceptConfig
             (quietOutside (inr (okResponse JNull))) "test_request" args w in
  let overriding :=
    {| method := "GET"; endpoint := "/users"; body := None;
       headers := Some [("Accept", jstr "text/plain")]; host := None |} in
  let w1 := (call overriding (idleWorld newRequestLimiter)).2 in
  config_headers (buildConfig acceptConfig getUsers)
    = [("Accept", jstr "application/json")]
  ∧ ∃ r, (call getUsers w1).1 = Return (Envelope r)
         ∧ request_headers (request r) = [("Accept", jstr "text/plain")].
Proof. vm_compute. split; [reflexivity|]. eexists. split; reflexivity. Qed.

(** A base origin and no credentials: [GET /users] goes to the base origin
    followed by the path, and the envelope reports no authentication. *)
Lemma path_resolved_against_base_origin
    (URL_parse : string → option URL) (URL_set_pathname : string → string) :
  ∃ r, (callTool URL_parse URL_set_pathname sampleSerializer message
                 (limitedConfig 10000) (quietOutside (inr (okResponse JNull)))
                 "test_request" getUsers (idleWorld newRequestLimiter)).1
       = Return (Envelope r)
       ∧ url (request r) = "http://localhost:3000/users"
       ∧ authMethod (request r) = none
       ∧ isError (validation r) = false.
Proof. eexists. vm_compute. split_and!; reflexivity. Qed.

(** A host override ending in a slash is normalized and the path is
    appended to it. *)
Lemma host_override_normalized :
  ∃ args, isValidEndpointArgs sampleParser id acceptConfig
            {| method := "GET"; endpoint := "/users"; body := None;
               headers := None; host := Some "https://api.example.com/v1/" |}
          = Return (true, args)
          ∧ host args = Some "https://api.example.com/v1"
          ∧ resolveUrl acceptConfig args = "https://api.example.com/v1/users".
Proof. eexists. vm_compute. split_and!; reflexivity. Qed.

(** Any other tool name is refused before anything else happens. *)
Lemma unknown_tool_refused
    (URL_parse : string → option URL) (URL_set_pathname : string → string)
    (w : World) :
  callTool URL_parse URL_set_pathname sampleSerializer message acceptConfig
           (quietOutside (inr (okResponse JNull))) "other" getUsers w
  = (Throw {| code := MethodNotFound; message := "Unknown tool: other" |}, w).
Proof. reflexivity. Qed.

(** ** The authentication resolver: properties *)

(** The mode the priority order selects, read off the four tests of the
    chain. *)
Lemma selectedMode_chain (env : Env) :
  selectedMode env
  = if hasBasicAuth env then basic
    else if hasBearerAuth env then bearer
    else if hasApiKeyAuth env then apikey
    else if hasDynamicBearerAuth env then dynamic_bearer
    else none.
Proof.
  unfold selectedMode, priority, hasBasicAuth, hasBearerAuth, hasApiKeyAuth,
    hasDynamicBearerAuth.
  cbn [List.find configured].
  destruct (truthy (AUTH_BASIC_USERNAME env) && truthy (AUTH_BASIC_PASSWORD env));
    [done|].
  destruct (truthy (AUTH_BEARER env)); [done|].
  destruct (truthy (AUTH_APIKEY_HEADER_NAME env) && truthy (AUTH_APIKEY_VALUE env));
    [done|].
  by destruct (truthy (AUTH_TOKEN_MODULE env)).
Qed.

(** The chain of the variant defines the one header of the selected mode. *)
Lemma Dynamic_applyAuth_selected (env : Env) (token : string) (hs : object) :
  Dynamic.authMethod env = selectedMode env
  ∧ ((selectedMode env = none ∧ modeHeaders env token (selectedMode env) = []
      ∧ Dynamic.applyAuth env token hs = hs)
     ∨ (selectedMode env ≠ none
        ∧ ∃ k v, modeHeaders env token (selectedMode env) = [(k, v)]
                 ∧ Dynamic.applyAuth env token hs = obj_define k v hs)).
Proof.
  rewrite selectedMode_chain. unfold Dynamic.authMethod, Dynamic.applyAuth.
  destruct (hasBasicAuth env); [split; [done|]; right; split; [done|by eexists _, _]|].
  destruct (hasBearerAuth env); [split; [done|]; right; split; [done|by eexists _, _]|].
  destruct (hasApiKeyAuth env); [split; [done|]; right; split; [done|by eexists _, _]|].
  destruct (hasDynamicBearerAuth env);
    [split; [done|]; right; split; [done|by eexists _, _]|].
  split; [done|]. by left.
Qed.

(** The chain of src/index.ts assigns the one header of the selected mode
    when no token module is configured. *)
Lemma Static_applyAuth_selected (env : Env) (token : string) (hs : object) :
  hasDynamicBearerAuth env = false →
  Static.authMethod env = selectedMode env
  ∧ ((selectedMode env = none ∧ modeHeaders env token (selectedMode env) = []
      ∧ Static.applyAuth env hs = hs)
     ∨ (selectedMode env ≠ none
        ∧ ∃ k v, modeHeaders env token (selectedMode env) = [(k, v)]
                 ∧ Static.applyAuth env hs = obj_set k v hs)).
Proof.
  intros Hd. rewrite selectedMode_chain, Hd.
  unfold Static.authMethod, Static.applyAuth.
  destruct (hasBasicAuth env); [split; [done|]; right; split; [done|by eexists _, _]|].
  destruct (hasBearerAuth env); [split; [done|]; right; split; [done|by eexists _, _]|].
  destruct (hasApiKeyAuth env); [split; [done|]; right; split; [done|by eexists _, _]|].
  split; [done|]. by left.
Qed.

Lemma selectedMode_configured (env : Env) : configured env (selectedMode env) = true.
Proof.
  unfold selectedMode, priority. cbn [List.find].
  destruct (configured env basic) eqn:Hb; [done|].
  destruct (configured env bearer) eqn:Hr; [done|].
  destruct (configured env apikey) eqn:Hk; [done|].
  by destruct (configured env dynamic_bearer) eqn:Hd.
Qed.

Lemma Variant_buildEnvelope_authMethod (JSON_stringify : jsval → jsstring)
    (env : Env) (startTime endTime : Z) (config : AxiosRequestConfig)
    (args : EndpointArgs) (resp : AxiosResponse) :
  authMethod (request (Variant.buildEnvelope JSON_stringify env startTime endTime
                                             config args resp))
  = Dynamic.authMethod env.
Proof. unfold Variant.buildEnvelope. by case_match. Qed.

(** C6, on the code. With the API key header named [__proto__] the
    priority order selects [apikey] and the envelope of src/index.ts
    reports [apikey], but the outgoing request carries no header of that
    mode: the assignment [config.headers[name] = value] reaches the setter
    of [Object.prototype] and adds nothing. The chain of the variant with
    the token provider, which builds the headers by spread, does add the
    header. *)
Theorem C6_apikey_named_proto_adds_nothing :
  selectedMode protoKeyConfig = apikey
  ∧ modeHeaders protoKeyConfig EmptyString apikey = [("__proto__", jstr "k1")]
  ∧ config_headers (buildConfig protoKeyConfig getUsers) = []
  ∧ (∃ r, (callTool sampleParser id sampleSerializer message
                    protoKeyConfig (quietOutside (inr (okResponse JNull)))
                    "test_request" getUsers (idleWorld newRequestLimiter)).1
          = Return (Envelope r)
          ∧ authMethod (request r) = apikey)
  ∧ Dynamic.applyAuth protoKeyConfig EmptyString [] = [("__proto__", jstr "k1")]
  ∧ ¬ auth_as_claimed sampleSerializer protoKeyConfig
        (quietOutside (inr (okResponse JNull))) getUsers (okResponse JNull).
Proof.
  split_and!; try reflexivity.
  - vm_compute. eexists. split; reflexivity.
  - intros [Hadded _].
    specialize (Hadded "__proto__" (jstr "k1")).
    vm_compute in Hadded. discriminate Hadded. apply list_elem_of_here.
Qed.

(** Apart from that name the resolver is the one the specification
    states. For every configuration the priority order basic, bearer,
    apikey, dynamic, none selects one mode, a configured one, and that
    mode has exactly one header unless it is [none]. In the variant with
    the token provider the outgoing headers hold that header with its
    value, every header of another name is as it was, and the envelope
    reports the selected mode. In src/index.ts, which has no token
    provider, the same holds when no token module is configured, except
    that a header named [__proto__] is not added: the headers are then
    left as they were. *)
Lemma one_mode_by_priority (JSON_stringify : jsval → jsstring) (env : Env)
    (token : string) (hs : object) (out : Outside) (startTime endTime : Z)
    (config : AxiosRequestConfig) (args : EndpointArgs) (resp : AxiosResponse)
    (cache : Cache) :
  let m := selectedMode env in
  let added := modeHeaders env token m in
  configured env m = true
  ∧ (m = none ∧ added = [] ∨ m ≠ none ∧ ∃ k v, added = [(k, v)])
  ∧ (∀ k v, (k, v) ∈ added →
       obj_get k (Dynamic.applyAuth env token hs) = Some v)
  ∧ (∀ k, k ∉ Object_keys added →
       obj_get k (Dynamic.applyAuth env token hs) = obj_get k hs)
  ∧ authMethod (request (Variant.buildEnvelope JSON_stringify env startTime endTime
                                               config args resp)) = m
  ∧ (hasDynamicBearerAuth env = false →
     (∀ k v, (k, v) ∈ added → k ≠ "__proto__" →
        obj_get k (Static.applyAuth env hs) = Some v)
     ∧ (∀ k, k ∉ Object_keys added →
          obj_get k (Static.applyAuth env hs) = obj_get k hs)
     ∧ ((∃ v, added = [("__proto__", v)]) → Static.applyAuth env hs = hs)
     ∧ authMethod (request (buildEnvelope JSON_stringify env out config args
                                          resp cache).1) = m).
Proof.
  intros m added. subst m added.
  destruct (Dynamic_applyAuth_selected env token hs) as [Hmode Hdyn].
  split_and!.
  - apply selectedMode_configured.
  - destruct Hdyn as [(Hm & Hadd & _)|(Hm & k & v & Hadd & _)];
      [by left|right; split; [done|by exists k, v]].
  - intros k v Hin.
    destruct Hdyn as [(_ & Hadd & _)|(_ & k0 & v0 & Hadd & Happly)];
      rewrite Hadd in Hin; [by apply elem_of_nil in Hin|].
    apply list_elem_of_singleton in Hin as [= -> ->].
    by rewrite Happly, obj_get_obj_define, String.eqb_refl.
  - intros k Hk.
    destruct Hdyn as [(_ & _ & Happly)|(_ & k0 & v0 & Hadd & Happly)];
      rewrite Happly; [done|].
    rewrite Hadd in Hk. simpl in Hk. apply not_elem_of_cons in Hk as [Hne _].
    rewrite obj_get_obj_define.
    by rewrite (proj2 (String.eqb_neq k0 k)) by done.
  - by rewrite Variant_buildEnvelope_authMethod.
  - intros Hd.
    destruct (Static_applyAuth_selected env token hs Hd) as [Hsmode Hst].
    split_and!.
    + intros k v Hin Hk.
      destruct Hst as [(_ & Hadd & _)|(_ & k0 & v0 & Hadd & Happly)];
        rewrite Hadd in Hin; [by apply elem_of_nil in Hin|].
      apply list_elem_of_singleton in Hin as [= -> ->].
      rewrite Happly, obj_get_obj_set, String.eqb_refl.
      by rewrite (proj2 (String.eqb_neq k0 "__proto__")) by done.
    + intros k Hk.
      destruct Hst as [(_ & _ & Happly)|(_ & k0 & v0 & Hadd & Happly)];
        rewrite Happly; [done|].
      rewrite Hadd in Hk. simpl in Hk. apply not_elem_of_cons in Hk as [Hne _].
      rewrite obj_get_obj_set.
      rewrite (proj2 (String.eqb_neq k0 k)) by done.
      by destruct (String.eqb k0 "__proto__").
    + intros [v Hv].
      destruct Hst as [(_ & _ & Happly)|(_ & k0 & v0 & Hadd & Happly)]; [done|].
      rewrite Hadd in Hv. injection Hv as -> ->. by rewrite Happly.
    + by rewrite buildEnvelope_authMethod.
Qed.

(** With [admin] and [secret] configured, on headers that hold an
    [Authorization] of their own. *)
Lemma one_mode_by_priority_example :
  selectedMode basicConfig = basic
  ∧ obj_get "Authorization"
      (Static.applyAuth basicConfig [("Authorization", jstr "mine")])
    = Some (jstr "Basic YWRtaW46c2VjcmV0")
  ∧ obj_get "Authorization"
      (Dynamic.applyAuth basicConfig EmptyString [("Authorization", jstr "mine")])
    = Some (jstr "Basic YWRtaW46c2VjcmV0").
Proof.
  destruct (one_mode_by_priority sampleSerializer basicConfig EmptyString
              [("Authorization", jstr "mine")]
              (quietOutside (inr (okResponse JNull))) 0 1
              (buildConfig basicConfig getUsers) getUsers (okResponse JNull) ∅)
    as (_ & _ & Hdyn & _ & _ & Hst).
  destruct Hst as (Hst & _); [reflexivity|].
  split_and!; [reflexivity| |].
  - apply Hst; [vm_compute; apply list_elem_of_here|discriminate].
  - apply Hdyn. vm_compute. apply list_elem_of_here.
Qed.

(** The chain of src/index.ts is the same chain without its fourth
    branch: it agrees with the priority order whenever no token module is
    configured, and treats a configuration with only a token module as no
    authentication. *)
Lemma Static_chain_without_dynamic (env : Env) :
  Static.authMethod env
  = (if hasBasicAuth env || hasBearerAuth env || hasApiKeyAuth env
     then selectedMode env else none)
  ∧ (hasDynamicBearerAuth env = false → Static.authMethod env = selectedMode env).
Proof.
  rewrite selectedMode_chain. unfold Static.authMethod.
  destruct (hasBasicAuth env); [done|].
  destruct (hasBearerAuth env); [done|].
  destruct (hasApiKeyAuth env); [done|].
  split; [done|]. by intros ->.
Qed.

(** With [admin] and [secret] configured the request carries
    [Authorization: Basic YWRtaW46c2VjcmV0], whatever the call supplies,
    and the envelope shows the header redacted and the mode [basic]. *)
Lemma basic_auth_end_to_end
    (URL_parse : string → option URL) (URL_set_pathname : string → string) :
  let args := {| method := "GET"; endpoint := "/users"; body := None;
                 headers := Some [("Authorization", jstr "mine")]; host := None |} in
  config_headers (buildConfig basicConfig args)
    = [("Authorization", jstr "Basic YWRtaW46c2VjcmV0")]
  ∧ config_url (buildConfig basicConfig args) = "http://localhost:3000/users"
  ∧ ∃ r, (callTool URL_parse URL_set_pathname sampleSerializer message basicConfig
                   (quietOutside (inr (okResponse JNull))) "test_request" args
                   (idleWorld newRequestLimiter)).1 = Return (Envelope r)
         ∧ request_headers (request r) = [("Authorization", REDACTED)]
         ∧ authMethod (request r) = basic.
Proof.
  vm_compute. split_and!; [reflexivity|reflexivity|].
  eexists. split_and!; reflexivity.
Qed.

(** ** The token provider: properties *)

Section TokenProviderFacts.
Import TokenProvider.
Context (getJwtExpMs : string → option Z).

(** Without options a valid token is served from the cache. *)
Lemma getToken_start_cached (now : Z) (fresh : promise) (st : State) :
  isValid now st = true →
  getToken_start false None now fresh st = Cached (template (token st)).
Proof. intros Hv. unfold getToken_start. simpl. by rewrite Hv. Qed.

(** Without options a fresh token fills the cache. *)
Lemma getToken_resume_shared (t : string) (st : State) :
  getToken_resume getJwtExpMs None t st
  = (t, {| token := Some t; tokenExpiresAt := getJwtExpMs t;
           inflight := inflight st; tokenFn := tokenFn st |}).
Proof. reflexivity. Qed.

Lemma acquireToken_frame (tokenModule : string + (option object → string + string))
    (env : Env) (options : option object) (st : State) :
  let r := acquireToken tokenModule env options st in
  token r.2 = token st ∧ tokenExpiresAt r.2 = tokenExpiresAt st
  ∧ inflight r.2 = inflight st
  ∧ ∀ t, r.1 = inr t → ∃ fn, tokenModule = inr fn ∧ fn options = inr t.
Proof.
  unfold acquireToken.
  destruct (negb (truthy (AUTH_TOKEN_MODULE env))); [by split_and!|].
  destruct tokenModule as [e|fn]; [by split_and!|].
  destruct (fn options) as [e|t0] eqn:Hfn; [by split_and!|].
  destruct (String.eqb t0 EmptyString); [by split_and!|].
  simpl. split_and!; try done. intros t [= <-]. by exists fn.
Qed.

End TokenProviderFacts.

(** C7. A call of [getToken] that carries non-empty options never returns
    the cached token and never joins the acquisition in flight: it starts
    an acquisition of its own, registers no [finally] callback on
    [inflight], and when the token arrives stores nothing. Run to
    completion, the call leaves [token], [tokenExpiresAt] and [inflight]
    as they were, and the token it returns is the one the module produced
    for these options. *)
Theorem C7_per_call_options_bypass_cache
    (getJwtExpMs : string → option Z)
    (tokenModule : string + (option object → string + string))
    (env : Env) (forceRefresh : bool) (options : option object)
    (now : Z) (fresh : TokenProvider.promise) (joined : string + string)
    (st : TokenProvider.State) :
  TokenProvider.hasRequestOptions options = true →
  TokenProvider.getToken_start forceRefresh options now fresh st
    = TokenProvider.Acquiring fresh false st
  ∧ (∀ t st', TokenProvider.getToken_resume getJwtExpMs options t st' = (t, st'))
  ∧ let r := TokenProvider.getToken getJwtExpMs tokenModule env forceRefresh
                                    options now fresh joined st in
    TokenProvider.token r.2 = TokenProvider.token st
    ∧ TokenProvider.tokenExpiresAt r.2 = TokenProvider.tokenExpiresAt st
    ∧ TokenProvider.inflight r.2 = TokenProvider.inflight st
    ∧ ∀ t, r.1 = inr t → ∃ fn, tokenModule = inr fn ∧ fn options = inr t.
Proof.
  intros Hopt.
  assert (Hstart : TokenProvider.getToken_start forceRefresh options now fresh st
                   = TokenProvider.Acquiring fresh false st).
  { unfold TokenProvider.getToken_start. rewrite Hopt. cbn [negb].
    by rewrite !andb_false_r. }
  assert (Hresume : ∀ t st',
            TokenProvider.getToken_resume getJwtExpMs options t st' = (t, st')).
  { intros t st'. unfold TokenProvider.getToken_resume. by rewrite Hopt. }
  split_and!; [done|done|].
  unfold TokenProvider.getToken. rewrite Hstart.
  pose proof (acquireToken_frame tokenModule env options st) as Hframe.
  destruct (TokenProvider.acquireToken tokenModule env options st) as [res st2].
  cbn [fst snd] in Hframe. destruct Hframe as (Ht & He & Hi & Hfresh).
  destruct res as [e|t]; [by split_and!|].
  rewrite Hresume. cbn [fst snd]. by split_and!.
Qed.

(** C7 with a valid token cached and an acquisition in flight: a call
    with the option [tenant] gets the module's token; the same call
    without options gets the cached one. *)
Lemma C7_per_call_options_bypass_cache_witness :
  let options := Some [("tenant", jstr "a")] in
  let run o := TokenProvider.getToken (λ _, None) sampleModule moduleConfig false o
                                      1000 8%nat (inr "joined") cachedState in
  run options = (inr "fresh", cachedState)
  ∧ run None = (inr "cached", cachedState)
  ∧ TokenProvider.getToken_start false options 1000 8%nat cachedState
    = TokenProvider.Acquiring 8%nat false cachedState.
Proof.
  split_and!; [reflexivity | reflexivity |].
  apply (C7_per_call_options_bypass_cache (λ _, None) sampleModule moduleConfig
           false (Some [("tenant", jstr "a")]) 1000 8%nat (inr "joined") cachedState).
  reflexivity.
Defined.

(** ** More on the validator *)

Lemma string_filter_length (p : ascii → bool) (s : string) :
  (String.length (string_filter p s) ≤ String.length s)%nat.
Proof.
  induction s as [|c s IH]; simpl; [lia|]. destruct (p c); simpl; lia.
Qed.

Lemma string_filter_forallb (p : ascii → bool) (s : string) :
  string_forallb p (string_filter p s) = true.
Proof.
  induction s as [|c s IH]; simpl; [done|].
  destruct (p c) eqn:Hp; simpl; [by rewrite Hp|done].
Qed.

Lemma string_filter_id (p : ascii → bool) (s : string) :
  string_forallb p s = true → string_filter p s = s.
Proof.
  induction s as [|c s IH]; simpl; [done|].
  rewrite andb_true_iff. intros [-> Hs]. by rewrite IH.
Qed.

Lemma validateAndSanitizeInput_inv (input : string) (maxLength : Z)
    (allowedChars : option (string → bool)) (s : string) :
  validateAndSanitizeInput input maxLength allowedChars = Return s →
  Z.of_nat (String.length input) ≤ maxLength
  ∧ (∀ test, allowedChars = Some test → test input = true)
  ∧ s = string_filter (λ c, negb (is_control c)) input.
Proof.
  unfold validateAndSanitizeInput.
  destruct (Z.of_nat (String.length input) >? maxLength) eqn:Hlen; [discriminate|].
  destruct allowedChars as [test|].
  - destruct (test input) eqn:Ht; simpl; [|discriminate].
    intros [= <-]. split_and!; [lia| |done]. by intros ? [= <-].
  - intros [= <-]. split_and!; [lia|done|done].
Qed.

Lemma validateAndSanitizeInput_throws (input : string) (maxLength : Z)
    (allowedChars : option (string → bool)) (e : McpError) :
  validateAndSanitizeInput input maxLength allowedChars = Throw e →
  code e = InvalidParams.
Proof.
  unfold validateAndSanitizeInput.
  destruct (_ >? _); [by intros [= <-]|].
  destruct (match allowedChars with Some _ => _ | None => _ end);
    [by intros [= <-]|discriminate].
Qed.

(** X1. What [validateAndSanitizeInput] returns is within the length bound,
    free of the control characters it strips, passes the character test
    when one is given, and is the input itself when the input had no
    control character; validating the result again returns it unchanged. *)
Theorem X1_validated_input_is_clean (input : string) (maxLength : Z)
    (allowedChars : option (string → bool)) (s : string) :
  validateAndSanitizeInput input maxLength allowedChars = Return s →
  Z.of_nat (String.length s) ≤ maxLength
  ∧ string_forallb (λ c, negb (is_control c)) s = true
  ∧ (∀ test, allowedChars = Some test → test input = true)
  ∧ (string_forallb (λ c, negb (is_control c)) input = true → s = input)
  ∧ validateAndSanitizeInput s maxLength None = Return s.
Proof.
  intros (Hlen & Htest & ->)%validateAndSanitizeInput_inv.
  pose proof (string_filter_length (λ c, negb (is_control c)) input) as Hle.
  pose proof (string_filter_forallb (λ c, negb (is_control c)) input) as Hclean.
  split_and!; [lia|done|done|apply string_filter_id|].
  unfold validateAndSanitizeInput.
  rewrite Z.gtb_ltb, (proj2 (Z.ltb_ge _ _)) by lia.
  by rewrite string_filter_id.
Qed.

(** X1 on a text that starts with the bell character. *)
Lemma X1_validated_input_is_clean_witness :
  validateAndSanitizeInput bellText 10 None = Return "users"
  ∧ Z.of_nat (String.length "users") ≤ 10
  ∧ string_forallb (λ c, negb (is_control c)) "users" = true
  ∧ (∀ test : string → bool, None = Some test → test bellText = true)
  ∧ (string_forallb (λ c, negb (is_control c)) bellText = true → "users" = bellText)
  ∧ validateAndSanitizeInput "users" 10 None = Return "users".
Proof.
  split; [reflexivity|].
  apply (X1_validated_input_is_clean bellText 10 None "users"). reflexivity.
Defined.

Section ValidatorPostconditions.
Context (URL_parse : string → option URL) (URL_set_pathname : string → string).

Lemma validateHeaderEntries_throws (hs : object) (e : McpError) :
  validateHeaderEntries hs = Throw e → code e = InvalidParams.
Proof.
  induction hs as [|[key value] hs IH]; simpl; [discriminate|].
  destruct value; try (by intros [= <-]).
  destruct (validateAndSanitizeInput key 256 (Some header_name_chars))
    as [k|e'] eqn:Hk; simpl.
  - destruct (_ >? _); [by intros [= <-]|done].
  - intros [= <-]. by apply validateAndSanitizeInput_throws in Hk.
Qed.

Lemma validateHeaderEntries_inv (hs : object) :
  validateHeaderEntries hs = Return () →
  ∀ key value, (key, value) ∈ hs →
    header_name_chars key = true
    ∧ Z.of_nat (String.length key) ≤ 256
    ∧ ∃ s, value = JStr s ∧ Z.of_nat (length s) ≤ CONFIG.MAX_HEADER_VALUE_LENGTH.
Proof.
  induction hs as [|[k v] hs IH]; simpl; intros Hok key value Hin.
  - by apply elem_of_nil in Hin.
  - destruct v as [| | |s| |]; try discriminate.
    destruct (validateAndSanitizeInput k 256 (Some header_name_chars))
      as [k'|e'] eqn:Hk; simpl in Hok; [|discriminate].
    destruct (Z.of_nat (length s) >? CONFIG.MAX_HEADER_VALUE_LENGTH) eqn:Hv;
      [discriminate|].
    apply validateAndSanitizeInput_inv in Hk as (Hlen & Htest & _).
    apply elem_of_cons in Hin as [[= -> ->]|Hin]; [|by apply IH].
    split_and!; [by apply Htest|done|]. exists s. split; [done|lia].
Qed.

(** Every error of the validator is an InvalidParams error. *)
Lemma isValidEndpointArgs_throws (env : Env) (args : EndpointArgs) (e : McpError) :
  isValidEndpointArgs URL_parse URL_set_pathname env args = Throw e →
  code e = InvalidParams.
Proof.
  unfold isValidEndpointArgs.
  destruct (negb (set_has _ (method args))); [discriminate|].
  destruct (validateAndSanitizeInput (endpoint args) CONFIG.MAX_URL_LENGTH None)
    as [ep|e1] eqn:Hep; simpl;
    [|intros [= <-]; by apply validateAndSanitizeInput_throws in Hep].
  destruct (match headers args with Some _ => _ | None => _ end)
    as [[]|e2] eqn:Hhs; simpl.
  - destruct (negb (truthy (REST_BASE_URL env)) && negb (isFullUrl ep));
      [by intros [= <-]|].
    destruct (truthy (REST_BASE_URL env) && isFullUrl ep); [by intros [= <-]|].
    destruct (host args) as [h|]; [|discriminate].
    destruct (validateAndSanitizeInput h CONFIG.MAX_URL_LENGTH None)
      as [hi|e3] eqn:Hh; simpl;
      [|intros [= <-]; by apply validateAndSanitizeInput_throws in Hh].
    destruct (normalizeHost _ _ _ _); [discriminate|by intros [= <-]].
  - intros [= <-]. destruct (headers args) as [hs|]; [|discriminate].
    destruct (_ >? _); [by injection Hhs as <-|].
    by apply validateHeaderEntries_throws in Hhs.
Qed.

(** Everything an accepted call went through. *)
Lemma isValidEndpointArgs_accepts_inv (env : Env) (args args' : EndpointArgs) :
  isValidEndpointArgs URL_parse URL_set_pathname env args = Return (true, args') →
  set_has ["GET"; "POST"; "PUT"; "DELETE"; "PATCH"] (method args) = true
  ∧ validateAndSanitizeInput (endpoint args) CONFIG.MAX_URL_LENGTH None
    = Return (endpoint args')
  ∧ method args' = method args ∧ body args' = body args
  ∧ headers args' = headers args
  ∧ isFullUrl (endpoint args') = negb (truthy (REST_BASE_URL env))
  ∧ (∀ hs, headers args = Some hs →
       Z.of_nat (length hs) ≤ CONFIG.MAX_CUSTOM_HEADERS
       ∧ validateHeaderEntries hs = Return ())
  ∧ match host args with
    | None => host args' = None
    | Some h =>
        ∃ hostInput,
          validateAndSanitizeInput h CONFIG.MAX_URL_LENGTH None = Return hostInput
          ∧ normalizeHost URL_parse URL_set_pathname env hostInput = host args'
          ∧ is_Some (host args')
    end.
Proof.
  unfold isValidEndpointArgs.
  destruct (set_has _ (method args)) eqn:Hm; simpl; [|discriminate].
  destruct (validateAndSanitizeInput (endpoint args) CONFIG.MAX_URL_LENGTH None)
    as [ep|e1] eqn:Hep; simpl; [|discriminate].
  destruct (match headers args with Some _ => _ | None => _ end)
    as [[]|e2] eqn:Hhs; simpl; [|discriminate].
  assert (Hheaders : ∀ hs, headers args = Some hs →
            Z.of_nat (length hs) ≤ CONFIG.MAX_CUSTOM_HEADERS
            ∧ validateHeaderEntries hs = Return ()).
  { intros hs Heq. rewrite Heq in Hhs. unfold Object_keys in Hhs.
    rewrite length_map in Hhs.
    destruct (Z.of_nat (length hs) >? CONFIG.MAX_CUSTOM_HEADERS) eqn:Hc;
      [discriminate|]. split; [lia|done]. }
  destruct (truthy (REST_BASE_URL env)) eqn:Hbase;
    destruct (isFullUrl ep) eqn:Hfull; simpl; try discriminate.
  all: destruct (host args) as [h|] eqn:Hhost.
  all: try (intros [= <-]; simpl; by split_and!).
  all: destruct (validateAndSanitizeInput h CONFIG.MAX_URL_LENGTH None)
         as [hi|e3] eqn:Hh; simpl; [|discriminate].
  all: destruct (normalizeHost _ _ _ _) as [h'|] eqn:Hn; [|discriminate].
  all: intros [= <-]; simpl; split_and!; try done.
  all: exists hi; by split_and!.
Qed.

End ValidatorPostconditions.

(** X2. A call the validator accepts has one of the five methods, an
    endpoint of at most 2048 characters with no control character, and the
    URL shape the configuration requires: a full URL exactly when no base
    origin is configured. Method, body and headers are handed on as they
    came. *)
Theorem X2_accepted_call_shape
    (URL_parse : string → option URL) (URL_set_pathname : string → string)
    (env : Env) (args args' : EndpointArgs) :
  isValidEndpointArgs URL_parse URL_set_pathname env args = Return (true, args') →
  method args' ∈ ["GET"; "POST"; "PUT"; "DELETE"; "PATCH"]
  ∧ Z.of_nat (String.length (endpoint args')) ≤ 2048
  ∧ string_forallb (λ c, negb (is_control c)) (endpoint args') = true
  ∧ isFullUrl (endpoint args') = negb (truthy (REST_BASE_URL env))
  ∧ method args' = method args ∧ body args' = body args
  ∧ headers args' = headers args.
Proof.
  intros (Hm & Hep & Hmeth & Hbody & Hhs & Hshape & _)%isValidEndpointArgs_accepts_inv.
  apply validateAndSanitizeInput_inv in Hep as (Hlen & _ & Hep).
  pose proof (string_filter_length (λ c, negb (is_control c)) (endpoint args)).
  split_and!; try done.
  - rewrite Hmeth. by apply set_has_true_iff.
  - rewrite Hep. unfold CONFIG.MAX_URL_LENGTH in Hlen. lia.
  - rewrite Hep. apply string_filter_forallb.
Qed.

(** X2 on [GET /users] with a base origin configured. *)
Lemma X2_accepted_call_shape_witness :
  isValidEndpointArgs sampleParser id acceptConfig getUsers = Return (true, getUsers)
  ∧ isFullUrl (endpoint getUsers) = negb (truthy (REST_BASE_URL acceptConfig)).
Proof.
  split; [reflexivity|].
  apply (X2_accepted_call_shape sampleParser id acceptConfig getUsers getUsers).
  reflexivity.
Defined.

(** X3. A call the validator accepts carries at most 50 headers; each name
    is non-empty, at most 256 characters long and made of letters, digits,
    [_] and [-]; each value is a string of at most 8192 code units. *)
Theorem X3_accepted_headers_are_bounded
    (URL_parse : string → option URL) (URL_set_pathname : string → string)
    (env : Env) (args args' : EndpointArgs) (hs : object) :
  isValidEndpointArgs URL_parse URL_set_pathname env args = Return (true, args') →
  headers args' = Some hs →
  Z.of_nat (length hs) ≤ 50
  ∧ ∀ key value, (key, value) ∈ hs →
      header_name_chars key = true
      ∧ Z.of_nat (String.length key) ≤ 256
      ∧ ∃ s, value = JStr s ∧ Z.of_nat (length s) ≤ 8192.
Proof.
  intros (_ & _ & _ & _ & Hhs & _ & Hheaders & _)%isValidEndpointArgs_accepts_inv Heq.
  rewrite Hhs in Heq. destruct (Hheaders hs Heq) as [Hcount Hentries].
  split; [done|]. by apply validateHeaderEntries_inv.
Qed.

(** X3 on a call with one header. *)
Lemma X3_accepted_headers_are_bounded_witness :
  let args := {| method := "POST"; endpoint := "/users"; body := None;
                 headers := Some tracedHeaders; host := None |} in
  isValidEndpointArgs sampleParser id acceptConfig args = Return (true, args)
  ∧ Z.of_nat (length tracedHeaders) ≤ 50.
Proof.
  split; [reflexivity|].
  apply (X3_accepted_headers_are_bounded sampleParser id acceptConfig
           {| method := "POST"; endpoint := "/users"; body := None;
              headers := Some tracedHeaders; host := None |}
           {| method := "POST"; endpoint := "/users"; body := None;
              headers := Some tracedHeaders; host := None |} tracedHeaders);
    reflexivity.
Defined.

(** X4. An accepted host override parsed as a URL whose scheme is http or
    https; its host name is none of localhost, 127.0.0.1, 10.*, 192.168.*
    and 172.* unless the process runs in development mode or private
    networks are allowed; and the override is replaced by the origin
    followed by the path, the path without its trailing slashes when it
    is more than a slash and ends in one. *)
Theorem X4_accepted_host_is_public_http
    (URL_parse : string → option URL) (URL_set_pathname : string → string)
    (env : Env) (args args' : EndpointArgs) (h : string) :
  isValidEndpointArgs URL_parse URL_set_pathname env args = Return (true, args') →
  host args = Some h →
  ∃ hostInput url,
    validateAndSanitizeInput h CONFIG.MAX_URL_LENGTH None = Return hostInput
    ∧ URL_parse hostInput = Some url
    ∧ (protocol url = "http:" ∨ protocol url = "https:")
    ∧ (is_private_host (toLowerCase (hostname url)) = true →
       NODE_ENV env = Some "development" ∨ ALLOW_PRIVATE_NETWORKS env = Some "true")
    ∧ host args'
      = Some (origin url +:+
              (if ends_with_slash (pathname url) && negb (String.eqb (pathname url) "/")
               then URL_set_pathname (drop_trailing_slashes (pathname url))
               else pathname url)).
Proof.
  intros (_ & _ & _ & _ & _ & _ & _ & Hhost)%isValidEndpointArgs_accepts_inv Hh.
  rewrite Hh in Hhost. destruct Hhost as (hostInput & Hv & Hn & [h' Hh']).
  rewrite Hh' in Hn. unfold normalizeHost in Hn.
  destruct (URL_parse hostInput) as [url|] eqn:Hp; [|discriminate].
  exists hostInput, url.
  destruct (String.eqb (protocol url) "http:" || String.eqb (protocol url) "https:")
    eqn:Hproto; simpl in Hn; [|discriminate].
  destruct (is_private_host (toLowerCase (hostname url))
            && negb (bool_decide (NODE_ENV env = Some "development"))
            && negb (bool_decide (ALLOW_PRIVATE_NETWORKS env = Some "true")))
    eqn:Hprivate; [discriminate|].
  split_and!; [done|done| | |].
  - apply orb_true_iff in Hproto as [H|H]; apply String.eqb_eq in H; auto.
  - intros Hpriv. rewrite Hpriv in Hprivate. simpl in Hprivate.
    apply andb_false_iff in Hprivate as [H|H];
      apply negb_false_iff, bool_decide_eq_true in H; auto.
  - rewrite Hh'. by destruct (ends_with_slash (pathname url) && _).
Qed.

(** X4 on the override [https://api.example.com/v1/]. *)
Lemma X4_accepted_host_is_public_http_witness :
  let args := {| method := "GET"; endpoint := "/users"; body := None;
                 headers := None; host := Some "https://api.example.com/v1/" |} in
  let args' := {| method := "GET"; endpoint := "/users"; body := None;
                  headers := None; host := Some "https://api.example.com/v1" |} in
  isValidEndpointArgs sampleParser id acceptConfig args = Return (true, args')
  ∧ ∃ hostInput url,
      validateAndSanitizeInput "https://api.example.com/v1/" CONFIG.MAX_URL_LENGTH None
        = Return hostInput
      ∧ sampleParser hostInput = Some url
      ∧ (protocol url = "http:" ∨ protocol url = "https:").
Proof.
  split; [reflexivity|].
  destruct (X4_accepted_host_is_public_http sampleParser id acceptConfig
              {| method := "GET"; endpoint := "/users"; body := None;
                 headers := None; host := Some "https://api.example.com/v1/" |}
              {| method := "GET"; endpoint := "/users"; body := None;
                 headers := None; host := Some "https://api.example.com/v1" |}
              "https://api.example.com/v1/" eq_refl eq_refl)
    as (hostInput & url & Hv & Hp & Hproto & _).
  by exists hostInput, url.
Defined.

(** ** Objects and the merge of headers *)

Lemma customHeadersObject_keys (env : Env) :
  Object_keys (customHeadersObject env) = map fst (customHeaders env).
Proof. unfold Object_keys, customHeadersObject. rewrite map_map. by apply map_ext. Qed.

(** The chain of src/index.ts makes at most one assignment. *)
Lemma applyAuth_cases (env : Env) :
  (∀ hs, Static.applyAuth env hs = hs)
  ∨ ∃ k v, ∀ hs, Static.applyAuth env hs = obj_set k v hs.
Proof.
  unfold Static.applyAuth.
  destruct (hasBasicAuth env); [right; by eexists _, _|].
  destruct (hasBearerAuth env); [right; by eexists _, _|].
  destruct (hasApiKeyAuth env); [right; by eexists _, _|].
  by left.
Qed.

(** X5. The call's headers having string values, as the validator
    requires: in the headers of the outgoing request, the header written
    by the configured authentication has the configured value whatever
    the call supplies under that name; every other header the call
    supplies, unless it is named [__proto__], has the value of the call,
    also over a custom header of that name; a custom header that neither
    the call nor the authentication names has its configured value; and
    no header is named [__proto__], since every assignment under that
    name reaches the setter of [Object.prototype]. *)
Theorem X5_header_merge_priority (env : Env) (args : EndpointArgs) :
  NoDup (map fst (customHeaders env)) →
  NoDup (Object_keys (default [] (headers args))) →
  (∀ k v, (k, v) ∈ default [] (headers args) → ∃ s, v = JStr s) →
  let sent := config_headers (buildConfig env args) in
  let auth := Static.applyAuth env [] in
  (∀ k v, (k, v) ∈ auth → obj_get k sent = Some v)
  ∧ (∀ k v, (k, v) ∈ default [] (headers args) → k ∉ Object_keys auth →
       k ≠ "__proto__" → obj_get k sent = Some v)
  ∧ (∀ k v, (k, v) ∈ customHeaders env →
       k ∉ Object_keys (default [] (headers args)) → k ∉ Object_keys auth →
       k ≠ "__proto__" → obj_get k sent = Some (jstr v))
  ∧ obj_get "__proto__" sent = None.
Proof.
  intros Hcustom Hcall _ sent auth. subst sent auth.
  unfold buildConfig. cbn [config_headers].
  set (h0 := Object_assign [] (customHeadersObject env)).
  set (h1 := match headers args with Some hs => Object_assign h0 hs | None => h0 end).
  assert (Hcall_in : ∀ k v, (k, v) ∈ default [] (headers args) → k ≠ "__proto__" →
                            obj_get k h1 = Some v).
  { intros k v Hin Hk. subst h1. destruct (headers args) as [hs|]; simpl in *.
    - by apply obj_get_Object_assign_source.
    - by apply elem_of_nil in Hin. }
  assert (Hcustom_in : ∀ k v, (k, v) ∈ customHeaders env →
                              k ∉ Object_keys (default [] (headers args)) →
                              k ≠ "__proto__" →
                              obj_get k h1 = Some (jstr v)).
  { intros k v Hin Hk Hp.
    assert (Hh0 : obj_get k h0 = Some (jstr v)).
    { subst h0. apply obj_get_Object_assign_source; [| |done].
      - by rewrite customHeadersObject_keys.
      - unfold customHeadersObject. apply list_elem_of_fmap. by exists (k, v). }
    subst h1. destruct (headers args) as [hs|]; simpl in *; [|done].
    by rewrite obj_get_Object_assign_other. }
  assert (Hproto : obj_get "__proto__" h1 = None).
  { subst h1 h0. destruct (headers args) as [hs|];
      by rewrite !obj_get_Object_assign_proto. }
  destruct (applyAuth_cases env) as [Hnone|(ka & va & Hset)].
  - rewrite !Hnone. split_and!; [by intros k v ?%elem_of_nil|auto|auto|done].
  - rewrite !Hset. unfold obj_set at 1 3 5.
    destruct (String.eqb_spec ka "__proto__") as [->|Hka].
    + split_and!; [by intros k v ?%elem_of_nil| | |].
      * intros k v Hin _ Hk. rewrite obj_get_obj_set. by apply Hcall_in.
      * intros k v Hin Hk _ Hp. rewrite obj_get_obj_set. by apply Hcustom_in.
      * by rewrite obj_get_obj_set.
    + split_and!.
      * intros k v [= -> ->]%list_elem_of_singleton.
        rewrite obj_get_obj_set, String.eqb_refl.
        by rewrite (proj2 (String.eqb_neq ka "__proto__")) by done.
      * intros k v Hin Hk Hp. simpl in Hk. apply not_elem_of_cons in Hk as [Hne _].
        rewrite obj_get_obj_set.
        rewrite (proj2 (String.eqb_neq ka "__proto__")) by done.
        rewrite (proj2 (String.eqb_neq ka k)) by done. by apply Hcall_in.
      * intros k v Hin Hk Hkauth Hp. simpl in Hkauth.
        apply not_elem_of_cons in Hkauth as [Hne _].
        rewrite obj_get_obj_set.
        rewrite (proj2 (String.eqb_neq ka "__proto__")) by done.
        rewrite (proj2 (String.eqb_neq ka k)) by done. by apply Hcustom_in.
      * rewrite obj_get_obj_set.
        by rewrite (proj2 (String.eqb_neq ka "__proto__")) by done.
Qed.

(** X5 with basic authentication configured and a call that supplies its
    own [Authorization] header and a header named [__proto__]. *)
Lemma X5_header_merge_priority_witness :
  let args := {| method := "GET"; endpoint := "/users"; body := None;
                 headers := Some [("Authorization", jstr "mine");
                                  ("__proto__", jstr "x")];
                 host := None |} in
  obj_get "Authorization" (config_headers (buildConfig basicConfig args))
  = Some (jstr "Basic YWRtaW46c2VjcmV0")
  ∧ obj_get "__proto__" (config_headers (buildConfig basicConfig args)) = None.
Proof.
  destruct (X5_header_merge_priority basicConfig
              {| method := "GET"; endpoint := "/users"; body := None;
                 headers := Some [("Authorization", jstr "mine");
                                  ("__proto__", jstr "x")];
                 host := None |})
    as (Hauth & _ & _ & Hproto).
  - apply NoDup_nil_2.
  - apply NoDup_cons_2; [|apply NoDup_singleton].
    intros H%list_elem_of_singleton. discriminate H.
  - intros k v Hin. cbn in Hin.
    apply elem_of_cons in Hin as [[= -> ->]|Hin]; [by eexists|].
    apply list_elem_of_singleton in Hin as [= -> ->]. by eexists.
  - split; [|exact Hproto]. apply Hauth. vm_compute. apply list_elem_of_here.
Defined.

(** ** Redaction through the cache and the envelope *)

Lemma obj_set_redacts (k : string) (v : jsval) (o : object) :
  redacts_sensitive o →
  (set_has CONFIG.SENSITIVE_HEADERS (toLowerCase k) = true → v = REDACTED) →
  redacts_sensitive (obj_set k v o).
Proof.
  intros Ho Hv k0 v0 [Hin|[= -> ->]]%elem_of_obj_set Hs; [by apply (Ho k0)|auto].
Qed.

Lemma Object_assign_redacts (target source : object) :
  redacts_sensitive target → redacts_sensitive source →
  redacts_sensitive (Object_assign target source).
Proof.
  unfold Object_assign. revert target.
  induction source as [|[k v] source IH]; intros target Ht Hs; simpl; [done|].
  apply IH.
  - apply obj_set_redacts; [done|]. simpl. apply (Hs k v), list_elem_of_here.
  - intros k0 v0 Hin. apply (Hs k0 v0). by apply elem_of_cons; right.
Qed.

Lemma Object_spread_redacts (a b : object) :
  redacts_sensitive a → redacts_sensitive b →
  redacts_sensitive (Object_spread a b).
Proof.
  intros Ha Hb k v [Hin|Hin]%elem_of_Object_spread; [by apply Ha|by apply Hb].
Qed.

Lemma redacts_sensitive_nil : redacts_sensitive [].
Proof. by intros k v ?%elem_of_nil. Qed.

Section Redaction.
Context (env : Env).

Lemma sanitizeEntry_redacts (f : bool) (acc : object) (kv : string * jsval) :
  redacts_sensitive acc → redacts_sensitive (sanitizeEntry env f acc kv).
Proof.
  intros Hacc. destruct kv as [k v]. unfold sanitizeEntry.
  destruct (set_has CONFIG.SENSITIVE_HEADERS (toLowerCase k)) eqn:Hs.
  { by apply obj_set_redacts. }
  destruct f; [apply obj_set_redacts; [done|by rewrite Hs]|].
  destruct (isAuthHeader env (toLowerCase k)); [by apply obj_set_redacts|].
  destruct (obj_in k (customHeaders env)); [|done].
  apply obj_set_redacts; [done|by rewrite Hs].
Qed.

Lemma sanitizeLoop_redacts (h : object) (f : bool) :
  redacts_sensitive (sanitizeLoop env h f).
Proof.
  unfold sanitizeLoop. generalize redacts_sensitive_nil.
  generalize (@nil (string * jsval)) as acc.
  induction h as [|kv h IH]; intros acc Hacc; simpl; [done|].
  apply IH. by apply sanitizeEntry_redacts.
Qed.

Lemma sanitizeHeaders_redacts (h : object) (f : bool) (cache : Cache) :
  cache_redacts cache →
  redacts_sensitive (sanitizeHeaders env h f cache).1
  ∧ cache_redacts (sanitizeHeaders env h f cache).2.
Proof.
  intros Hc. unfold sanitizeHeaders.
  destruct (if f then None else cache !! cacheKey h f) as [hit|] eqn:Hhit.
  - simpl. split; [|done]. destruct f; [discriminate|]. by apply (Hc _ _ Hhit).
  - destruct (negb f && (Z.of_nat (size cache) <? 100)); simpl;
      (split; [apply sanitizeLoop_redacts|]); [|done].
    intros key o. rewrite lookup_insert. case_decide.
    + intros [= <-]. apply sanitizeLoop_redacts.
    + apply Hc.
Qed.

Lemma envelopeHeaders_redacts (config : AxiosRequestConfig) (args : EndpointArgs)
    (cache : Cache) :
  cache_redacts cache →
  redacts_sensitive (envelopeHeaders env config args cache).1
  ∧ cache_redacts (envelopeHeaders env config args cache).2.
Proof.
  intros Hc. unfold envelopeHeaders.
  destruct (sanitizeHeaders_redacts (config_headers config) false cache Hc)
    as [Hm Hc1].
  destruct (sanitizeHeaders env (config_headers config) false cache)
    as [merged cache1]. simpl in Hm, Hc1.
  destruct (sanitizeHeaders_redacts (default [] (headers args)) true cache1 Hc1)
    as [Ho Hc2].
  destruct (sanitizeHeaders env (default [] (headers args)) true cache1)
    as [own cache2]. simpl in *.
  split; [|done].
  by apply Object_spread_redacts.
Qed.

Context (JSON_stringify : jsval → jsstring).
Context (McpError_message : McpError → string).
Context (out : Outside).

Lemma buildEnvelope_redacts (config : AxiosRequestConfig) (args : EndpointArgs)
    (resp : AxiosResponse) (cache : Cache) :
  cache_redacts cache →
  let r := buildEnvelope JSON_stringify env out config args resp cache in
  redacts_sensitive (request_headers (request r.1))
  ∧ redacts_sensitive (response_headers (response r.1))
  ∧ cache_redacts r.2.
Proof.
  intros Hc. unfold buildEnvelope.
  destruct (envelopeHeaders_redacts config args cache Hc) as [Hreq Hc2].
  destruct (envelopeHeaders env config args cache) as [reqHeaders cache2].
  simpl in Hreq, Hc2.
  destruct (sanitizeHeaders_redacts (headers_received resp) false cache2 Hc2)
    as [Hresp Hc3].
  destruct (sanitizeHeaders env (headers_received resp) false cache2)
    as [respHeaders cache3]. simpl in Hresp, Hc3.
  by destruct (checkBodySize _ _ _ _).
Qed.

Lemma onError_redacts (config : AxiosRequestConfig) (args : EndpointArgs)
    (error : Caught) (w : World) :
  cache_redacts (sanitizedHeadersCache w) →
  let r := onError env config args error w in
  Forall redacts_sensitive (shown_headers r.1)
  ∧ cache_redacts (sanitizedHeadersCache r.2).
Proof.
  intros Hc. unfold onError. destruct error as [msg c st|msg]; simpl.
  - destruct (envelopeHeaders_redacts config args (sanitizedHeadersCache w) Hc)
      as [Hh Hc'].
    destruct (envelopeHeaders env config args (sanitizedHeadersCache w))
      as [hs cache']. simpl in *. split; [|done]. by repeat constructor.
  - split; [constructor|done].
Qed.

Lemma tryRequest_redacts (config : AxiosRequestConfig) (args : EndpointArgs)
    (w : World) :
  cache_redacts (sanitizedHeadersCache w) →
  let r := tryRequest JSON_stringify McpError_message env out config args w in
  Forall redacts_sensitive (shown_headers r.1)
  ∧ cache_redacts (sanitizedHeadersCache r.2).
Proof.
  intros Hc. unfold tryRequest.
  destruct (acquire (sched out) "default" (limiter w)) as [[[]|e] l1].
  - destruct (transport out config) as [error|resp].
    + by apply onError_redacts.
    + destruct (buildEnvelope_redacts config args resp
                  (sanitizedHeadersCache (logCall ReleaseCalled
                     (release (others_during_request out l1))
                     (logCall AcquireResolved l1 w))) Hc) as (H1 & H2 & H3).
      destruct (buildEnvelope _ _ _ _ _ _ _) as [r cache']. simpl in *.
      split; [|done]. by repeat constructor.
  - by apply onError_redacts.
Qed.

End Redaction.

(** X6. Starting from a cache whose entries redact the sensitive headers,
    which the empty cache does, every result of the tool shows the
    redaction marker for each header whose lower-cased name is in the
    sensitive set, in the request headers, the response headers and the
    headers of an error envelope alike, and the cache it leaves redacts
    them too: neither the stale entries of the cache nor the headers of
    the call bring a sensitive value to light. *)
Theorem X6_sensitive_headers_never_shown
    (URL_parse : string → option URL) (URL_set_pathname : string → string)
    (JSON_stringify : jsval → jsstring) (McpError_message : McpError → string)
    (env : Env) (out : Outside) (name : string) (args : EndpointArgs) (w : World) :
  cache_redacts (sanitizedHeadersCache w) →
  let r := callTool URL_parse URL_set_pathname JSON_stringify McpError_message
                    env out name args w in
  cache_redacts (sanitizedHeadersCache r.2)
  ∧ ∀ result, r.1 = Return result →
      ∀ shown k v, shown ∈ shown_headers result → (k, v) ∈ shown →
        toLowerCase k ∈ CONFIG.SENSITIVE_HEADERS → v = REDACTED.
Proof.
  intros Hc. unfold callTool.
  destruct (negb (String.eqb name "test_request")); [by split|].
  destruct (isValidEndpointArgs _ _ _ _) as [[[] args']|e]; [|by split..].
  destruct (tryRequest_redacts env JSON_stringify McpError_message out
              (buildConfig env args') args' w Hc) as [Hshown Hc'].
  destruct (tryRequest _ _ _ _ _ _ _) as [res w']. simpl in *.
  split; [done|]. intros result [= <-] shown k v Hin Hkv Hs.
  rewrite Forall_forall in Hshown. apply (Hshown shown Hin k v Hkv).
  by apply set_has_true_iff.
Qed.

(** X6 on a call that supplies a cookie, from the empty cache. *)
Lemma X6_sensitive_headers_never_shown_witness :
  let args := {| method := "GET"; endpoint := "/users"; body := None;
                 headers := Some [("Cookie", jstr "sid=1")]; host := None |} in
  let r := callTool sampleParser id sampleSerializer message basicConfig
                    (quietOutside (inr (okResponse JNull))) "test_request" args
                    (idleWorld newRequestLimiter) in
  (∃ e, r.1 = Return (Envelope e)
        ∧ request_headers (request e)
          = [("Cookie", REDACTED); ("Authorization", REDACTED)])
  ∧ cache_redacts (sanitizedHeadersCache r.2).
Proof.
  split; [eexists; split; vm_compute; reflexivity|].
  apply (X6_sensitive_headers_never_shown sampleParser id sampleSerializer message
           basicConfig (quietOutside (inr (okResponse JNull))) "test_request"
           {| method := "GET"; endpoint := "/users"; body := None;
              headers := Some [("Cookie", jstr "sid=1")]; host := None |}
           (idleWorld newRequestLimiter)).
  intros key o Hlook. simpl in Hlook. by rewrite lookup_empty in Hlook.
Defined.

(** ** More on the tool surface *)

(** X7. The handler throws a protocol error only for an unknown tool name
    (MethodNotFound) or for arguments the validator refuses
    (InvalidParams), and then it has touched neither the limiter nor the
    cache: admission and transport failures are never thrown, they come
    back as results. *)
Theorem X7_protocol_errors_precede_admission
    (URL_parse : string → option URL) (URL_set_pathname : string → string)
    (JSON_stringify : jsval → jsstring) (McpError_message : McpError → string)
    (env : Env) (out : Outside) (name : string) (args : EndpointArgs)
    (w w' : World) (e : McpError) :
  callTool URL_parse URL_set_pathname JSON_stringify McpError_message
           env out name args w = (Throw e, w') →
  w' = w
  ∧ ((name ≠ "test_request" ∧ code e = MethodNotFound)
     ∨ (name = "test_request" ∧ code e = InvalidParams)).
Proof.
  unfold callTool. destruct (String.eqb_spec name "test_request") as [->|Hne]; simpl.
  - destruct (isValidEndpointArgs _ _ _ _) as [[[] args']|e'] eqn:Hv.
    + by destruct (tryRequest _ _ _ _ _ _ _).
    + intros [= <- <-]. split; [done|]. by right.
    + intros [= <- <-]. split; [done|]. right. split; [done|].
      by apply isValidEndpointArgs_throws in Hv.
  - intros [= <- <-]. split; [done|]. by left.
Qed.

(** X7 on a path sent without a base origin while the limiter is full. *)
Lemma X7_protocol_errors_precede_admission_witness :
  ∃ e, callTool sampleParser id sampleSerializer message noConfig
                (quietOutside (inr (okResponse JNull))) "test_request" getUsers
                (idleWorld fullLimiter) = (Throw e, idleWorld fullLimiter)
       ∧ code e = InvalidParams.
Proof.
  eexists. split; [reflexivity|].
  destruct (X7_protocol_errors_precede_admission sampleParser id sampleSerializer
              message noConfig (quietOutside (inr (okResponse JNull)))
              "test_request" getUsers (idleWorld fullLimiter) (idleWorld fullLimiter)
              _ eq_refl) as [_ [[Hne _]|[_ Hcode]]]; [done|exact Hcode].
Defined.

(** X8. In every envelope, [isError] says whether the status is 400 or
    more; the messages start with the status line; a [truncated] record
    is present exactly when the body text measures more than the limit,
    and then, and only then, one message about the truncation follows. *)
Theorem X8_envelope_validation_record (JSON_stringify : jsval → jsstring)
    (env : Env) (out : Outside) (config : AxiosRequestConfig)
    (args : EndpointArgs) (resp : AxiosResponse) (cache : Cache) :
  let v := validation (buildEnvelope JSON_stringify env out config args resp cache).1 in
  let statusLine := if status resp >=? 400
                    then "Request failed with status " +:+ pretty (status resp)
                    else "Request completed successfully" in
  isError v = (status resp >=? 400)
  ∧ (if Buffer_byteLength (bodyStr JSON_stringify (data resp)) >? RESPONSE_SIZE_LIMIT env
     then is_Some (truncated v) ∧ ∃ note, messages v = [statusLine; note]
     else truncated v = None ∧ messages v = [statusLine]).
Proof.
  intros v statusLine.
  pose proof (buildEnvelope_size_check JSON_stringify env out config args resp cache)
    as Hcheck.
  cbv zeta in Hcheck. apply (f_equal snd) in Hcheck. cbn [snd] in Hcheck.
  fold v in Hcheck. rewrite Hcheck. unfold checkBodySize.
  destruct (Buffer_byteLength _ >? RESPONSE_SIZE_LIMIT env).
  - destruct (trimToLimit _ _ _) as [t n]. cbn.
    split; [done|]. split; [by eexists|]. subst statusLine.
    destruct (status resp >=? 400); by eexists.
  - cbn. split; [done|]. split; [done|]. subst statusLine.
    by destruct (status resp >=? 400).
Qed.

Section MoreHandlerFacts.
Context (JSON_stringify : jsval → jsstring).
Context (McpError_message : McpError → string).
Context (env : Env) (out : Outside).

Lemma onError_production (config : AxiosRequestConfig) (args : EndpointArgs)
    (error : Caught) (w : World) :
  NODE_ENV env ≠ Some "development" →
  match (onError env config args error w).1 with
  | Envelope _ => False
  | ErrorEnvelope e =>
      error_message e = "Request failed"
      ∧ error_url e = "[URL REDACTED]"
      ∧ error_body e = Some (jstr "[BODY REDACTED]")
  | GenericError m => m = "An error occurred while processing the request"
  end.
Proof.
  intros Hprod. unfold onError, ENABLE_DETAILED_ERRORS.
  rewrite bool_decide_eq_false_2 by done.
  destruct error as [msg c st|msg]; [|done].
  by destruct (envelopeHeaders _ _ _ _).
Qed.

End MoreHandlerFacts.

(** X9. Outside development mode, a call that does not end in an envelope
    gives away nothing about the failure: an error envelope holds the
    fixed message and the URL and body markers in place of the message of
    the transport, the target and the request body, and any other failure,
    a refused admission included, is reported by one fixed sentence. An
    envelope only comes from an answer of the transport. *)
Theorem X9_production_errors_are_redacted (JSON_stringify : jsval → jsstring)
    (McpError_message : McpError → string) (env : Env) (out : Outside)
    (config : AxiosRequestConfig) (args : EndpointArgs) (w : World) :
  NODE_ENV env ≠ Some "development" →
  match (tryRequest JSON_stringify McpError_message env out config args w).1 with
  | Envelope _ => ∃ resp, transport out config = inr resp
  | ErrorEnvelope e =>
      error_message e = "Request failed"
      ∧ error_url e = "[URL REDACTED]"
      ∧ error_body e = Some (jstr "[BODY REDACTED]")
  | GenericError m => m = "An error occurred while processing the request"
  end.
Proof.
  intros Hprod. unfold tryRequest.
  destruct (acquire (sched out) "default" (limiter w)) as [[[]|e] l1].
  - destruct (transport out config) as [error|resp] eqn:Ht.
    + pose proof (onError_production env config args error
                    {| limiter := others_during_request out l1;
                       sanitizedHeadersCache :=
                         sanitizedHeadersCache (logCall AcquireResolved l1 w);
                       limiterCalls := limiterCalls (logCall AcquireResolved l1 w) |}
                    Hprod) as H.
      by destruct (onError _ _ _ _ _).1.
    + destruct (buildEnvelope _ _ _ _ _ _ _). simpl. by exists resp.
  - pose proof (onError_production env config args
                  (OtherError (McpError_message e)) (logCall AcquireRejected l1 w)
                  Hprod) as H.
    by destruct (onError _ _ _ _ _).1.
Qed.

(** X9 on a refused connection. *)
Lemma X9_production_errors_are_redacted_witness :
  (∃ e, (tryRequest sampleSerializer message acceptConfig
           (quietOutside (inl refusedConnection))
           (buildConfig acceptConfig getUsers) getUsers
           (idleWorld newRequestLimiter)).1 = ErrorEnvelope e
        ∧ error_code_of e = Some "ECONNREFUSED")
  ∧ match (tryRequest sampleSerializer message acceptConfig
             (quietOutside (inl refusedConnection))
             (buildConfig acceptConfig getUsers) getUsers
             (idleWorld newRequestLimiter)).1 with
    | Envelope _ => ∃ resp : AxiosResponse, inl refusedConnection = inr resp
    | ErrorEnvelope e =>
        error_message e = "Request failed"
        ∧ error_url e = "[URL REDACTED]"
        ∧ error_body e = Some (jstr "[BODY REDACTED]")
    | GenericError m => m = "An error occurred while processing the request"
    end.
Proof.
  split; [eexists; split; vm_compute; reflexivity|].
  apply (X9_production_errors_are_redacted sampleSerializer message acceptConfig
           (quietOutside (inl refusedConnection))
           (buildConfig acceptConfig getUsers) getUsers
           (idleWorld newRequestLimiter)).
  discriminate.
Defined.

(** ** More on the admission gate *)

Lemma filter_all {A} (p : A → bool) (l : list A) :
  (∀ x, x ∈ l → p x = true) → List.filter p l = l.
Proof.
  induction l as [|x l IH]; intros Hall; simpl; [done|].
  rewrite (Hall x) by apply list_elem_of_here. f_equal. apply IH.
  intros y Hy. apply Hall. by apply elem_of_cons; right.
Qed.

Lemma filter_none {A} (p : A → bool) (l : list A) :
  (∀ x, x ∈ l → p x = false) → List.filter p l = [].
Proof.
  induction l as [|x l IH]; intros Hall; simpl; [done|].
  rewrite (Hall x) by apply list_elem_of_here. apply IH.
  intros y Hy. apply Hall. by apply elem_of_cons; right.
Qed.

Lemma filter_filter_same {A} (p : A → bool) (l : list A) :
  List.filter p (List.filter p l) = List.filter p l.
Proof.
  apply filter_all. intros x Hx.
  by apply list_elem_of_In, List.filter_In in Hx as [_ Hx].
Qed.

(** Admission with nothing else running, when a slot is free. *)
Lemma acquire_quiet_free (now : Z) (clientId : string) (l : RequestLimiter) :
  checkRateLimit now clientId l = true →
  activeRequests l < maxConcurrent l →
  acquire (quiet now) clientId l
  = (Return (), recordRequest now clientId
                  (set_activeRequests (activeRequests l + 1) l)).
Proof.
  intros Hrate Hfree. unfold acquire. simpl. rewrite Hrate. simpl.
  replace (activeRequests l >=? maxConcurrent l) with false; [done|].
  symmetry. rewrite Z.geb_leb. apply Z.leb_gt. lia.
Qed.

(** X10. A successful [acquire] never takes the count of active requests
    above the concurrency maximum, whatever the other tasks did while it
    waited; and however many times [release] is called afterwards, the
    count stays between zero and that maximum. *)
Theorem X10_active_requests_stay_bounded (sched : Schedule) (clientId : string)
    (l l' : RequestLimiter) (n : nat) :
  acquire sched clientId l = (Return (), l') →
  0 ≤ maxConcurrent l' →
  activeRequests l' ≤ maxConcurrent l'
  ∧ activeRequests (Nat.iter n release l') ≤ maxConcurrent l'
  ∧ maxConcurrent (Nat.iter n release l') = maxConcurrent l'
  ∧ ((0 < n)%nat → 0 ≤ activeRequests (Nat.iter n release l')).
Proof.
  intros (attempts & l1 & _ & Hfree & Hactive & ->)%acquire_resolved Hmax.
  simpl in *. split; [lia|].
  induction n as [|n IH]; simpl; [split_and!; [lia|done|lia]|].
  destruct IH as (Hle & Hsame & _). rewrite Hsame. split_and!; lia.
Qed.

(** X10 on a free limiter, released twice. *)
Lemma X10_active_requests_stay_bounded_witness :
  let l' := (acquire (quiet 2000) "default" newRequestLimiter).2 in
  activeRequests l' = 1
  ∧ activeRequests (Nat.iter 2 release l') = 0
  ∧ activeRequests l' ≤ maxConcurrent l'.
Proof.
  split_and!; [reflexivity|reflexivity|].
  apply (X10_active_requests_stay_bounded (quiet 2000) "default" newRequestLimiter
           (acquire (quiet 2000) "default" newRequestLimiter).2 2);
    [vm_compute; reflexivity | vm_compute; discriminate].
Defined.

Lemma recorded_recordRequest (now : Z) (clientId : string) (l : RequestLimiter) :
  recorded clientId (recordRequest now clientId l)
  = List.filter (inWindow now (windowMs l)) (recorded clientId l ++ [now]).
Proof. unfold recorded, recordRequest. simpl. by rewrite lookup_insert_eq. Qed.

Lemma recorded_release (clientId : string) (l : RequestLimiter) :
  recorded clientId (release l) = recorded clientId l.
Proof. done. Qed.

Lemma recorded_set_activeRequests (clientId : string) (n : Z) (l : RequestLimiter) :
  recorded clientId (set_activeRequests n l) = recorded clientId l.
Proof. done. Qed.

Lemma checkRateLimit_recorded (now : Z) (clientId : string) (l : RequestLimiter) :
  checkRateLimit now clientId l
  = (Z.of_nat (length (List.filter (inWindow now (windowMs l)) (recorded clientId l)))
     <? maxRequestsPerWindow l).
Proof. done. Qed.

(** Serving calls whose instants all lie in one window records them all. *)
Lemma serveAll_within_window (t0 : Z) (times : list Z) (l : RequestLimiter) :
  activeRequests l = 0 → 0 < maxConcurrent l →
  (∀ t, t ∈ recorded "default" l ++ times → t0 ≤ t < t0 + windowMs l) →
  Z.of_nat (length (recorded "default" l ++ times)) ≤ maxRequestsPerWindow l →
  ∃ l', serveAll times l = Some l'
        ∧ activeRequests l' = 0
        ∧ maxConcurrent l' = maxConcurrent l
        ∧ windowMs l' = windowMs l
        ∧ maxRequestsPerWindow l' = maxRequestsPerWindow l
        ∧ recorded "default" l' = recorded "default" l ++ times.
Proof.
  revert l. induction times as [|t times IH]; intros l Hactive Hslots Hwin Hcount.
  - exists l. simpl. by rewrite app_nil_r.
  - simpl.
    assert (Hkeep : ∀ now, t0 ≤ now < t0 + windowMs l →
              List.filter (inWindow now (windowMs l)) (recorded "default" l)
              = recorded "default" l).
    { intros now Hnow. apply filter_all. intros x Hx. unfold inWindow.
      apply Z.ltb_lt. specialize (Hwin x). rewrite elem_of_app in Hwin.
      specialize (Hwin (or_introl Hx)). lia. }
    assert (Ht : t0 ≤ t < t0 + windowMs l).
    { apply Hwin. rewrite elem_of_app. right. apply list_elem_of_here. }
    rewrite acquire_quiet_free.
    + set (l1 := release (recordRequest t "default"
                           (set_activeRequests (activeRequests l + 1) l))).
      assert (Hrec : recorded "default" l1 = recorded "default" l ++ [t]).
      { subst l1. rewrite recorded_release, recorded_recordRequest.
        rewrite recorded_set_activeRequests. cbn [windowMs set_activeRequests].
        apply filter_all. intros x Hx. unfold inWindow. apply Z.ltb_lt.
        apply elem_of_app in Hx as [Hx|Hx];
          [|apply list_elem_of_singleton in Hx; subst x; lia].
        specialize (Hwin x). rewrite elem_of_app in Hwin.
        specialize (Hwin (or_introl Hx)). lia. }
      destruct (IH l1) as (l' & Hserve & Ha & Hm & Hw & Hr & Hrec').
      * subst l1. simpl. rewrite Hactive. reflexivity.
      * done.
      * intros x. rewrite Hrec, <- app_assoc. simpl. apply Hwin.
      * rewrite Hrec, <- app_assoc. simpl. done.
      * exists l'. rewrite Hrec, <- app_assoc in Hrec'. by split_and!.
    + rewrite checkRateLimit_recorded, Hkeep by done. apply Z.ltb_lt.
      rewrite length_app in Hcount. simpl in Hcount. lia.
    + lia.
Qed.

(** X11. From a limiter with no request recorded, calls that are served
    one after the other at instants lying in one window are all admitted
    as long as they are at most [maxRequestsPerWindow], and each is
    recorded; when exactly that many have been served, a further call at
    any instant of the window is refused for the rate limit and leaves the
    limiter as it is. *)
Theorem X11_window_admits_exactly_the_maximum (t0 now : Z) (times : list Z)
    (l : RequestLimiter) :
  recorded "default" l = [] → activeRequests l = 0 → 0 < maxConcurrent l →
  (∀ t, t ∈ times → t0 ≤ t < t0 + windowMs l) →
  t0 ≤ now < t0 + windowMs l →
  Z.of_nat (length times) ≤ maxRequestsPerWindow l →
  ∃ l', serveAll times l = Some l'
        ∧ recorded "default" l' = times
        ∧ activeRequests l' = 0
        ∧ (Z.of_nat (length times) = maxRequestsPerWindow l →
           ∀ sched, now_after sched 0 = now →
             acquire sched "default" l' = (Throw (rateLimitExceeded l'), l')).
Proof.
  intros Hempty Hactive Hslots Hwin Hnow Hcount.
  destruct (serveAll_within_window t0 times l) as (l' & Hserve & Ha & Hm & Hw & Hr & Hrec);
    try done.
  { rewrite Hempty. simpl. done. }
  { by rewrite Hempty. }
  rewrite Hempty in Hrec. simpl in Hrec.
  exists l'. split_and!; try done.
  intros Hfull sched Hsched.
  unfold acquire. rewrite Hsched, checkRateLimit_recorded, Hrec, Hw, Hr.
  rewrite filter_all.
  - by rewrite Hfull, Z.ltb_irrefl.
  - intros x Hx. apply Z.ltb_lt. specialize (Hwin x Hx). lia.
Qed.

(** X11 on a limiter that allows two requests per minute. *)
Lemma X11_window_admits_exactly_the_maximum_witness :
  ∃ l', serveAll [1000; 2000] twoPerMinute = Some l'
        ∧ recorded "default" l' = [1000; 2000]
        ∧ activeRequests l' = 0
        ∧ (Z.of_nat (length [1000; 2000]) = maxRequestsPerWindow twoPerMinute →
           ∀ sched, now_after sched 0 = 3000 →
             acquire sched "default" l' = (Throw (rateLimitExceeded l'), l')).
Proof.
  apply (X11_window_admits_exactly_the_maximum 1000 3000 [1000; 2000] twoPerMinute);
    try reflexivity; try (simpl; lia).
  intros t Ht. simpl.
  repeat (apply elem_of_cons in Ht as [->|Ht]; [lia|]).
  by apply elem_of_nil in Ht.
Defined.

(** X12. Once every request recorded for a client is a full window old,
    the client is admitted again, and recording the new request purges the
    old ones: the history of the client is the new instant alone. *)
Theorem X12_window_recovers (now : Z) (clientId : string) (l : RequestLimiter) :
  (∀ t, t ∈ recorded clientId l → windowMs l ≤ now - t) →
  0 < maxRequestsPerWindow l → 0 < windowMs l →
  activeRequests l < maxConcurrent l →
  ∃ l', acquire (quiet now) clientId l = (Return (), l')
        ∧ recorded clientId l' = [now]
        ∧ activeRequests l' = activeRequests l + 1.
Proof.
  intros Hold Hmax Hwin Hfree.
  assert (Hnone : List.filter (inWindow now (windowMs l)) (recorded clientId l) = []).
  { apply filter_none. intros x Hx. apply Z.ltb_ge. by apply Hold. }
  eexists. split; [apply acquire_quiet_free; [|done]|].
  - rewrite checkRateLimit_recorded, Hnone. simpl. by apply Z.ltb_lt.
  - rewrite recorded_recordRequest, recorded_set_activeRequests.
    cbn [windowMs set_activeRequests]. rewrite List.filter_app, Hnone. simpl.
    unfold inWindow. rewrite Z.sub_diag.
    by rewrite (proj2 (Z.ltb_lt 0 (windowMs l))).
Qed.

(** X12 on the saturated limiter, a minute and a second later. *)
Lemma X12_window_recovers_witness :
  ∃ l', acquire (quiet 62000) "default" saturatedLimiter = (Return (), l')
        ∧ recorded "default" l' = [62000]
        ∧ activeRequests l' = activeRequests saturatedLimiter + 1.
Proof.
  apply (X12_window_recovers 62000 "default" saturatedLimiter);
    try (simpl; unfold CONFIG.MAX_REQUESTS_PER_WINDOW, CONFIG.RATE_LIMIT_WINDOW,
           CONFIG.MAX_CONCURRENT_REQUESTS; lia).
  intros t Ht.
  assert (Hrec : recorded "default" saturatedLimiter = replicate 100 1000)
    by (vm_compute; reflexivity).
  rewrite Hrec in Ht. apply elem_of_replicate in Ht as [-> _].
  vm_compute. discriminate.
Defined.

Lemma recorded_cleanupHistory (now : Z) (clientId : string) (l : RequestLimiter) :
  recorded clientId (cleanupHistory now l)
  = List.filter (inWindow now (windowMs l)) (recorded clientId l).
Proof.
  unfold recorded, cleanupHistory. simpl. rewrite lookup_omap.
  destruct (requestHistory l !! clientId) as [ts|]; simpl; [|done].
  by destruct (List.filter (inWindow now (windowMs l)) ts).
Qed.

(** X13. The periodic sweep changes no admission decision made at the
    instant of the sweep; it leaves for each client only timestamps that
    are still in the window, never an empty list, and it does not touch
    the count of active requests. *)
Theorem X13_cleanup_keeps_decisions (now : Z) (l : RequestLimiter) :
  (∀ clientId, checkRateLimit now clientId (cleanupHistory now l)
               = checkRateLimit now clientId l)
  ∧ (∀ clientId ts, requestHistory (cleanupHistory now l) !! clientId = Some ts →
       ts ≠ [] ∧ ∀ t, t ∈ ts → now - t < windowMs l)
  ∧ activeRequests (cleanupHistory now l) = activeRequests l.
Proof.
  split_and!; [| |done].
  - intros c. rewrite !checkRateLimit_recorded, recorded_cleanupHistory.
    cbn [windowMs maxRequestsPerWindow cleanupHistory set_requestHistory].
    by rewrite filter_filter_same.
  - intros c ts. unfold cleanupHistory. simpl. rewrite lookup_omap.
    destruct (requestHistory l !! c) as [ts0|]; simpl; [|discriminate].
    destruct (List.filter (inWindow now (windowMs l)) ts0) as [|t ts'] eqn:Hf;
      [discriminate|].
    intros [= <-]. split; [done|]. intros x Hx. rewrite <- Hf in Hx.
    apply list_elem_of_In, List.filter_In in Hx as [_ Hx]. by apply Z.ltb_lt.
Qed.

Section Waiting.
Context (sched : Schedule).

Lemma waitForSlot_free_at (n k : nat) (l : RequestLimiter) :
  (n ≤ 101)%nat → (k ≤ n)%nat →
  (∀ j, (j < k)%nat →
     maxConcurrent (others_only sched (101 - n) j l)
     ≤ activeRequests (others_only sched (101 - n) j l)) →
  activeRequests (others_only sched (101 - n) k l)
  < maxConcurrent (others_only sched (101 - n) k l) →
  waitForSlot sched n l
  = (Return (101 - n + k)%nat, others_only sched (101 - n) k l).
Proof.
  revert k l. induction n as [|n IH]; intros k l Hn Hk Hfull Hfree.
  - assert (k = 0)%nat as -> by lia. simpl in *.
    rewrite Z.geb_leb, (proj2 (Z.leb_gt _ _)) by lia. done.
  - destruct k as [|k].
    + simpl in Hfree. cbn [waitForSlot].
      rewrite Z.geb_leb, (proj2 (Z.leb_gt _ _)) by lia.
      by rewrite Nat.add_0_r.
    + cbn [waitForSlot]. pose proof (Hfull 0%nat ltac:(lia)) as H0. simpl in H0.
      rewrite Z.geb_leb, (proj2 (Z.leb_le _ _)) by lia.
      replace (101 - n)%nat with (S (101 - S n)) in * by lia.
      rewrite (IH k).
      * simpl. f_equal. f_equal. lia.
      * lia.
      * lia.
      * intros j Hj. apply (Hfull (S j)). lia.
      * apply Hfree.
Qed.

Lemma waitForSlot_full (n : nat) (l : RequestLimiter) :
  (n ≤ 101)%nat →
  (∀ j, (j ≤ n)%nat →
     maxConcurrent (others_only sched (101 - n) j l)
     ≤ activeRequests (others_only sched (101 - n) j l)) →
  waitForSlot sched n l = (Throw serverTooBusy, others_only sched (101 - n) n l).
Proof.
  revert l. induction n as [|n IH]; intros l Hn Hfull.
  - pose proof (Hfull 0%nat ltac:(lia)) as H0. simpl in *.
    by rewrite Z.geb_leb, (proj2 (Z.leb_le _ _)) by lia.
  - cbn [waitForSlot]. pose proof (Hfull 0%nat ltac:(lia)) as H0. simpl in H0.
    rewrite Z.geb_leb, (proj2 (Z.leb_le _ _)) by lia.
    replace (101 - n)%nat with (S (101 - S n)) in * by lia.
    rewrite IH; [done|lia|].
    intros j Hj. apply (Hfull (S j)). lia.
Qed.

End Waiting.

(** X14. A call that passes the rate check and finds every slot taken is
    admitted as soon as a slot is free: if the limiter is full at each of
    its first [k] looks and has a free slot after [k] sleeps, [k] being at
    most 101, the call resolves after exactly [k] sleeps, takes the slot
    and records the instant at which it resumed. *)
Theorem X14_admitted_when_slot_frees (sched : Schedule) (clientId : string)
    (l : RequestLimiter) (k : nat) :
  checkRateLimit (now_after sched 0) clientId l = true →
  (k ≤ 101)%nat →
  (∀ j, (j < k)%nat →
     maxConcurrent (others_only sched 0 j l)
     ≤ activeRequests (others_only sched 0 j l)) →
  activeRequests (others_only sched 0 k l) < maxConcurrent (others_only sched 0 k l) →
  acquire sched clientId l
  = (Return (),
     recordRequest (now_after sched k) clientId
       (set_activeRequests (activeRequests (others_only sched 0 k l) + 1)
                           (others_only sched 0 k l))).
Proof.
  intros Hrate Hk Hfull Hfree. unfold acquire. rewrite Hrate. cbn [negb].
  by rewrite (waitForSlot_free_at sched 101 k l).
Qed.

(** X14 when one of ten calls in flight finishes during the fourth sleep. *)
Lemma X14_admitted_when_slot_frees_witness :
  (acquire (releaseDuring 3 2000) "default" fullLimiter).1 = Return ()
  ∧ activeRequests (acquire (releaseDuring 3 2000) "default" fullLimiter).2 = 10.
Proof.
  rewrite (X14_admitted_when_slot_frees (releaseDuring 3 2000) "default"
             fullLimiter 4).
  - split; reflexivity.
  - vm_compute. reflexivity.
  - lia.
  - intros j Hj. do 4 (destruct j as [|j]; [vm_compute; discriminate|]). lia.
  - vm_compute. reflexivity.
Defined.

(** X15. A call that passes the rate check and finds every slot taken at
    each of its 102 looks, 101 sleeps apart, fails as busy; it has then
    changed nothing itself. *)
Theorem X15_busy_after_bounded_wait (sched : Schedule) (clientId : string)
    (l : RequestLimiter) :
  checkRateLimit (now_after sched 0) clientId l = true →
  (∀ j, (j ≤ 101)%nat →
     maxConcurrent (others_only sched 0 j l)
     ≤ activeRequests (others_only sched 0 j l)) →
  acquire sched clientId l = (Throw serverTooBusy, others_only sched 0 101 l).
Proof.
  intros Hrate Hfull. unfold acquire. rewrite Hrate. cbn [negb].
  by rewrite (waitForSlot_full sched 101 l).
Qed.

(** X15 with ten calls in flight that never finish. *)
Lemma X15_busy_after_bounded_wait_witness :
  acquire (quiet 2000) "default" fullLimiter
  = (Throw serverTooBusy, others_only (quiet 2000) 0 101 fullLimiter).
Proof.
  apply (X15_busy_after_bounded_wait (quiet 2000) "default" fullLimiter).
  - vm_compute. reflexivity.
  - intros j _. rewrite others_only_idle by done. vm_compute. discriminate.
Defined.

(** ** The handler and the admission gate together *)

(** X16. While nothing else runs, a call that was admitted leaves the
    count of active requests as it found it, whether the transport
    answered or failed, and stays recorded in the history of the window. *)
Theorem X16_admitted_call_restores_count (JSON_stringify : jsval → jsstring)
    (McpError_message : McpError → string) (env : Env) (out : Outside)
    (config : AxiosRequestConfig) (args : EndpointArgs) (w : World)
    (l1 : RequestLimiter) :
  (∀ k x, others_during (sched out) k x = x) →
  (∀ x, others_during_request out x = x) →
  0 ≤ activeRequests (limiter w) → 0 < windowMs (limiter w) →
  acquire (sched out) "default" (limiter w) = (Return (), l1) →
  let w' := (tryRequest JSON_stringify McpError_message env out config args w).2 in
  activeRequests (limiter w') = activeRequests (limiter w)
  ∧ recorded "default" (limiter w') = recorded "default" l1
  ∧ ∃ sleeps, now_after (sched out) sleeps ∈ recorded "default" (limiter w').
Proof.
  intros Hidle Hidle' Hpos Hw Hacq w'.
  destruct (tryRequest_admitted JSON_stringify McpError_message env out config
              args w l1 Hacq) as [_ Hl].
  fold w' in Hl. rewrite Hl, Hidle'.
  apply acquire_resolved in Hacq as (attempts & l0 & Hl0 & Hfree & Hactive & Hl1).
  rewrite others_only_idle in Hl0 by done. subst l0.
  split_and!.
  - simpl. rewrite Hactive. lia.
  - done.
  - exists attempts.
    rewrite recorded_release, Hl1, recorded_recordRequest.
    cbn [windowMs set_activeRequests].
    rewrite List.filter_app. apply elem_of_app. right. simpl.
    unfold inWindow. rewrite Z.sub_diag.
    rewrite (proj2 (Z.ltb_lt 0 (windowMs (limiter w)))) by lia.
    apply list_elem_of_here.
Qed.

(** X16 on a call whose connection is refused. *)
Lemma X16_admitted_call_restores_count_witness :
  let w' := (tryRequest sampleSerializer message acceptConfig
               (quietOutside (inl refusedConnection))
               (buildConfig acceptConfig getUsers) getUsers
               (idleWorld newRequestLimiter)).2 in
  activeRequests (limiter w') = 0
  ∧ recorded "default" (limiter w') = [2000].
Proof.
  destruct (X16_admitted_call_restores_count sampleSerializer message acceptConfig
              (quietOutside (inl refusedConnection))
              (buildConfig acceptConfig getUsers) getUsers
              (idleWorld newRequestLimiter)
              (acquire (quiet 2000) "default" newRequestLimiter).2)
    as (Hactive & Hrec & _); [done|done|done|done|vm_compute; reflexivity|].
  split; [exact Hactive|]. rewrite Hrec. vm_compute. reflexivity.
Defined.

(** ** More on the token provider *)

Section TokenCache.
Import TokenProvider.
Context (getJwtExpMs : string → option Z).
Context (tokenModule : string + (option object → string + string)).

Lemma isValid_set_inflight (now : Z) (p : option promise) (st : State) :
  isValid now (set_inflight p st) = isValid now st.
Proof. done. Qed.

End TokenCache.

(** X17. A call of [getToken] without options that has to acquire a token,
    no acquisition being in flight, stores the token and the expiry read
    from it and leaves no acquisition in flight; afterwards a call without
    options and without forced refresh is answered from the cache exactly
    while the clock is more than 60 seconds before that expiry, and always
    when the token carries none. *)
Theorem X17_shared_token_is_cached
    (getJwtExpMs : string → option Z) (fn : option object → string + string)
    (env : Env) (forceRefresh : bool) (now : Z) (fresh : TokenProvider.promise)
    (joined : string + string) (st : TokenProvider.State) (t : string) :
  truthy (AUTH_TOKEN_MODULE env) = true →
  TokenProvider.inflight st = None →
  forceRefresh = true ∨ TokenProvider.isValid now st = false →
  fn None = inr t → t ≠ EmptyString →
  let r := TokenProvider.getToken getJwtExpMs (inr fn) env forceRefresh None
                                  now fresh joined st in
  r.1 = inr t
  ∧ TokenProvider.token r.2 = Some t
  ∧ TokenProvider.tokenExpiresAt r.2 = getJwtExpMs t
  ∧ TokenProvider.inflight r.2 = None
  ∧ ∀ now' fresh',
      TokenProvider.getToken_start false None now' fresh' r.2
      = if match getJwtExpMs t with
           | None => true
           | Some e => now' <? e - 60000
           end
        then TokenProvider.Cached t
        else TokenProvider.Acquiring fresh' true
               (TokenProvider.set_inflight (Some fresh') r.2).
Proof.
  intros Hmod Hinfl Hmust Hfn Ht r.
  assert (Hstart : TokenProvider.getToken_start forceRefresh None now fresh st
                   = TokenProvider.Acquiring fresh true
                       (TokenProvider.set_inflight (Some fresh) st)).
  { unfold TokenProvider.getToken_start. simpl. rewrite Hinfl.
    destruct Hmust as [->|Hv]; [done|]. rewrite Hv, andb_false_r.
    by destruct (negb forceRefresh && true). }
  assert (Hr : r = (inr t,
                    {| TokenProvider.token := Some t;
                       TokenProvider.tokenExpiresAt := getJwtExpMs t;
                       TokenProvider.inflight := None;
                       TokenProvider.tokenFn := true |})).
  { subst r. unfold TokenProvider.getToken. rewrite Hstart.
    unfold TokenProvider.acquireToken. rewrite Hmod. cbn [negb]. rewrite Hfn.
    by rewrite (proj2 (String.eqb_neq t EmptyString)). }
  rewrite Hr. cbn [fst snd]. split_and!; try done.
  intros now' fresh'. unfold TokenProvider.getToken_start, TokenProvider.isValid.
  cbn. rewrite (proj2 (String.eqb_neq t EmptyString)) by done. reflexivity.
Qed.

(** X17 on the first call of a process. *)
Lemma X17_shared_token_is_cached_witness :
  let r := TokenProvider.getToken (λ _, Some 1700000000000) (inr (λ _, inr "fresh"))
             moduleConfig false None 1000 1%nat (inr "joined") emptyState in
  r.1 = inr "fresh"
  ∧ TokenProvider.token r.2 = Some "fresh"
  ∧ TokenProvider.tokenExpiresAt r.2 = Some 1700000000000
  ∧ TokenProvider.inflight r.2 = None
  ∧ ∀ now' fresh',
      TokenProvider.getToken_start false None now' fresh' r.2
      = if now' <? 1700000000000 - 60000
        then TokenProvider.Cached "fresh"
        else TokenProvider.Acquiring fresh' true
               (TokenProvider.set_inflight (Some fresh') r.2).
Proof.
  apply (X17_shared_token_is_cached (λ _, Some 1700000000000) (λ _, inr "fresh")
           moduleConfig false 1000 1%nat (inr "joined") emptyState "fresh");
    try reflexivity; [by right|discriminate].
Defined.

(** X18. While a shared acquisition is in flight, every call without
    options and without forced refresh that finds no valid token joins
    that acquisition instead of starting one; a forced refresh does not
    join, it starts an acquisition of its own and takes over [inflight]. *)
Theorem X18_shared_acquisitions_coalesce (options options' : option object)
    (now now' : Z) (p p' : TokenProvider.promise) (st st1 : TokenProvider.State) :
  TokenProvider.getToken_start false options now p st
    = TokenProvider.Acquiring p true st1 →
  TokenProvider.hasRequestOptions options' = false →
  TokenProvider.isValid now' st = false →
  TokenProvider.getToken_start false options' now' p' st1 = TokenProvider.Joined p
  ∧ TokenProvider.getToken_start true options' now' p' st1
    = TokenProvider.Acquiring p' true
        (TokenProvider.set_inflight (Some p') st1).
Proof.
  unfold TokenProvider.getToken_start. cbn [negb andb].
  destruct (TokenProvider.hasRequestOptions options) eqn:Ho; cbn [negb].
  { discriminate. }
  destruct (TokenProvider.isValid now st); [discriminate|].
  destruct (TokenProvider.inflight st); [discriminate|].
  intros [= <-] -> Hv. cbn [negb andb].
  rewrite isValid_set_inflight, Hv. done.
Qed.

(** X18 on the first two calls of a process. *)
Lemma X18_shared_acquisitions_coalesce_witness :
  let st1 := TokenProvider.set_inflight (Some 1%nat) emptyState in
  TokenProvider.getToken_start false None 1000 1%nat emptyState
    = TokenProvider.Acquiring 1%nat true st1
  ∧ TokenProvider.getToken_start false None 1005 2%nat st1 = TokenProvider.Joined 1%nat.
Proof.
  split; [reflexivity|].
  apply (X18_shared_acquisitions_coalesce None None 1000 1005 1%nat 2%nat
           emptyState (TokenProvider.set_inflight (Some 1%nat) emptyState));
    reflexivity.
Defined.

(** ** Reading the expiry *)

Lemma split_dots_no_dot (current s : string) :
  string_forallb (λ c, negb (Ascii.eqb c ".")) s = true →
  ∃ part, Jwt.split_dots current s = [part].
Proof.
  revert current. induction s as [|c s IH]; intros current; simpl.
  - by eexists.
  - rewrite andb_true_iff, negb_true_iff. intros [-> Hs]. by apply IH.
Qed.

(** X19. A token without a dot has no expiry, whatever the decoders do;
    so once such a token has been acquired by a call without options, every
    later call without options and without forced refresh is answered from
    the cache, at any time. *)
Theorem X19_token_without_dot_never_expires
    (base64_decode_utf8 : string → string) (JSON_parse : string → option jsval)
    (fn : option object → string + string) (env : Env) (forceRefresh : bool)
    (now : Z) (fresh : TokenProvider.promise) (joined : string + string)
    (st : TokenProvider.State) (t : string) :
  string_forallb (λ c, negb (Ascii.eqb c ".")) t = true →
  truthy (AUTH_TOKEN_MODULE env) = true →
  TokenProvider.inflight st = None →
  forceRefresh = true ∨ TokenProvider.isValid now st = false →
  fn None = inr t → t ≠ EmptyString →
  Jwt.getJwtExpMs base64_decode_utf8 JSON_parse t = None
  ∧ ∀ now' fresh',
      TokenProvider.getToken_start false None now' fresh'
        (TokenProvider.getToken (Jwt.getJwtExpMs base64_decode_utf8 JSON_parse)
           (inr fn) env forceRefresh None now fresh joined st).2
      = TokenProvider.Cached t.
Proof.
  intros Hdot Hmod Hinfl Hmust Hfn Ht.
  assert (Hexp : Jwt.getJwtExpMs base64_decode_utf8 JSON_parse t = None).
  { unfold Jwt.getJwtExpMs, Jwt.split_on_dot.
    by destruct (split_dots_no_dot EmptyString t Hdot) as [part ->]. }
  split; [done|]. intros now' fresh'.
  assert (Hstart : TokenProvider.getToken_start forceRefresh None now fresh st
                   = TokenProvider.Acquiring fresh true
                       (TokenProvider.set_inflight (Some fresh) st)).
  { unfold TokenProvider.getToken_start. simpl. rewrite Hinfl.
    destruct Hmust as [->|Hv]; [done|]. rewrite Hv, andb_false_r.
    by destruct (negb forceRefresh && true). }
  unfold TokenProvider.getToken. rewrite Hstart.
  unfold TokenProvider.acquireToken. rewrite Hmod. cbn [negb]. rewrite Hfn.
  rewrite (proj2 (String.eqb_neq t EmptyString)) by done.
  unfold TokenProvider.getToken_resume. cbn. rewrite Hexp.
  unfold TokenProvider.getToken_start, TokenProvider.isValid. cbn.
  by rewrite (proj2 (String.eqb_neq t EmptyString)) by done.
Qed.

(** X19 on an opaque token. *)
Lemma X19_token_without_dot_never_expires_witness :
  Jwt.getJwtExpMs id sampleJsonParse "fresh" = None
  ∧ ∀ now' fresh',
      TokenProvider.getToken_start false None now' fresh'
        (TokenProvider.getToken (Jwt.getJwtExpMs id sampleJsonParse)
           (inr (λ _, inr "fresh")) moduleConfig false None 1000 1%nat
           (inr "joined") emptyState).2
      = TokenProvider.Cached "fresh".
Proof.
  apply (X19_token_without_dot_never_expires id sampleJsonParse (λ _, inr "fresh")
           moduleConfig false 1000 1%nat (inr "joined") emptyState "fresh");
    try reflexivity; [by right|discriminate].
Defined.

(** ** The custom header source *)

Lemma elem_of_record_set (k k' v v' : string) (o : list (string * string)) :
  (k, v) ∈ record_set k' v' o → (k, v) ∈ o ∨ (k, v) = (k', v').
Proof.
  induction o as [|[k0 v0] o IH]; simpl.
  - intros ->%list_elem_of_singleton. by right.
  - destruct (String.eqb k0 k').
    + intros [->|Hin]%elem_of_cons; [by right|]. left. by apply elem_of_cons; right.
    + intros [->|Hin]%elem_of_cons; [left; apply list_elem_of_here|].
      destruct (IH Hin) as [H|H]; [|by right]. left. by apply elem_of_cons; right.
Qed.

Lemma record_set_length (k v : string) (o : list (string * string)) :
  (length (record_set k v o) ≤ S (length o))%nat.
Proof.
  induction o as [|[k0 v0] o IH]; simpl; [lia|].
  destruct (String.eqb k0 k); simpl; lia.
Qed.

Lemma record_set_keys (k v : string) (o : list (string * string)) (x : string) :
  x ∈ map fst (record_set k v o) → x = k ∨ x ∈ map fst o.
Proof.
  induction o as [|[k0 v0] o IH]; simpl.
  - intros ->%list_elem_of_singleton. by left.
  - destruct (String.eqb_spec k0 k) as [->|Hne]; simpl.
    + intros [->|Hin]%elem_of_cons; [by left|]. right. by apply elem_of_cons; right.
    + intros [->|Hin]%elem_of_cons; [right; apply list_elem_of_here|].
      destruct (IH Hin) as [H|H]; [by left|]. right. by apply elem_of_cons; right.
Qed.

Lemma record_set_NoDup (k v : string) (o : list (string * string)) :
  NoDup (map fst o) → NoDup (map fst (record_set k v o)).
Proof.
  induction o as [|[k0 v0] o IH]; simpl; intros Hnd.
  - apply NoDup_singleton.
  - apply NoDup_cons in Hnd as [Hk0 Hnd].
    destruct (String.eqb_spec k0 k) as [->|Hne]; simpl.
    + by apply NoDup_cons.
    + apply NoDup_cons. split; [|by apply IH].
      intros [->|Hin]%record_set_keys; done.
Qed.

Lemma collectCustomHeaders_ok (processEnv entries headers : list (string * string))
    (headerCount : Z) :
  (∀ kv, kv ∈ entries → kv ∈ processEnv) →
  collected_ok processEnv headers →
  Z.of_nat (length headers) ≤ headerCount ≤ CONFIG.MAX_CUSTOM_HEADERS →
  collected_ok processEnv (collectCustomHeaders entries headers headerCount)
  ∧ Z.of_nat (length (collectCustomHeaders entries headers headerCount))
    ≤ CONFIG.MAX_CUSTOM_HEADERS.
Proof.
  revert headers headerCount.
  induction entries as [|[key value] entries IH];
    intros headers headerCount Hsub Hok Hcount; simpl.
  - split; [done|lia].
  - assert (Hsub' : ∀ kv, kv ∈ entries → kv ∈ processEnv).
    { intros kv Hkv. apply Hsub. by apply elem_of_cons; right. }
    destruct (hasHeaderPrefix key) eqn:Hprefix; [|by apply IH].
    destruct (headerCount >=? CONFIG.MAX_CUSTOM_HEADERS) eqn:Hfull.
    { split; [done|lia]. }
    destruct (validateAndSanitizeInput (stripHeaderPrefix key) 256
                (Some header_name_chars)) as [n|e] eqn:Hn; [|by apply IH].
    destruct (validateAndSanitizeInput value CONFIG.MAX_HEADER_VALUE_LENGTH None)
      as [v|e] eqn:Hv; [|by apply IH].
    apply validateAndSanitizeInput_inv in Hn as (Hnlen & Hntest & _).
    apply validateAndSanitizeInput_inv in Hv as (Hvlen & _ & _).
    assert (Hstrip : stripHeaderPrefix key = string_drop 7 key)
      by (unfold stripHeaderPrefix; by rewrite Hprefix).
    unfold record_assign.
    destruct (String.eqb (stripHeaderPrefix key) "__proto__").
    { apply IH; [done|done|].
      rewrite Z.geb_leb in Hfull. apply Z.leb_gt in Hfull. lia. }
    apply IH; [done| |].
    + destruct Hok as [Hnd Hall]. split; [by apply record_set_NoDup|].
      intros name val [Hin|[= -> ->]]%elem_of_record_set; [by apply Hall|].
      split_and!; [by apply Hntest|done|done|].
      exists key. split_and!; [|done|done].
      apply Hsub, list_elem_of_here.
    + pose proof (record_set_length (stripHeaderPrefix key) value headers).
      rewrite Z.geb_leb in Hfull. apply Z.leb_gt in Hfull. lia.
Qed.

(** X20. The custom headers hold at most 50 entries with distinct names;
    every name is non-empty, at most 256 characters long and made of
    letters, digits, [_] and [-]; every value is at most 8192 characters
    long and is the value of an environment variable whose name starts
    with [header_] in any case, the header name being what follows those
    seven characters; and once computed they are returned again whatever
    the environment has become. *)
Theorem X20_custom_headers_are_bounded (processEnv later : list (string * string)) :
  let first := getCustomHeaders processEnv None in
  Z.of_nat (length first.1) ≤ 50
  ∧ NoDup (map fst first.1)
  ∧ (∀ name value, (name, value) ∈ first.1 →
       header_name_chars name = true
       ∧ Z.of_nat (String.length name) ≤ 256
       ∧ Z.of_nat (String.length value) ≤ 8192
       ∧ ∃ key, (key, value) ∈ processEnv
                ∧ hasHeaderPrefix key = true
                ∧ name = string_drop 7 key)
  ∧ (getCustomHeaders later first.2).1 = first.1.
Proof.
  simpl.
  destruct (collectCustomHeaders_ok processEnv processEnv [] 0) as [[Hnd Hall] Hlen].
  - done.
  - split; [apply NoDup_nil_2|]. by intros ?? ?%elem_of_nil.
  - simpl. unfold CONFIG.MAX_CUSTOM_HEADERS. lia.
  - by split_and!.
Qed.

(** ** The performance monitor *)

(** X21. With monitoring on, recording a measurement keeps every metric at
    100 measurements or fewer when it was so before, puts the new
    measurement last under its name, and leaves the other metrics alone;
    with monitoring off nothing is recorded. *)
Theorem X21_metrics_stay_bounded {V : Type} (name : string) (value : V)
    (metrics : gmap string (list V)) :
  (∀ n vs, metrics !! n = Some vs → (length vs ≤ 100)%nat) →
  let metrics' := PerformanceMonitor.recordMetric true name value metrics in
  (∀ n vs, metrics' !! n = Some vs → (length vs ≤ 100)%nat)
  ∧ (∃ vs, metrics' !! name = Some vs ∧ last vs = Some value)
  ∧ (∀ n, n ≠ name → metrics' !! n = metrics !! n)
  ∧ PerformanceMonitor.recordMetric false name value metrics = metrics.
Proof.
  intros Hbound metrics'. subst metrics'. unfold PerformanceMonitor.recordMetric.
  cbn [negb].
  set (old := default [] (metrics !! name)).
  assert (Hold : (length old ≤ 100)%nat).
  { subst old. destruct (metrics !! name) as [vs|] eqn:Hl; simpl; [|lia].
    by apply (Hbound name). }
  assert (Hnew : (length (if (100 <? length (old ++ [value]))%nat
                          then tail (old ++ [value]) else old ++ [value]) ≤ 100)%nat
                 ∧ last (if (100 <? length (old ++ [value]))%nat
                         then tail (old ++ [value]) else old ++ [value])
                   = Some value).
  { destruct (100 <? length (old ++ [value]))%nat eqn:Hlt.
    - apply Nat.ltb_lt in Hlt. rewrite length_app in Hlt. simpl in Hlt.
      destruct old as [|x old]; [simpl in *; lia|]. simpl in *.
      rewrite length_app. simpl. split; [lia|]. apply last_snoc.
    - apply Nat.ltb_ge in Hlt. split; [lia|]. apply last_snoc. }
  destruct Hnew as [Hlen Hlast].
  split_and!.
  - intros n vs. rewrite lookup_insert. case_decide; [|by apply Hbound].
    by intros [= <-].
  - eexists. split; [apply lookup_insert_eq|done].
  - intros n Hn. by rewrite lookup_insert_ne.
  - done.
Qed.

(** X21 on the first measurement. *)
Lemma X21_metrics_stay_bounded_witness :
  PerformanceMonitor.recordMetric true "request_duration" 12 (∅ : gmap string (list Z))
  !! "request_duration" = Some [12]
  ∧ ∀ n vs, PerformanceMonitor.recordMetric true "request_duration" 12
              (∅ : gmap string (list Z)) !! n = Some vs → (length vs ≤ 100)%nat.
Proof.
  split; [reflexivity|].
  apply (X21_metrics_stay_bounded "request_duration" 12 (∅ : gmap string (list Z))).
  intros n vs Hl. by rewrite lookup_empty in Hl.
Defined.

(** ** Startup *)

(** X22. Whatever [parseInt] makes of the variable, the size limit the
    process starts with is positive and at most 52428800; it is 10000 when
    the variable is unset or empty; and the process does not start when
    the variable parses to no number, to zero or less, or to more than
    the maximum. *)
Theorem X22_size_limit_is_in_range (parseInt : string → option Z)
    (REST_RESPONSE_SIZE_LIMIT : option string) :
  match Startup.loadResponseSizeLimit parseInt REST_RESPONSE_SIZE_LIMIT with
  | inr limit =>
      0 < limit ≤ 52428800
      ∧ (if truthy REST_RESPONSE_SIZE_LIMIT
         then parseInt (template REST_RESPONSE_SIZE_LIMIT) = Some limit
         else limit = 10000)
  | inl _ =>
      truthy REST_RESPONSE_SIZE_LIMIT = true
      ∧ match parseInt (template REST_RESPONSE_SIZE_LIMIT) with
        | Some n => n ≤ 0 ∨ 52428800 < n
        | None => True
        end
  end.
Proof.
  unfold Startup.loadResponseSizeLimit.
  destruct (truthy REST_RESPONSE_SIZE_LIMIT).
  - destruct (parseInt _) as [n|]; [|done].
    destruct (n <=? 0) eqn:H0; [split; [done|lia]|].
    destruct (n >? Startup.MAX_RESPONSE_SIZE_LIMIT) eqn:H1.
    + split; [done|]. unfold Startup.MAX_RESPONSE_SIZE_LIMIT in H1. lia.
    + unfold Startup.MAX_RESPONSE_SIZE_LIMIT in H1. split; [lia|done].
  - simpl. unfold Startup.DEFAULT_RESPONSE_SIZE_LIMIT. split; [lia|done].
Qed.

(** X23. For every configuration the process starts with, the body of an
    envelope measures at most the size limit, truncated or not. *)
Theorem X23_envelope_body_fits_the_limit (parseInt : string → option Z)
    (REST_RESPONSE_SIZE_LIMIT : option string)
    (JSON_stringify : jsval → jsstring) (env : Env) (out : Outside)
    (config : AxiosRequestConfig) (args : EndpointArgs) (resp : AxiosResponse)
    (cache : Cache) :
  Startup.loadResponseSizeLimit parseInt REST_RESPONSE_SIZE_LIMIT
    = inr (RESPONSE_SIZE_LIMIT env) →
  let envelope := (buildEnvelope JSON_stringify env out config args resp cache).1 in
  Buffer_byteLength (bodyStr JSON_stringify (response_body (response envelope)))
  ≤ RESPONSE_SIZE_LIMIT env.
Proof.
  intros Hload envelope.
  assert (Hpos : 0 ≤ RESPONSE_SIZE_LIMIT env).
  { unfold Startup.loadResponseSizeLimit in Hload.
    destruct (if truthy _ then _ else _) as [n|]; [|discriminate].
    destruct (n <=? 0) eqn:H0; [discriminate|].
    destruct (n >? _); [discriminate|]. injection Hload as <-. lia. }
  pose proof (buildEnvelope_size_check JSON_stringify env out config args resp cache)
    as Hcheck.
  cbv zeta in Hcheck. apply (f_equal fst) in Hcheck. cbn [fst] in Hcheck.
  fold envelope in Hcheck. rewrite Hcheck. unfold checkBodySize.
  destruct (Buffer_byteLength _ >? RESPONSE_SIZE_LIMIT env) eqn:Hbig.
  - destruct (trimToLimit_longest_prefix (RESPONSE_SIZE_LIMIT env)
                (bodyStr JSON_stringify (data resp)) Hpos) as (k & _ & -> & Hfit & _).
    done.
  - simpl. lia.
Qed.

(** X23 at the default limit, on a body of sixteen bytes. *)
Lemma X23_envelope_body_fits_the_limit_witness :
  let resp := okResponse (JStr (of_ascii "0123456789ABCDEF")) in
  Buffer_byteLength
    (bodyStr sampleSerializer
       (response_body (response
          (buildEnvelope sampleSerializer (limitedConfig 10000)
             (quietOutside (inr resp))
             (buildConfig (limitedConfig 10000) getUsers) getUsers resp ∅).1)))
  ≤ 10000.
Proof.
  apply (X23_envelope_body_fits_the_limit (λ _, None) None sampleSerializer
           (limitedConfig 10000)).
  reflexivity.
Defined.

(** ** Byte length and prefixes *)

Lemma utf8_scalar_length_pos (cp : Z) : (0 < length (utf8_scalar cp))%nat.
Proof.
  unfold utf8_scalar.
  destruct (cp <? 0x80); [simpl; lia|].
  destruct (cp <? 0x800); [simpl; lia|].
  destruct (cp <? 0x10000); simpl; lia.
Qed.

Lemma utf8_pair_length (c d : Z) :
  is_high_surrogate c = true → is_low_surrogate d = true →
  length (utf8_scalar (0x10000 + (c - 0xD800) * 0x400 + (d - 0xDC00))) = 4%nat.
Proof.
  unfold is_high_surrogate, is_low_surrogate.
  rewrite !andb_true_iff, !Z.leb_le. intros [Hc1 Hc2] [Hd1 Hd2].
  unfold utf8_scalar.
  rewrite (proj2 (Z.ltb_ge _ 0x80)) by lia.
  rewrite (proj2 (Z.ltb_ge _ 0x800)) by lia.
  by rewrite (proj2 (Z.ltb_ge _ 0x10000)) by lia.
Qed.

(** Appending a code unit never shortens the encoding. *)
Lemma utf8_encode_snoc_length (n : nat) (s : jsstring) (x : Z) :
  (length s ≤ n)%nat →
  (length (utf8_encode s) ≤ length (utf8_encode (s ++ [x])))%nat.
Proof.
  revert s. induction n as [|n IH]; intros s Hn.
  - destruct s; simpl in *; lia.
  - destruct s as [|c [|d rest]].
    + simpl. lia.
    + clear IH. cbn [utf8_encode app].
      pose proof (utf8_scalar_length_pos x).
      destruct (is_high_surrogate c) eqn:Hc.
      * destruct (is_low_surrogate x) eqn:Hx.
        -- rewrite app_nil_r, (utf8_pair_length c x Hc Hx). simpl. lia.
        -- rewrite length_app. lia.
      * destruct (is_low_surrogate c); rewrite !length_app; cbn [length]; lia.
    + assert (H1 : (length (utf8_encode (d :: rest))
                    ≤ length (utf8_encode ((d :: rest) ++ [x])))%nat)
        by (apply IH; simpl in *; lia).
      assert (H2 : (length (utf8_encode rest)
                    ≤ length (utf8_encode (rest ++ [x])))%nat)
        by (apply IH; simpl in *; lia).
      change ((c :: d :: rest) ++ [x]) with (c :: d :: (rest ++ [x])).
      change ((d :: rest) ++ [x]) with (d :: (rest ++ [x])) in H1.
      cbn [utf8_encode] in *.
      destruct (is_high_surrogate c).
      * destruct (is_low_surrogate d); rewrite !length_app; lia.
      * destruct (is_low_surrogate c); rewrite !length_app; lia.
Qed.

(** A prefix never measures more than the whole. *)
Lemma Buffer_byteLength_prefix (p s : jsstring) :
  p `prefix_of` s → Buffer_byteLength p ≤ Buffer_byteLength s.
Proof.
  intros [q ->]. induction q as [|x q IH] using rev_ind.
  - by rewrite app_nil_r.
  - rewrite app_assoc. unfold Buffer_byteLength in *.
    pose proof (utf8_encode_snoc_length (length (p ++ q)) (p ++ q) x (le_n _)).
    lia.
Qed.

(** X24. When a body is truncated, the returned text marks the threshold:
    a prefix of the body text fits the limit exactly when it is no longer
    than the returned text. *)
Theorem X24_truncation_threshold (JSON_stringify : jsval → jsstring)
    (limit : Z) (data : jsval) (v : ValidationResult) (p : jsstring) :
  0 ≤ limit →
  limit < Buffer_byteLength (bodyStr JSON_stringify data) →
  p `prefix_of` bodyStr JSON_stringify data →
  ∃ t, (checkBodySize JSON_stringify limit data v).1 = JStr t
       ∧ (Buffer_byteLength p ≤ limit ↔ (length p ≤ length t)%nat).
Proof.
  intros Hlimit Hover Hp. unfold checkBodySize.
  rewrite Z.gtb_ltb, (proj2 (Z.ltb_lt _ _)) by done.
  destruct (trimToLimit_longest_prefix limit (bodyStr JSON_stringify data) Hlimit)
    as (k & Hk & -> & Hfit & Hmax).
  exists (take k (bodyStr JSON_stringify data)). split; [done|].
  set (s := bodyStr JSON_stringify data) in *.
  assert (Hpt : p = take (length p) s).
  { destruct Hp as [q Hq]. rewrite Hq. by rewrite take_app_length. }
  assert (Hlen : (length p ≤ length s)%nat).
  { destruct Hp as [q Hq]. rewrite Hq, length_app. lia. }
  rewrite length_take. split.
  - intros Hfits. destruct (decide (length p ≤ k)%nat) as [|Hgt]; [lia|].
    exfalso. specialize (Hmax (length p)). rewrite <- Hpt in Hmax. lia.
  - intros Hshort.
    assert (Hprefix : p `prefix_of` take k s).
    { assert (Hpk : p = take (length p) (take k s)).
      { rewrite take_take. by replace (length p `min` k)%nat with (length p) by lia. }
      rewrite Hpk. apply prefix_take. }
    apply Buffer_byteLength_prefix in Hprefix. lia.
Qed.

(** X24 on sixteen ASCII bytes under a limit of ten. *)
Lemma X24_truncation_threshold_witness :
  ∃ t, (checkBodySize no_serializer 10 (JStr (of_ascii "0123456789ABCDEF"))
          freshValidation).1 = JStr t
       ∧ (Buffer_byteLength (of_ascii "0123") ≤ 10
          ↔ (length (of_ascii "0123") ≤ length t)%nat).
Proof.
  apply (X24_truncation_threshold no_serializer 10
           (JStr (of_ascii "0123456789ABCDEF")) freshValidation (of_ascii "0123")).
  - lia.
  - vm_compute. reflexivity.
  - by exists (of_ascii "456789ABCDEF").
Defined.

(** ** Slashes *)

Lemma drop_leading_slashes_cons (c : ascii) (s : string) :
  drop_leading_slashes (String c s)
  = if Ascii.eqb c "/" then drop_leading_slashes s else String c s.
Proof. by destruct c as [[] [] [] [] [] [] [] []]. Qed.

Lemma ends_with_slash_rev (s : string) :
  ends_with_slash s = starts_with_slash (String.rev s).
Proof.
  unfold ends_with_slash, starts_with_slash.
  destruct (String.rev s) as [|c r]; [done|].
  by destruct c as [[] [] [] [] [] [] [] []].
Qed.

Lemma rev_app_list (s1 s2 : string) :
  String.list_ascii_of_string (String.rev_app s1 s2)
  = rev (String.list_ascii_of_string s1) ++ String.list_ascii_of_string s2.
Proof.
  revert s2. induction s1 as [|c s1 IH]; intros s2; simpl; [done|].
  rewrite IH. simpl. by rewrite <- app_assoc.
Qed.

Lemma rev_list (s : string) :
  String.list_ascii_of_string (String.rev s) = rev (String.list_ascii_of_string s).
Proof. unfold String.rev. rewrite rev_app_list. simpl. by rewrite app_nil_r. Qed.

Lemma list_ascii_inj (s1 s2 : string) :
  String.list_ascii_of_string s1 = String.list_ascii_of_string s2 → s1 = s2.
Proof.
  intros H. rewrite <- (String.string_of_list_ascii_of_string s1).
  rewrite <- (String.string_of_list_ascii_of_string s2). by rewrite H.
Qed.

Lemma list_ascii_append (s1 s2 : string) :
  String.list_ascii_of_string (s1 +:+ s2)
  = String.list_ascii_of_string s1 ++ String.list_ascii_of_string s2.
Proof. induction s1 as [|c s1 IH]; simpl; [done|]. by rewrite IH. Qed.

Lemma rev_rev (s : string) : String.rev (String.rev s) = s.
Proof. apply list_ascii_inj. by rewrite !rev_list, rev_involutive. Qed.

Lemma rev_append (s1 s2 : string) :
  String.rev (s1 +:+ s2) = String.rev s2 +:+ String.rev s1.
Proof.
  apply list_ascii_inj.
  by rewrite rev_list, !list_ascii_append, !rev_list, rev_app_distr.
Qed.

Lemma drop_leading_slashes_starts (s : string) :
  starts_with_slash (drop_leading_slashes s) = false.
Proof.
  induction s as [|c s IH]; [done|].
  rewrite drop_leading_slashes_cons.
  destruct (Ascii.eqb c "/") eqn:Hc; [done|]. simpl. exact Hc.
Qed.

Lemma drop_leading_slashes_id (s : string) :
  starts_with_slash s = false → drop_leading_slashes s = s.
Proof.
  destruct s as [|c s]; [done|]. simpl starts_with_slash. intros Hc.
  by rewrite drop_leading_slashes_cons, Hc.
Qed.

(** What [drop_leading_slashes] removes is a run of slashes. *)
Lemma drop_leading_slashes_split (s : string) :
  ∃ n, s = Jwt.string_repeat "/" n +:+ drop_leading_slashes s.
Proof.
  induction s as [|c s [n IH]]; [by exists 0%nat|].
  rewrite drop_leading_slashes_cons.
  destruct (Ascii.eqb_spec c "/") as [->|Hne].
  - exists (S n).
    change (String "/" s
            = String "/" (Jwt.string_repeat "/" n +:+ drop_leading_slashes s)).
    by f_equal.
  - by exists 0%nat.
Qed.

Lemma drop_trailing_slashes_ends (s : string) :
  ends_with_slash (drop_trailing_slashes s) = false.
Proof.
  unfold drop_trailing_slashes.
  rewrite ends_with_slash_rev, rev_rev. apply drop_leading_slashes_starts.
Qed.

Lemma drop_trailing_slashes_id (s : string) :
  ends_with_slash s = false → drop_trailing_slashes s = s.
Proof.
  rewrite ends_with_slash_rev. intros H. unfold drop_trailing_slashes.
  by rewrite drop_leading_slashes_id, rev_rev.
Qed.

(** What [drop_trailing_slashes] returns is the start of its argument. *)
Lemma drop_trailing_slashes_prefix (s : string) :
  ∃ rest, s = drop_trailing_slashes s +:+ rest.
Proof.
  unfold drop_trailing_slashes.
  destruct (drop_leading_slashes_split (String.rev s)) as [n Hn].
  exists (String.rev (Jwt.string_repeat "/" n)).
  rewrite <- rev_append, <- Hn. by rewrite rev_rev.
Qed.

Lemma drop_trailing_slashes_starts (s : string) :
  starts_with_slash s = false →
  starts_with_slash (drop_trailing_slashes s) = false.
Proof.
  intros Hs. destruct (drop_trailing_slashes_prefix s) as [rest Hrest].
  destruct (drop_trailing_slashes s) as [|c t]; [done|].
  rewrite Hrest in Hs. exact Hs.
Qed.

Lemma drop_trailing_slashes_snoc (s : string) :
  drop_trailing_slashes (s +:+ "/") = drop_trailing_slashes s.
Proof.
  unfold drop_trailing_slashes. rewrite rev_append.
  change (String.rev "/") with "/".
  change ("/" +:+ String.rev s) with (String "/" (String.rev s)).
  by rewrite drop_leading_slashes_cons.
Qed.

Lemma drop_leading_slashes_snoc (s : string) :
  drop_leading_slashes (s +:+ "/")
  = match drop_leading_slashes s with
    | EmptyString => EmptyString
    | kept => kept +:+ "/"
    end.
Proof.
  induction s as [|c s IH]; [done|].
  change (String c s +:+ "/") with (String c (s +:+ "/")).
  rewrite !drop_leading_slashes_cons.
  destruct (Ascii.eqb c "/"); [exact IH | reflexivity].
Qed.

(** X25. The endpoint path the handler appends to the base never starts
    or ends with a slash of its own, so the resolved URL has exactly the
    one slash the handler writes between base and path; leading and
    trailing slashes of the endpoint make no difference, and trimming
    twice is trimming once. *)
Theorem X25_endpoint_slashes_are_normalized (env : Env) (args : EndpointArgs) :
  let path := trim_slashes (endpoint args) in
  starts_with_slash path = false
  ∧ ends_with_slash path = false
  ∧ trim_slashes path = path
  ∧ trim_slashes (String "/" (endpoint args)) = path
  ∧ trim_slashes (endpoint args +:+ "/") = path
  ∧ (isFullUrl (endpoint args) = false →
     resolveUrl env args
     = template (if truthy (host args) then host args else REST_BASE_URL env)
       +:+ "/" +:+ path
     ∧ resolveUrl env {| method := method args;
                         endpoint := String "/" (endpoint args);
                         body := body args; headers := headers args;
                         host := host args |}
       = resolveUrl env args).
Proof.
  intros path. subst path. unfold trim_slashes.
  assert (Hstart : starts_with_slash
                     (drop_trailing_slashes (drop_leading_slashes (endpoint args)))
                   = false)
    by apply drop_trailing_slashes_starts, drop_leading_slashes_starts.
  split_and!.
  - done.
  - apply drop_trailing_slashes_ends.
  - rewrite (drop_leading_slashes_id _ Hstart).
    apply drop_trailing_slashes_id, drop_trailing_slashes_ends.
  - by rewrite drop_leading_slashes_cons.
  - rewrite drop_leading_slashes_snoc.
    destruct (drop_leading_slashes (endpoint args)) as [|c s] eqn:Hd; [done|].
    apply drop_trailing_slashes_snoc.
  - intros Hfull. unfold resolveUrl. rewrite Hfull. split; [done|].
    cbn [endpoint host]. unfold trim_slashes.
    by rewrite drop_leading_slashes_cons.
Qed.

(** X26. A normalized base URL never ends with a slash; normalizing it
    again changes nothing; a base URL without a trailing slash is kept
    as it is; and an unset or empty one gives the empty string. *)
Theorem X26_normalized_base_url (url : option string) :
  ends_with_slash (Startup.normalizeBaseUrl url) = false
  ∧ Startup.normalizeBaseUrl (Some (Startup.normalizeBaseUrl url))
    = Startup.normalizeBaseUrl url
  ∧ (ends_with_slash (template url) = false → truthy url = true →
     Startup.normalizeBaseUrl url = template url)
  ∧ (truthy url = false → Startup.normalizeBaseUrl url = EmptyString).
Proof.
  unfold Startup.normalizeBaseUrl.
  destruct (truthy url) eqn:Hu.
  - split_and!; [apply drop_trailing_slashes_ends| |by intros; apply drop_trailing_slashes_id|done].
    destruct (truthy (Some (drop_trailing_slashes (template url)))) eqn:Hn; simpl.
    + apply drop_trailing_slashes_id, drop_trailing_slashes_ends.
    + simpl in Hn. apply negb_false_iff, String.eqb_eq in Hn. by rewrite Hn.
  - by split_and!.
Qed.

(** ** The text handed to the base64 decoder *)

Lemma string_map_length (f : ascii → ascii) (s : string) :
  String.length (Jwt.string_map f s) = String.length s.
Proof. induction s as [|c s IH]; simpl; [done|]. by rewrite IH. Qed.

Lemma string_repeat_length (c : ascii) (n : nat) :
  String.length (Jwt.string_repeat c n) = n.
Proof. induction n as [|n IH]; simpl; [done|]. by rewrite IH. Qed.

Lemma string_append_length (s1 s2 : string) :
  String.length (s1 +:+ s2) = (String.length s1 + String.length s2)%nat.
Proof. induction s1 as [|c s1 IH]; simpl; [done|]. by rewrite IH. Qed.

Lemma string_forallb_append (p : ascii → bool) (s1 s2 : string) :
  string_forallb p (s1 +:+ s2) = string_forallb p s1 && string_forallb p s2.
Proof.
  induction s1 as [|c s1 IH]; simpl; [done|]. by rewrite IH, andb_assoc.
Qed.

Lemma string_forallb_map (p : ascii → bool) (f : ascii → ascii) (s : string) :
  (∀ c, p (f c) = true) → string_forallb p (Jwt.string_map f s) = true.
Proof. intros Hf. induction s as [|c s IH]; simpl; [done|]. by rewrite Hf, IH. Qed.

Lemma string_forallb_repeat (p : ascii → bool) (c : ascii) (n : nat) :
  p c = true → string_forallb p (Jwt.string_repeat c n) = true.
Proof. intros Hc. induction n as [|n IH]; simpl; [done|]. by rewrite Hc, IH. Qed.

(** X27. The text [decodeBase64UrlToString] hands to the base64 decoder
    has a length that is a multiple of four, is at most three characters
    longer than the input, and holds neither [-] nor [_]: both have been
    replaced by their counterparts of the standard alphabet. *)
Theorem X27_base64_text_is_padded (input : string) :
  (String.length (Jwt.base64Text input) mod 4 = 0)%nat
  ∧ (String.length input ≤ String.length (Jwt.base64Text input)
     ≤ String.length input + 3)%nat
  ∧ string_forallb (λ c, negb (Ascii.eqb c "-") && negb (Ascii.eqb c "_"))
      (Jwt.base64Text input) = true.
Proof.
  unfold Jwt.base64Text.
  set (normalized := Jwt.string_map _ (Jwt.string_map _ input)).
  assert (Hlen : String.length normalized = String.length input)
    by (subst normalized; by rewrite !string_map_length).
  assert (Hclean : string_forallb
                     (λ c, negb (Ascii.eqb c "-") && negb (Ascii.eqb c "_"))
                     normalized = true).
  { subst normalized. clear Hlen. induction input as [|c s IH]; simpl; [done|].
    rewrite IH, andb_true_r.
    destruct (Ascii.eqb_spec c "-") as [->|H1]; [done|].
    destruct (Ascii.eqb_spec c "_") as [->|H2]; [done|].
    rewrite (proj2 (Ascii.eqb_neq c "-")), (proj2 (Ascii.eqb_neq c "_")) by done.
    done. }
  rewrite string_append_length, string_forallb_append, Hclean, Hlen.
  pose proof (Nat.div_mod_eq (String.length input) 4) as Hdm.
  pose proof (Nat.mod_upper_bound (String.length input) 4 ltac:(lia)) as Hub.
  destruct (String.length input mod 4 =? 0)%nat eqn:Hz.
  - apply Nat.eqb_eq in Hz. simpl. rewrite Nat.add_0_r.
    split_and!; [done|lia|lia|done].
  - apply Nat.eqb_neq in Hz. rewrite string_repeat_length.
    split_and!; [|lia|lia|].
    + replace (String.length input + (4 - String.length input mod 4))%nat
        with ((String.length input / 4 + 1) * 4)%nat by lia.
      apply Nat.Div0.mod_mul.
    + by apply string_forallb_repeat.
Qed.
